(** * age-plugin-bip39: key derivation, X25519 stanza codec, identity
      adapter and key cache

    A shallow embedding of [main.go] and of the Linux key cache (the
    [//go:build linux] file) of age-plugin-bip39, with the properties of its
    specification stated and proved over it.

    Conventions.
    - A Go [byte] is a [Z] in [0, 256); [[]byte] is [list Z].  Bit operations
      are [Z.land] and [Z.lor].
    - A Go [string] is a [string]; [[]byte(s)] and [string(b)] are
      [bytes_of_string] and [string_of_bytes].
    - A Go [(T, error)] result is a [Result T].
    - The functions of the packages the program imports (crypto, encodings,
      bip39, time, the keyctl system calls) are the fields of the class
      [Library]; what the proofs need from them is stated as hypotheses of
      the section, one law each.
    - Code that reads the environment, talks to the keyring or prompts the
      user runs in the monad [M], over a [World] that also records the trace
      of the calls made. *)

From Stdlib Require Import ZArith String Ascii List Bool Lia.
From stdpp Require Import base tactics option list vector strings gmap pretty.

(** ** Bytes, strings, errors *)

Abbreviation bytes := (list Z).

Definition is_byte (b : Z) : Prop := (0 ≤ b < 256)%Z.

Ltac decide_byte_list :=
  repeat constructor; unfold is_byte; lia.

Definition byte_of_ascii (a : ascii) : Z := Z.of_N (N_of_ascii a).
Definition ascii_of_byte (b : Z) : ascii := ascii_of_N (Z.to_N b).

(** [[]byte(s)] *)
Definition bytes_of_string (s : string) : bytes :=
  byte_of_ascii <$> list_ascii_of_string s.

(** [string(b)] *)
Definition string_of_bytes (b : bytes) : string :=
  string_of_list_ascii (ascii_of_byte <$> b).

(** Go errors: [errors.New(msg)] (and [fmt.Errorf] without a verb),
    [fmt.Errorf("msg: %w", cause)], and the sentinel
    [age.ErrIncorrectIdentity]. *)
Inductive error : Type :=
| errors_New (msg : string)
| fmt_Errorf (msg : string) (cause : error)
| ErrIncorrectIdentity.

Inductive Result (A : Type) : Type :=
| Ok (a : A)
| Err (e : error).
Arguments Ok {A} a.
Arguments Err {A} e.

Definition is_Ok {A} (r : Result A) : bool :=
  match r with Ok _ => true | Err _ => false end.

(** ** Data of the program *)

(** [age.Stanza]. *)
Record Stanza := mkStanza {
  Type_ : string;
  Args : list string;
  Body : bytes;
}.

(** [*ecdh.PrivateKey]: [Bytes()] and [PublicKey().Bytes()]. *)
Record ecdh_PrivateKey := mkPrivateKey {
  Bytes : bytes;
  PublicKey_Bytes : bytes;
}.

(** [*plugin.Plugin]: the connection to the host; [RequestValue] asks the
    host to prompt the user. *)
Record Plugin := mkPlugin {
  RequestValue : string → bool → Result string;
}.

(** [Bip39Identity]: the identity file stores only the public key. *)
Record Bip39Identity := mkIdentity {
  plugin : Plugin;
  publicKey : bytes;
}.

(** [Bip39Recipient]; its field [publicKey] is [recipientPublicKey] here. *)
Record Bip39Recipient := mkRecipient {
  recipientPublicKey : bytes;
}.

(** ** The imported packages *)

Class Library := {
  (** crypto/sha512: [Sum512] returns a [[64]byte]. *)
  Sum512 : bytes → vec Z 64;
  (** golang.org/x/crypto/curve25519 *)
  X25519 : bytes → bytes → Result bytes;
  Basepoint : bytes;
  (** crypto/ecdh and crypto/rand: [ecdh.X25519().GenerateKey(rand.Reader)] *)
  RandReader : Type;
  GenerateKey : RandReader → Result ecdh_PrivateKey;
  (** golang.org/x/crypto/hkdf over sha256: [hkdf.New(sha256.New, secret,
      salt, info)] followed by [io.ReadFull] of [n] bytes. *)
  hkdf_ReadFull : bytes → bytes → bytes → nat → Result bytes;
  (** golang.org/x/crypto/chacha20poly1305: [aead.Seal(nil, nonce, plaintext,
      ad)] and [aead.Open(nil, nonce, ciphertext, ad)] for the AEAD of a
      32-byte key. *)
  aead_Seal : bytes → bytes → bytes → bytes → bytes;
  aead_Open : bytes → bytes → bytes → bytes → Result bytes;
  (** encoding/base64: [base64.RawStdEncoding.Strict()] *)
  b64_EncodeToString : bytes → string;
  b64_DecodeString : string → Result bytes;
  (** encoding/hex and the [%x] verb of fmt on a byte slice *)
  hex_DecodeString : string → Result bytes;
  fmt_x : bytes → string;
  (** strings *)
  TrimSpace : string → string;
  (** crypto/ecdh [X25519().NewPublicKey] (the bytes of the key it accepts)
      and filippo.io/age/plugin: the text encodings of a recipient and of an
      identity. *)
  ecdh_NewPublicKey : bytes → Result bytes;
  EncodeX25519Recipient : bytes → Result string;
  EncodeIdentity : string → bytes → string;
  (** github.com/tyler-smith/go-bip39 *)
  IsMnemonicValid : string → bool;
  EntropyFromMnemonic : string → Result bytes;
  (** time: [ParseDuration] in nanoseconds, and [int(d.Seconds())]. *)
  ParseDuration : string → Result Z;
  Duration_Seconds : Z → Z;
  (** golang.org/x/sys/unix: the keyctl system calls, over the state of the
      kernel's key store.  [KeyctlBuffer], given the length of the buffer
      in place of the buffer, returns [(ret, err)] and the bytes the kernel
      stored at the start of the buffer. *)
  Keyring : Type;
  KeyctlSearch : Keyring → Z → string → string → Z → Result Z;
  KeyctlBuffer : Keyring → Z → Z → nat → Z → Z * option error * bytes;
  AddKey : Keyring → string → string → bytes → Z → Keyring * Result Z;
  KeyctlInt : Keyring → Z → Z → Z → Z → Z → Keyring * Result Z;
}.

Definition KEY_SPEC_USER_KEYRING : Z := -4.
Definition KEYCTL_READ : Z := 11.
Definition KEYCTL_SET_TIMEOUT : Z := 15.
Definition Minute : Z := 60 * 1000000000.
Definition KeySize : nat := 32.
Definition NonceSize : nat := 12.

Definition x25519Label : string := "age-encryption.org/v1/X25519".

(** Go's built-in [copy(dst, src)]: the first [min(len(dst), len(src))]
    elements of [dst] are overwritten. *)
Definition copy (dst src : bytes) : bytes :=
  let n := length dst `min` length src in
  take n src ++ drop n dst.

Section Program.
Context `{L : Library}.

(** ** Key derivation *)

Definition deriveX25519FromMnemonic (mnemonic : string) : Result (bytes * bytes) :=
  match EntropyFromMnemonic mnemonic with
  | Err e => Err (fmt_Errorf "failed to extract entropy" e)
  | Ok entropy =>
    let h := Sum512 entropy in
    let x25519Private := replicate 32 0%Z in
    let x25519Private := copy x25519Private (take 32 (vec_to_list h)) in
    let x25519Private := <[0 := Z.land (x25519Private !!! 0) 248]> x25519Private in
    let x25519Private := <[31 := Z.land (x25519Private !!! 31) 127]> x25519Private in
    let x25519Private := <[31 := Z.lor (x25519Private !!! 31) 64]> x25519Private in
    match X25519 x25519Private Basepoint with
    | Err e => Err (fmt_Errorf "X25519 scalar multiplication failed" e)
    | Ok pubBytes => Ok (x25519Private, pubBytes)
    end
  end.

(** ** Stanza codec *)

Definition aeadEncrypt (key plaintext : bytes) : Result bytes :=
  if decide (length key = KeySize) then
    let nonce := replicate NonceSize 0%Z in
    Ok (aead_Seal key nonce plaintext [])
  else Err (errors_New "chacha20poly1305: bad key length").

Definition aeadDecrypt (key ciphertext : bytes) : Result bytes :=
  if decide (length key = KeySize) then
    let nonce := replicate NonceSize 0%Z in
    aead_Open key nonce ciphertext []
  else Err (errors_New "chacha20poly1305: bad key length").

Definition unwrapX25519 (secretKey ourPublicKey : bytes) (stanza : Stanza)
  : Result bytes :=
  match Args stanza with
  | [arg0] =>
    match b64_DecodeString arg0 with
    | Err e => Err (fmt_Errorf "failed to decode ephemeral public key" e)
    | Ok ephemeralPub =>
      if negb (length ephemeralPub =? 32) then
        Err (errors_New "invalid ephemeral public key length")
      else
        match X25519 secretKey ephemeralPub with
        | Err e => Err (fmt_Errorf "X25519 failed" e)
        | Ok sharedSecret =>
          let salt := ephemeralPub ++ ourPublicKey in
          match hkdf_ReadFull sharedSecret salt (bytes_of_string x25519Label) KeySize with
          | Err e => Err e
          | Ok wrappingKey => aeadDecrypt wrappingKey (Body stanza)
          end
        end
    end
  | _ => Err (errors_New "invalid X25519 stanza")
  end.

Definition wrapX25519 (rand : RandReader) (recipientPubKey fileKey : bytes)
  : Result (list Stanza) :=
  match GenerateKey rand with
  | Err e => Err e
  | Ok ephemeral =>
    let ephemeralPub := PublicKey_Bytes ephemeral in
    match X25519 (Bytes ephemeral) recipientPubKey with
    | Err e => Err e
    | Ok sharedSecret =>
      let salt := ephemeralPub ++ recipientPubKey in
      match hkdf_ReadFull sharedSecret salt (bytes_of_string x25519Label) KeySize with
      | Err e => Err e
      | Ok wrappingKey =>
        match aeadEncrypt wrappingKey fileKey with
        | Err e => Err e
        | Ok wrappedKey =>
          Ok [ {| Type_ := "X25519";
                  Args := [b64_EncodeToString ephemeralPub];
                  Body := wrappedKey |} ]
        end
      end
    end
  end.

Fixpoint bytesEqual_loop (a b : bytes) : bool :=
  match a, b with
  | x :: a', y :: b' => if negb (x =? y)%Z then false else bytesEqual_loop a' b'
  | _, _ => true
  end.

Definition bytesEqual (a b : bytes) : bool :=
  if negb (length a =? length b) then false else bytesEqual_loop a b.

(** ** The world the program runs in *)

(** The calls whose order and presence the specification talks about.  The
    first five are calls out of the process; [EvDerive] and [EvUnwrapX25519]
    mark the calls of [deriveX25519FromMnemonic] and [unwrapX25519] made by
    [Bip39Identity.Unwrap]. *)
Inductive event : Type :=
| EvKeyctlSearch (name : string)
| EvKeyctlRead (id : Z)
| EvAddKey (name : string) (payload : bytes)
| EvSetTimeout (id seconds : Z)
| EvRequestValue (message : string) (secret : bool)
| EvDerive (mnemonic : string)
| EvUnwrapX25519 (stanza : Stanza).

Record World := mkWorld {
  environ : gmap string string;
  keyring : Keyring;
  trace : list event;
}.

(** A computation ends with a value or with a Go run-time panic. *)
Inductive Outcome (A : Type) : Type :=
| Done (a : A) (w : World)
| Panic (msg : string) (w : World).
Arguments Done {A} a w.
Arguments Panic {A} msg w.

Definition M (A : Type) : Type := World → Outcome A.

#[export] Instance M_ret : MRet M := λ A a w, Done a w.

#[export] Instance M_bind : MBind M := λ A B f m w,
  match m w with
  | Done a w' => f a w'
  | Panic msg w' => Panic msg w'
  end.

Definition panic {A} (msg : string) : M A := λ w, Panic msg w.

Definition logged (e : event) (w : World) : World :=
  {| environ := environ w; keyring := keyring w; trace := trace w ++ [e] |}.

Definition set_keyring (k : Keyring) (w : World) : World :=
  {| environ := environ w; keyring := k; trace := trace w |}.

Definition log (e : event) : M unit := λ w, Done () (logged e w).

(** [os.Getenv]: the empty string when the variable is not set. *)
Definition Getenv (name : string) : M string := λ w,
  Done (default "" (environ w !! name)) w.

Definition keyctl_search (ringid : Z) (typ desc : string) (dest : Z) : M (Result Z) :=
  λ w, Done (KeyctlSearch (keyring w) ringid typ desc dest)
            (logged (EvKeyctlSearch desc) w).

Definition keyctl_buffer (cmd id : Z) (buf : bytes) (arg5 : Z)
  : M (Z * option error * bytes) :=
  λ w, let '(ret, err, stored) := KeyctlBuffer (keyring w) cmd id (length buf) arg5 in
       Done (ret, err, copy buf stored) (logged (EvKeyctlRead id) w).

Definition add_key (typ desc : string) (payload : bytes) (ringid : Z) : M (Result Z) :=
  λ w, let '(k, r) := AddKey (keyring w) typ desc payload ringid in
       Done r (set_keyring k (logged (EvAddKey desc payload) w)).

Definition keyctl_int (cmd id arg3 arg4 arg5 : Z) : M (Result Z) :=
  λ w, let '(k, r) := KeyctlInt (keyring w) cmd id arg3 arg4 arg5 in
       Done r (set_keyring k (logged (EvSetTimeout id arg3) w)).

(** The slice expression [buf[:n]]: a run-time panic unless
    [0 <= n <= cap(buf)]; the buffers sliced here have [cap = len]. *)
Definition slice_to (buf : bytes) (n : Z) : M bytes :=
  if decide (0 ≤ n ≤ Z.of_nat (length buf))%Z then mret (take (Z.to_nat n) buf)
  else panic "slice bounds out of range".

(** ** Key cache *)

Definition cacheTTL : M Z :=
  v ← Getenv "AGE_PLUGIN_BIP39_CACHE";
  if (v =? "")%string then mret (10 * Minute)%Z
  else if (v =? "0")%string then mret 0%Z
  else
    match ParseDuration v with
    | Err _ => mret (10 * Minute)%Z
    | Ok d => mret d
    end.

(** The result [nil] is [None]. *)
Definition getCachedKey (name : string) : M (option bytes) :=
  ttl ← cacheTTL;
  if (ttl =? 0)%Z then mret None
  else
    r ← keyctl_search KEY_SPEC_USER_KEYRING "user" name 0;
    match r with
    | Err _ => mret None
    | Ok id =>
      let buf := replicate 256 0%Z in
      '(n, err, buf) ← keyctl_buffer KEYCTL_READ id buf 0;
      if bool_decide (err ≠ None) || (n <=? 0)%Z then mret None
      else
        s ← slice_to buf n;
        match hex_DecodeString (string_of_bytes s) with
        | Err _ => mret None
        | Ok key => if negb (length key =? 32) then mret None else mret (Some key)
        end
    end.

Definition cacheKey (name : string) (key : bytes) : M unit :=
  ttl ← cacheTTL;
  if (ttl =? 0)%Z then mret ()
  else
    let payload := fmt_x key in
    r ← add_key "user" name (bytes_of_string payload) KEY_SPEC_USER_KEYRING;
    match r with
    | Err _ => mret ()
    | Ok id =>
      _ ← keyctl_int KEYCTL_SET_TIMEOUT id (Duration_Seconds ttl) 0 0;
      mret ()
    end.

(** ** Identity and recipient adapters *)

(** The first loop of [Unwrap]: is there a stanza of type X25519? *)
Fixpoint hasX25519 (stanzas : list Stanza) : bool :=
  match stanzas with
  | [] => false
  | s :: rest => if (Type_ s =? "X25519")%string then true else hasX25519 rest
  end.

(** The second loop of [Unwrap], with its final
    [return nil, age.ErrIncorrectIdentity]. *)
Fixpoint Unwrap_stanzas (privKey ourPublicKey : bytes) (stanzas : list Stanza)
  : M (Result bytes) :=
  match stanzas with
  | [] => mret (Err ErrIncorrectIdentity)
  | stanza :: rest =>
    if negb (Type_ stanza =? "X25519")%string then
      Unwrap_stanzas privKey ourPublicKey rest
    else
      _ ← log (EvUnwrapX25519 stanza);
      match unwrapX25519 privKey ourPublicKey stanza with
      | Err _ => Unwrap_stanzas privKey ourPublicKey rest
      | Ok fileKey => mret (Ok fileKey)
      end
  end.

Definition Bip39Identity_Unwrap (si : Bip39Identity) (stanzas : list Stanza)
  : M (Result bytes) :=
  if negb (hasX25519 stanzas) then mret (Err ErrIncorrectIdentity)
  else
    let cacheKeyName := ("age-plugin-bip39:" ++ fmt_x (publicKey si))%string in
    privKey ← getCachedKey cacheKeyName;
    match privKey with
    | Some privKey => Unwrap_stanzas privKey (publicKey si) stanzas
    | None =>
      _ ← log (EvRequestValue "Enter your BIP39 seed phrase" true);
      match RequestValue (plugin si) "Enter your BIP39 seed phrase" true with
      | Err e => mret (Err (fmt_Errorf "failed to request seed phrase" e))
      | Ok mnemonic =>
        let mnemonic := TrimSpace mnemonic in
        if negb (IsMnemonicValid mnemonic) then
          mret (Err (errors_New "invalid BIP39 mnemonic"))
        else
          _ ← log (EvDerive mnemonic);
          match deriveX25519FromMnemonic mnemonic with
          | Err e => mret (Err (fmt_Errorf "key derivation failed" e))
          | Ok (derivedPriv, derivedPub) =>
            if negb (bytesEqual derivedPub (publicKey si)) then
              mret (Err (errors_New "seed phrase does not match this identity"))
            else
              let privKey := derivedPriv in
              _ ← cacheKey cacheKeyName privKey;
              Unwrap_stanzas privKey (publicKey si) stanzas
          end
      end
    end.

Definition Bip39Recipient_Wrap (sr : Bip39Recipient) (rand : RandReader)
  (fileKey : bytes) : Result (list Stanza) :=
  wrapX25519 rand (recipientPublicKey sr) fileKey.

(** ** Key generation from a phrase on standard input *)

(** [outputIdentity], as the lines it prints on standard output; [now] is the
    formatted [time.Now()].  The styled summary on a terminal's standard
    error is left out. *)
Definition outputIdentity (now mnemonic : string) : Result (list string) :=
  match deriveX25519FromMnemonic mnemonic with
  | Err e => Err (fmt_Errorf "key derivation failed" e)
  | Ok (privKey, pubKey) =>
    match ecdh_NewPublicKey pubKey with
    | Err e => Err (fmt_Errorf "failed to create ECDH public key" e)
    | Ok ecdhPub =>
      match EncodeX25519Recipient ecdhPub with
      | Err e => Err (fmt_Errorf "failed to encode recipient" e)
      | Ok recipient =>
        let identity := EncodeIdentity "bip39" pubKey in
        if (identity =? "")%string then Err (errors_New "failed to encode identity")
        else
          Ok [ ("# created: " ++ now)%string;
               ("# public key: " ++ recipient)%string;
               identity ]
      end
    end
  end.

(** [runKeygenNonInteractive]; [stdin] is the result of
    [io.ReadAll(os.Stdin)]. *)
Definition runKeygenNonInteractive (stdin : Result bytes) (now : string)
  : Result (list string) :=
  match stdin with
  | Err e => Err (fmt_Errorf "failed to read seed phrase" e)
  | Ok b =>
    let mnemonic := TrimSpace (string_of_bytes b) in
    if (mnemonic =? "")%string then Err (errors_New "no mnemonic provided on stdin")
    else if negb (IsMnemonicValid mnemonic) then Err (errors_New "invalid BIP39 mnemonic")
    else outputIdentity now mnemonic
  end.

(** ** Notions used to state the properties *)

(** The private scalar computed from the 64 hash bytes [h]. *)
Definition clamped (h priv : bytes) : Prop :=
  length priv = 32 ∧
  priv !!! 0 = Z.land (h !!! 0) 248 ∧
  priv !!! 31 = Z.lor (Z.land (h !!! 31) 127) 64 ∧
  ∀ i, 0 < i < 31 → priv !!! i = h !!! i.

(** A stanza decrypts to [fileKey] under a key pair when it has type X25519
    and one argument that decodes to a 32-byte ephemeral key, the key
    agreement and the key derivation succeed, and the AEAD opens its body to
    [fileKey]. *)
Definition decrypts_to (secretKey ourPublicKey : bytes) (stanza : Stanza)
  (fileKey : bytes) : Prop :=
  Type_ stanza = "X25519" ∧
  ∃ arg ephemeralPub sharedSecret wrappingKey,
    Args stanza = [arg] ∧
    b64_DecodeString arg = Ok ephemeralPub ∧
    length ephemeralPub = 32 ∧
    X25519 secretKey ephemeralPub = Ok sharedSecret ∧
    hkdf_ReadFull sharedSecret (ephemeralPub ++ ourPublicKey)
      (bytes_of_string x25519Label) KeySize = Ok wrappingKey ∧
    aeadDecrypt wrappingKey (Body stanza) = Ok fileKey.

Definition undecryptable (secretKey ourPublicKey : bytes) (stanza : Stanza) : Prop :=
  ∀ fileKey, ¬ decrypts_to secretKey ourPublicKey stanza fileKey.

(** A stanza of type X25519 whose single argument is not the base64 of 32
    bytes. *)
Definition malformed_ephemeral (stanza : Stanza) : Prop :=
  Type_ stanza = "X25519" ∧
  ∃ arg, Args stanza = [arg] ∧
    match b64_DecodeString arg with
    | Err _ => True
    | Ok ephemeralPub => length ephemeralPub ≠ 32
    end.

(** The value a computation ends with, if it ends without a panic. *)
Definition value_of {A} (o : Outcome A) : option A :=
  match o with Done a _ => Some a | Panic _ _ => None end.

(** The world a computation leaves. *)
Definition world_after {A} (o : Outcome A) : World :=
  match o with Done _ w => w | Panic _ w => w end.

Definition add_trace (evs : list event) (w : World) : World :=
  {| environ := environ w; keyring := keyring w; trace := trace w ++ evs |}.

(** The result of the second loop of [Unwrap] and the stanzas it hands to
    [unwrapX25519], as pure functions. *)
Fixpoint first_key (privKey ourPublicKey : bytes) (stanzas : list Stanza)
  : option bytes :=
  match stanzas with
  | [] => None
  | stanza :: rest =>
    if (Type_ stanza =? "X25519")%string then
      match unwrapX25519 privKey ourPublicKey stanza with
      | Ok fileKey => Some fileKey
      | Err _ => first_key privKey ourPublicKey rest
      end
    else first_key privKey ourPublicKey rest
  end.

Fixpoint attempts (privKey ourPublicKey : bytes) (stanzas : list Stanza)
  : list Stanza :=
  match stanzas with
  | [] => []
  | stanza :: rest =>
    if (Type_ stanza =? "X25519")%string then
      match unwrapX25519 privKey ourPublicKey stanza with
      | Ok _ => [stanza]
      | Err _ => stanza :: attempts privKey ourPublicKey rest
      end
    else attempts privKey ourPublicKey rest
  end.

Definition key_or_incorrect (o : option bytes) : Result bytes :=
  match o with Some k => Ok k | None => Err ErrIncorrectIdentity end.

(** The part of [Unwrap] between its two loops: the private key from the
    cache or from the phrase, or the error [Unwrap] returns early. *)
Definition acquire_key (si : Bip39Identity) : M (Result bytes) :=
  let cacheKeyName := ("age-plugin-bip39:" ++ fmt_x (publicKey si))%string in
  privKey ← getCachedKey cacheKeyName;
  match privKey with
  | Some privKey => mret (Ok privKey)
  | None =>
    _ ← log (EvRequestValue "Enter your BIP39 seed phrase" true);
    match RequestValue (plugin si) "Enter your BIP39 seed phrase" true with
    | Err e => mret (Err (fmt_Errorf "failed to request seed phrase" e))
    | Ok mnemonic =>
      let mnemonic := TrimSpace mnemonic in
      if negb (IsMnemonicValid mnemonic) then
        mret (Err (errors_New "invalid BIP39 mnemonic"))
      else
        _ ← log (EvDerive mnemonic);
        match deriveX25519FromMnemonic mnemonic with
        | Err e => mret (Err (fmt_Errorf "key derivation failed" e))
        | Ok (derivedPriv, derivedPub) =>
          if negb (bytesEqual derivedPub (publicKey si)) then
            mret (Err (errors_New "seed phrase does not match this identity"))
          else
            _ ← cacheKey cacheKeyName derivedPriv;
            mret (Ok derivedPriv)
        end
    end
  end.

Definition is_cache_read (e : event) : bool :=
  match e with EvKeyctlSearch _ | EvKeyctlRead _ => true | _ => false end.

Definition is_cache_write (e : event) : bool :=
  match e with EvAddKey _ _ | EvSetTimeout _ _ => true | _ => false end.

Definition is_unwrap_attempt (e : event) : bool :=
  match e with EvUnwrapX25519 _ => true | _ => false end.

End Program.

Arguments Done {L A} a w.
Arguments Panic {L A} msg w.

(** ** The handlers registered by [main], and further notions *)

Section Handlers.
Context `{L : Library}.

(** The function [main] passes to [p.HandleIdentity]. *)
Definition main_HandleIdentity (p : Plugin) (data : bytes) : Result Bip39Identity :=
  if negb (length data =? 32) then
    Err (errors_New ("invalid identity data length: " +:+ pretty (length data)))
  else Ok {| plugin := p; publicKey := data |}.

(** The function [main] passes to [p.HandleIdentityAsRecipient]. *)
Definition main_HandleIdentityAsRecipient (data : bytes) : Result Bip39Recipient :=
  if negb (length data =? 32) then
    Err (errors_New ("invalid identity data length: " +:+ pretty (length data)))
  else Ok {| recipientPublicKey := data |}.

(** The number a byte string denotes as a little-endian integer, as X25519
    reads its scalar. *)
Fixpoint little_endian (b : bytes) : Z :=
  match b with
  | [] => 0
  | x :: b' => x + 256 * little_endian b'
  end.

Definition is_keyctl (e : event) : bool :=
  match e with
  | EvKeyctlSearch _ | EvKeyctlRead _ | EvAddKey _ _ | EvSetTimeout _ _ => true
  | _ => false
  end.

Definition is_prompt (e : event) : bool :=
  match e with EvRequestValue _ _ => true | _ => false end.

Definition is_derivation (e : event) : bool :=
  match e with EvDerive _ => true | _ => false end.

(** The key store accepts [payload] under [name] and returns it: [add_key]
    and the setting of the timeout succeed or fail as they may, and the
    search and the read that follow find the payload. *)
Definition store_keeps (kr : Keyring) (name : string) (payload : bytes)
  (seconds : Z) : Prop :=
  ∃ kr1 id kr2 r id',
    AddKey kr "user" name payload KEY_SPEC_USER_KEYRING = (kr1, Ok id) ∧
    KeyctlInt kr1 KEYCTL_SET_TIMEOUT id seconds 0 0 = (kr2, r) ∧
    KeyctlSearch kr2 KEY_SPEC_USER_KEYRING "user" name 0 = Ok id' ∧
    KeyctlBuffer kr2 KEYCTL_READ id' 256 0 =
      (Z.of_nat (length payload), None, payload).

End Handlers.

(** ** A reference library

    A small executable instance of [Library], on which the program can be
    run and the hypotheses of the properties can be checked.  Its encodings
    (base64, hexadecimal) are the real ones; its cryptography is a stand-in
    with the same interfaces and laws: X25519 is scalar multiplication in the
    additive group of integers modulo [2^255 - 19], hashes are a polynomial
    digest, the AEAD is a keystream with a 16-byte tag; phrases are words of
    two hexadecimal digits with a checksum word; the key store is a finite
    map from serial numbers to keys. *)

Module Ref.

Local Open Scope Z_scope.

(** Little-endian numbers. *)
Fixpoint le_encode (n : nat) (x : Z) : bytes :=
  match n with
  | O => []
  | S n' => x mod 256 :: le_encode n' (x / 256)
  end.

Fixpoint le_decode (b : bytes) : Z :=
  match b with
  | [] => 0
  | x :: b' => x + 256 * le_decode b'
  end.

(** A polynomial digest of [n] bytes. *)
Definition absorb (acc b : Z) : Z := (acc * 257 + b + 1) mod 2 ^ 512.

Definition digest (n : nat) (m : bytes) : bytes :=
  le_encode n (fold_left absorb m 5381).

Definition Sum512 (m : bytes) : vec Z 64 :=
  let d := digest 64 m in fun_to_vec (λ i, d !!! fin_to_nat i).

(** X25519 in the additive group modulo [q], with the clamping of the
    scalar, the masking of the point and the rejection of a zero result. *)
Definition q : Z := 2 ^ 255 - 19.

Definition scalar (k : bytes) : Z := 2 ^ 254 + 8 * ((le_decode k mod 2 ^ 254) / 8).

Definition point (p : bytes) : Z := le_decode p mod 2 ^ 255.

Definition X25519 (k p : bytes) : Result bytes :=
  if negb (length k =? 32)%nat then Err (errors_New "bad scalar length")
  else if negb (length p =? 32)%nat then Err (errors_New "bad point length")
  else
    let r := (scalar k * point p) mod q in
    if r =? 0 then Err (errors_New "bad input point: low order point")
    else Ok (le_encode 32 r).

Definition Basepoint : bytes := le_encode 32 9.

(** The random source is the list of bytes it will deliver. *)
Definition GenerateKey (rand : bytes) : Result ecdh_PrivateKey :=
  if (length rand <? 32)%nat then Err (errors_New "unexpected EOF")
  else
    let key := take 32 rand in
    match X25519 key Basepoint with
    | Err e => Err e
    | Ok pub => Ok {| Bytes := key; PublicKey_Bytes := pub |}
    end.

Definition hkdf_ReadFull (secret salt info : bytes) (n : nat) : Result bytes :=
  if (255 * 32 <? n)%nat then Err (errors_New "hkdf: entropy limit reached")
  else Ok (digest n (secret ++ 256 :: salt ++ 256 :: info)).

(** AEAD: the plaintext xored with a keystream, followed by a 16-byte tag
    over key, nonce, associated data and ciphertext. *)
Definition keystream (key nonce : bytes) (n : nat) : bytes :=
  digest n (key ++ 256 :: nonce).

Definition tag (key nonce ciphertext ad : bytes) : bytes :=
  digest 16 (key ++ 256 :: nonce ++ 256 :: ad ++ 256 :: ciphertext).

Definition aead_Seal (key nonce plaintext ad : bytes) : bytes :=
  let ciphertext := zip_with Z.lxor plaintext (keystream key nonce (length plaintext)) in
  ciphertext ++ tag key nonce ciphertext ad.

Definition aead_Open (key nonce sealed ad : bytes) : Result bytes :=
  if (length sealed <? 16)%nat then
    Err (errors_New "chacha20poly1305: message authentication failed")
  else
    let n := (length sealed - 16)%nat in
    let ciphertext := take n sealed in
    if bool_decide (drop n sealed = tag key nonce ciphertext ad) then
      Ok (zip_with Z.lxor ciphertext (keystream key nonce n))
    else Err (errors_New "chacha20poly1305: message authentication failed").

(** Base64, standard alphabet, no padding, strict: the unused bits of the
    last character must be zero; CR and LF are ignored. *)
Definition b64_alphabet : list ascii :=
  list_ascii_of_string
    "ABCDEFGHIJKLMNOPQRSTUVWXYZabcdefghijklmnopqrstuvwxyz0123456789+/".

Definition b64_char (n : Z) : ascii := nth (Z.to_nat n) b64_alphabet "="%char.

Fixpoint index_of (c : ascii) (l : list ascii) (i : Z) : option Z :=
  match l with
  | [] => None
  | c' :: l' => if Ascii.eqb c c' then Some i else index_of c l' (i + 1)
  end.

Definition b64_index (c : ascii) : option Z := index_of c b64_alphabet 0.

Fixpoint b64_encode (b : bytes) : list ascii :=
  match b with
  | [] => []
  | [x] => [b64_char (x / 4); b64_char (x mod 4 * 16)]
  | [x; y] =>
    [b64_char (x / 4); b64_char (x mod 4 * 16 + y / 16); b64_char (y mod 16 * 4)]
  | x :: y :: z :: rest =>
    b64_char (x / 4) :: b64_char (x mod 4 * 16 + y / 16)
      :: b64_char (y mod 16 * 4 + z / 64) :: b64_char (z mod 64)
      :: b64_encode rest
  end.

Definition b64_error : error := errors_New "illegal base64 data".

Fixpoint b64_decode (s : list (option Z)) : Result bytes :=
  match s with
  | [] => Ok []
  | [Some a; Some b] =>
    if b mod 16 =? 0 then Ok [a * 4 + b / 16] else Err b64_error
  | [Some a; Some b; Some c] =>
    if c mod 4 =? 0 then Ok [a * 4 + b / 16; b mod 16 * 16 + c / 4]
    else Err b64_error
  | Some a :: Some b :: Some c :: Some d :: rest =>
    match b64_decode rest with
    | Ok out => Ok (a * 4 + b / 16 :: b mod 16 * 16 + c / 4 :: c mod 4 * 64 + d :: out)
    | Err e => Err e
    end
  | _ => Err b64_error
  end.

Definition is_newline (c : ascii) : bool :=
  Ascii.eqb c "010"%char || Ascii.eqb c "013"%char.

Definition b64_EncodeToString (b : bytes) : string :=
  string_of_list_ascii (b64_encode b).

Definition b64_DecodeString (s : string) : Result bytes :=
  b64_decode
    (b64_index <$> List.filter (λ c, negb (is_newline c)) (list_ascii_of_string s)).

(** Hexadecimal: [%x] prints lower case, [hex.DecodeString] reads both
    cases. *)
Definition hex_digits : list ascii := list_ascii_of_string "0123456789abcdef".

Definition hex_char (n : Z) : ascii := nth (Z.to_nat n) hex_digits "?"%char.

Definition hex_value (c : ascii) : option Z :=
  match index_of c hex_digits 0 with
  | Some v => Some v
  | None =>
    match index_of c (list_ascii_of_string "ABCDEF") 10 with
    | Some v => Some v
    | None => None
    end
  end.

Fixpoint hex_encode (b : bytes) : list ascii :=
  match b with
  | [] => []
  | x :: rest => hex_char (x / 16) :: hex_char (x mod 16) :: hex_encode rest
  end.

Fixpoint hex_decode (s : list ascii) : Result bytes :=
  match s with
  | [] => Ok []
  | [_] => Err (errors_New "encoding/hex: odd length hex string")
  | a :: b :: rest =>
    match hex_value a, hex_value b with
    | Some hi, Some lo =>
      match hex_decode rest with
      | Ok out => Ok (hi * 16 + lo :: out)
      | Err e => Err e
      end
    | _, _ => Err (errors_New "encoding/hex: invalid byte")
    end
  end.

Definition fmt_x (b : bytes) : string := string_of_list_ascii (hex_encode b).

Definition hex_DecodeString (s : string) : Result bytes :=
  hex_decode (list_ascii_of_string s).

(** [strings.TrimSpace] on ASCII text: tab, line feed, vertical tab, form
    feed, carriage return and space are removed from both ends. *)
Definition isSpace (c : ascii) : bool :=
  let n := byte_of_ascii c in (9 <=? n) && (n <=? 13) || (n =? 32).

Fixpoint trimLeft (s : string) : string :=
  match s with
  | EmptyString => EmptyString
  | String c s' => if isSpace c then trimLeft s' else s
  end.

Fixpoint trimRight (s : string) : string :=
  match s with
  | EmptyString => EmptyString
  | String c s' =>
    match trimRight s' with
    | EmptyString => if isSpace c then EmptyString else String c EmptyString
    | r => String c r
    end
  end.

Definition TrimSpace (s : string) : string := trimRight (trimLeft s).

(** [strings.Fields] on ASCII text. *)
Fixpoint fields_aux (s : string) (word : list ascii) : list string :=
  let flush (rest : list string) :=
    match word with
    | [] => rest
    | _ => string_of_list_ascii (rev word) :: rest
    end in
  match s with
  | EmptyString => flush []
  | String c s' =>
    if isSpace c then flush (fields_aux s' []) else fields_aux s' (c :: word)
  end.

Definition Fields (s : string) : list string := fields_aux s [].

(** Phrases: every word is a byte in two hexadecimal digits, the last word
    is a checksum of the bytes before it, and the entropy has 16, 20, 24, 28
    or 32 bytes. *)
Definition checksum (entropy : bytes) : Z := digest 1 entropy !!! 0%nat.

Fixpoint word_bytes (words : list string) : option bytes :=
  match words with
  | [] => Some []
  | wd :: rest =>
    match list_ascii_of_string wd, word_bytes rest with
    | [a; b], Some out =>
      match hex_value a, hex_value b with
      | Some hi, Some lo => Some (hi * 16 + lo :: out)
      | _, _ => None
      end
    | _, _ => None
    end
  end.

Definition EntropyFromMnemonic (mnemonic : string) : Result bytes :=
  match word_bytes (Fields mnemonic) with
  | None => Err (errors_New "Invalid mnenomic")
  | Some b =>
    let n := (length b - 1)%nat in
    let entropy := take n b in
    if bool_decide (n ∈ [16; 20; 24; 28; 32]%nat) then
      if bool_decide (drop n b = [checksum entropy]) then Ok entropy
      else Err (errors_New "Checksum incorrect")
    else Err (errors_New "Invalid mnenomic")
  end.

Definition IsMnemonicValid (mnemonic : string) : bool :=
  is_Ok (EntropyFromMnemonic mnemonic).

(** Text encodings of the public key (stand-ins for Bech32). *)
Definition ecdh_NewPublicKey (b : bytes) : Result bytes :=
  if (length b =? 32)%nat then Ok b
  else Err (errors_New "crypto/ecdh: invalid public key").

Definition EncodeX25519Recipient (pk : bytes) : Result string :=
  Ok ("age1" +:+ fmt_x pk).

Definition EncodeIdentity (name : string) (data : bytes) : string :=
  "AGE-PLUGIN-" +:+ name +:+ "-1" +:+ fmt_x data.

(** [time.ParseDuration] for a decimal number followed by one of the units
    ns, us, ms, s, m, h, and for "0". *)
Fixpoint digits_value (s : string) (acc : Z) : Z * string :=
  match s with
  | String c s' =>
    let n := byte_of_ascii c in
    if (48 <=? n) && (n <=? 57) then digits_value s' (acc * 10 + (n - 48))
    else (acc, s)
  | EmptyString => (acc, s)
  end.

Definition unit_ns (u : string) : option Z :=
  if String.eqb u "ns" then Some 1
  else if String.eqb u "us" then Some 1000
  else if String.eqb u "ms" then Some 1000000
  else if String.eqb u "s" then Some 1000000000
  else if String.eqb u "m" then Some (60 * 1000000000)
  else if String.eqb u "h" then Some (3600 * 1000000000)
  else None.

Definition ParseDuration (s : string) : Result Z :=
  if String.eqb s "0" then Ok 0
  else
    let '(v, rest) := digits_value s 0 in
    if String.eqb rest s then Err (errors_New "time: invalid duration")
    else
      match unit_ns rest with
      | Some u =>
        if v * u <? 2 ^ 63 then Ok (v * u)
        else Err (errors_New "time: invalid duration")
      | None => Err (errors_New "time: unknown unit in duration")
      end.

Definition Duration_Seconds (d : Z) : Z := d ÷ 1000000000.

(** The key store: keys by serial number, with description, payload and
    timeout in seconds. *)
Record Key := mkKey {
  description : string;
  payload : bytes;
  timeout : option Z;
}.

Record Keyring := mkKeyring {
  keys : gmap Z Key;
  next_serial : Z;
}.

Definition ENOKEY : error := errors_New "required key not available".

Definition find_key (kr : Keyring) (desc : string) : option Z :=
  fst <$> List.find (λ e, String.eqb (description (snd e)) desc)
                    (map_to_list (keys kr)).

Definition KeyctlSearch (kr : Keyring) (ringid : Z) (typ desc : string) (dest : Z)
  : Result Z :=
  match find_key kr desc with
  | Some id => Ok id
  | None => Err ENOKEY
  end.

(** KEYCTL_READ returns the size of the payload, and stores the payload when
    the buffer can hold it. *)
Definition KeyctlBuffer (kr : Keyring) (cmd id : Z) (buflen : nat) (arg5 : Z)
  : Z * option error * bytes :=
  match keys kr !! id with
  | None => (-1, Some ENOKEY, [])
  | Some k =>
    let n := length (payload k) in
    (Z.of_nat n, None, if (n <=? buflen)%nat then payload k else [])
  end.

(** [add_key] updates the key of that description or creates one. *)
Definition AddKey (kr : Keyring) (typ desc : string) (data : bytes) (ringid : Z)
  : Keyring * Result Z :=
  match find_key kr desc with
  | Some id =>
    ({| keys := <[id := mkKey desc data None]> (keys kr);
        next_serial := next_serial kr |}, Ok id)
  | None =>
    let id := next_serial kr in
    ({| keys := <[id := mkKey desc data None]> (keys kr);
        next_serial := id + 1 |}, Ok id)
  end.

Definition KeyctlInt (kr : Keyring) (cmd id arg3 arg4 arg5 : Z)
  : Keyring * Result Z :=
  match keys kr !! id with
  | None => (kr, Err ENOKEY)
  | Some k =>
    ({| keys := <[id := mkKey (description k) (payload k) (Some arg3)]> (keys kr);
        next_serial := next_serial kr |}, Ok 0)
  end.

End Ref.

Definition ref_library : Library := {|
  Sum512 := Ref.Sum512;
  X25519 := Ref.X25519;
  Basepoint := Ref.Basepoint;
  RandReader := bytes;
  GenerateKey := Ref.GenerateKey;
  hkdf_ReadFull := Ref.hkdf_ReadFull;
  aead_Seal := Ref.aead_Seal;
  aead_Open := Ref.aead_Open;
  b64_EncodeToString := Ref.b64_EncodeToString;
  b64_DecodeString := Ref.b64_DecodeString;
  hex_DecodeString := Ref.hex_DecodeString;
  fmt_x := Ref.fmt_x;
  TrimSpace := Ref.TrimSpace;
  ecdh_NewPublicKey := Ref.ecdh_NewPublicKey;
  EncodeX25519Recipient := Ref.EncodeX25519Recipient;
  EncodeIdentity := Ref.EncodeIdentity;
  IsMnemonicValid := Ref.IsMnemonicValid;
  EntropyFromMnemonic := Ref.EntropyFromMnemonic;
  ParseDuration := Ref.ParseDuration;
  Duration_Seconds := Ref.Duration_Seconds;
  Keyring := Ref.Keyring;
  KeyctlSearch := Ref.KeyctlSearch;
  KeyctlBuffer := Ref.KeyctlBuffer;
  AddKey := Ref.AddKey;
  KeyctlInt := Ref.KeyctlInt;
|}.

(** ** Example inputs

    Two phrases, the key pair derived from the first, a wrapped file key and
    some worlds, on which the program is run with the reference library. *)

Module Example.

(** 32 zero bytes of entropy and the checksum word. *)
Definition mnemonic : string :=
  "00 00 00 00 00 00 00 00 00 00 00 00 00 00 00 00 00 00 00 00 00 00 00 00 00 00 00 00 00 00 00 00 25".

(** The same words, separated differently. *)
Definition mnemonic_spaced : string :=
  "00 00 00 00 00 00 00 00 00 00 00 00 00 00 00 00  00 00 00 00 00 00 00 00 00 00 00 00 00 00 00 00 25".

(** The phrase as a user may type it. *)
Definition mnemonic_typed : string :=
  Eval vm_compute in
    ("  " +:+ mnemonic +:+ String "010"%char EmptyString)%string.

(** Another valid phrase. *)
Definition other_mnemonic : string :=
  "01 01 01 01 01 01 01 01 01 01 01 01 01 01 01 01 01 01 01 01 01 01 01 01 01 01 01 01 01 01 01 01 45".

Definition entropy : bytes := replicate 32 0%Z.

Definition other_priv : bytes :=
  Eval vm_compute in
    match deriveX25519FromMnemonic (L := ref_library) other_mnemonic with
    | Ok (s, _) => s
    | Err _ => []
    end.

Definition other_pub : bytes :=
  Eval vm_compute in
    match deriveX25519FromMnemonic (L := ref_library) other_mnemonic with
    | Ok (_, R) => R
    | Err _ => []
    end.

Definition priv : bytes :=
  Eval vm_compute in
    match deriveX25519FromMnemonic (L := ref_library) mnemonic with
    | Ok (s, _) => s
    | Err _ => []
    end.

Definition pub : bytes :=
  Eval vm_compute in
    match deriveX25519FromMnemonic (L := ref_library) mnemonic with
    | Ok (_, R) => R
    | Err _ => []
    end.

Definition rand : bytes := Eval vm_compute in seqZ 1 32.

Definition fileKey : bytes :=
  Eval vm_compute in bytes_of_string "file-key-bytes!!".

Definition now : string := "2026-01-01T00:00:00Z".

Definition stanzas : list Stanza :=
  Eval vm_compute in
    match wrapX25519 (L := ref_library) rand pub fileKey with
    | Ok l => l
    | Err _ => []
    end.

(** A stanza for another kind of recipient, and one whose argument is not
    base64. *)
Definition scrypt_stanza : Stanza :=
  {| Type_ := "scrypt"; Args := ["c2FsdA"; "18"]; Body := [1; 2; 3]%Z |}.

Definition malformed_stanza : Stanza :=
  {| Type_ := "X25519"; Args := ["not base64!"]; Body := [1; 2; 3]%Z |}.

(** A host that answers every prompt with [answer]. *)
Definition host (answer : string) : Plugin :=
  {| RequestValue := λ _ _, Ok answer |}.

Definition identity (answer : string) : Bip39Identity :=
  {| plugin := host answer; publicKey := pub |}.

Definition cacheKeyName : string :=
  Eval vm_compute in ("age-plugin-bip39:" +:+ Ref.fmt_x pub)%string.

(** No configuration, an empty key store. *)
Definition world : World (L := ref_library) :=
  @mkWorld ref_library ∅ (Ref.mkKeyring ∅ 1) [].

(** Caching disabled. *)
Definition world_no_cache : World (L := ref_library) :=
  @mkWorld ref_library {[ "AGE_PLUGIN_BIP39_CACHE" := "0" ]}
    (Ref.mkKeyring ∅ 1) [].

(** The key store holds, under the name of the identity, a key whose payload
    is 300 characters long. *)
Definition world_oversized : World (L := ref_library) :=
  @mkWorld ref_library ∅
    (Ref.mkKeyring {[ 1%Z := Ref.mkKey cacheKeyName (replicate 300 48%Z) None ]} 2)
    [].

End Example.

(** ** Further example inputs *)

Module ExampleMore.

(** What [cacheKey] stores for the example identity. *)
Definition payload : bytes :=
  Eval vm_compute in bytes_of_string (Ref.fmt_x Example.priv).

(** The key store after the private key was cached for 10 minutes. *)
Definition world_cached : World (L := ref_library) :=
  @mkWorld ref_library ∅
    (Ref.mkKeyring {[ 1%Z := Ref.mkKey Example.cacheKeyName payload (Some 600%Z) ]} 2)
    [].

(** A host that cannot return a phrase. *)
Definition failing_host : Plugin :=
  {| RequestValue := λ _ _, Err (errors_New "plugin: request failed") |}.

Definition ten_minutes : Z := Eval vm_compute in (10 * Minute)%Z.

(** The stanza that [wrapX25519] made for the example identity. *)
Definition wrapped : Stanza :=
  Eval vm_compute in default Example.malformed_stanza (head Example.stanzas).

End ExampleMore.

(** ** The word grid of the interactive key generation (wordgrid.go)

    The model of the grid, its navigation and its two phases.  Rendering
    ([View], [renderGridBox], [renderButtons], the styles of the inputs) is
    left out.  What the Bubble Tea and Bubbles libraries, [strings],
    crypto/rand and go-bip39 do is in the class [UILibrary] and in the
    random source [Rand]. *)

Definition gridCols : Z := 3.
Definition gridRows : Z := 8.
Definition gridTotal : Z := gridCols * gridRows.

Inductive gridPhase : Type := phaseInput | phaseVerify.

(** [tea.KeyMsg] by its [Type]; [KeyOther] stands for every other key
    (runes, backspace, ...). *)
Inductive KeyType : Type :=
| KeyCtrlC | KeyEsc | KeyTab | KeyShiftTab
| KeyUp | KeyDown | KeyLeft | KeyRight | KeyEnter
| KeyOther (code : Z) (runes : string).

(** [tea.Msg]: a key, or any other message (cursor blink, window size). *)
Inductive Msg : Type :=
| KeyMsg (key : KeyType)
| OtherMsg (tag : Z).

#[export] Instance KeyType_eq_dec : EqDecision KeyType.
Proof. solve_decision. Defined.

#[export] Instance Msg_eq_dec : EqDecision Msg.
Proof. solve_decision. Defined.

(** [textinput.Model] by what the grid reads and writes of it. *)
Record textinput := mkInput {
  Value : string;
  Placeholder : string;
  Focus : bool;
}.

(** [tea.Cmd]: none, [tea.Quit], the batch of [focusCmd], or the command an
    input returned from its own [Update]. *)
Inductive Cmd (InputCmd : Type) : Type :=
| CmdNil
| CmdQuit
| CmdBatch
| CmdInput (c : InputCmd).
Arguments CmdNil {InputCmd}.
Arguments CmdQuit {InputCmd}.
Arguments CmdBatch {InputCmd}.
Arguments CmdInput {InputCmd} c.

Class UILibrary := {
  (** strings *)
  ToLower : string → string;
  Split : string → string → list string;
  (** go-bip39: [GetWordIndex] as [(int, bool)], and [NewMnemonic] *)
  GetWordIndex : string → option Z;
  NewMnemonic : bytes → Result string;
  (** bubbles/textinput: [Update] of an input *)
  InputCmd : Type;
  textinput_Update : textinput → Msg → textinput * InputCmd;
}.

(** [strings.Join] *)
Definition Join (elems : list string) (sep : string) : string :=
  String.concat sep elems.

(** [err.Error()] *)
Fixpoint Error (e : error) : string :=
  match e with
  | errors_New msg => msg
  | fmt_Errorf msg cause => msg +:+ ": " +:+ Error cause
  | ErrIncorrectIdentity => "incorrect identity for recipient block"
  end.

(** [sort.Ints] *)
Fixpoint sort_insert (x : Z) (l : list Z) : list Z :=
  match l with
  | [] => [x]
  | y :: l' => if (x <=? y)%Z then x :: l else y :: sort_insert x l'
  end.

Definition sort_Ints (l : list Z) : list Z := foldr sort_insert [] l.

(** The random source: the results of the coming calls of [rand.Int] and of
    [bip39.NewEntropy], in order. *)
Record Rand := mkRand {
  ints : list (Result Z);
  entropies : list (Result bytes);
}.

(** A step of the grid ends with a value, with a run-time panic, or is
    still waiting for the random source when the lists of [Rand] are
    used up. *)
Inductive Step (A : Type) : Type :=
| Next (a : A) (r : Rand)
| Crash (msg : string)
| Waiting.
Arguments Next {A} a r.
Arguments Crash {A} msg.
Arguments Waiting {A}.

Definition UI (A : Type) : Type := Rand → Step A.

#[export] Instance UI_ret : MRet UI := λ A a r, Next a r.

#[export] Instance UI_bind : MBind UI := λ A B f m r,
  match m r with
  | Next a r' => f a r'
  | Crash msg => Crash msg
  | Waiting => Waiting
  end.

Definition crash {A} (msg : string) : UI A := λ _, Crash msg.

(** [l[i]]: a panic unless [0 <= i < len(l)]. *)
Definition index {A} (l : list A) (i : Z) : UI A :=
  match (if (0 <=? i)%Z then l !! Z.to_nat i else None) with
  | Some x => mret x
  | None => crash "index out of range"
  end.

(** [l[i] = x] *)
Definition assign {A} (l : list A) (i : Z) (x : A) : UI (list A) :=
  _ ← index l i; mret (<[Z.to_nat i := x]> l).

(** [rand.Int(rand.Reader, big.NewInt(n))] *)
Definition rand_Int (n : Z) : UI (Result Z) := λ r,
  if (n <=? 0)%Z then Crash "crypto/rand: argument to Int is <= 0"
  else
    match ints r with
    | [] => Waiting
    | d :: rest => Next d {| ints := rest; entropies := entropies r |}
    end.

(** [bip39.NewEntropy(256)] *)
Definition NewEntropy : UI (Result bytes) := λ r,
  match entropies r with
  | [] => Waiting
  | e :: rest => Next e {| ints := ints r; entropies := rest |}
  end.

(** The loop of [pickTwoRandomPositions], over the coming results of
    [rand.Int]. *)
Fixpoint pick_second (idx1 : Z) (draws : list (Result Z)) (r : Rand)
  : Step (Result (Z * Z)) :=
  match draws with
  | [] => Waiting
  | Err e :: rest =>
    Next (Err (fmt_Errorf "failed to generate random index" e))
         {| ints := rest; entropies := entropies r |}
  | Ok idx2 :: rest =>
    if negb (idx2 =? idx1)%Z then
      Next (Ok (idx1, idx2)) {| ints := rest; entropies := entropies r |}
    else pick_second idx1 rest r
  end.

Definition pickTwoRandomPositions (n : Z) : UI (Result (Z * Z)) :=
  mbind (M := UI) (λ r1 : Result Z,
    match r1 with
    | Err e => mret (Err (fmt_Errorf "failed to generate random index" e))
    | Ok idx1 => (λ r, pick_second idx1 (ints r) r) : UI (Result (Z * Z))
    end) (rand_Int n).

Record wordGridModel := mkGrid {
  inputs : list textinput;
  focused : Z;
  lastGridFocus : Z;
  phase : gridPhase;
  generated : list string;
  verifyPos : list Z;
  editIdx : Z;
  done : bool;
  aborted : bool;
  err : string;
}.

Definition set_inputs (x : list textinput) (m : wordGridModel) : wordGridModel :=
  mkGrid x (focused m) (lastGridFocus m) (phase m) (generated m) (verifyPos m)
    (editIdx m) (done m) (aborted m) (err m).
Definition set_focused (x : Z) (m : wordGridModel) : wordGridModel :=
  mkGrid (inputs m) x (lastGridFocus m) (phase m) (generated m) (verifyPos m)
    (editIdx m) (done m) (aborted m) (err m).
Definition set_lastGridFocus (x : Z) (m : wordGridModel) : wordGridModel :=
  mkGrid (inputs m) (focused m) x (phase m) (generated m) (verifyPos m)
    (editIdx m) (done m) (aborted m) (err m).
Definition set_phase (x : gridPhase) (m : wordGridModel) : wordGridModel :=
  mkGrid (inputs m) (focused m) (lastGridFocus m) x (generated m) (verifyPos m)
    (editIdx m) (done m) (aborted m) (err m).
Definition set_generated (x : list string) (m : wordGridModel) : wordGridModel :=
  mkGrid (inputs m) (focused m) (lastGridFocus m) (phase m) x (verifyPos m)
    (editIdx m) (done m) (aborted m) (err m).
Definition set_verifyPos (x : list Z) (m : wordGridModel) : wordGridModel :=
  mkGrid (inputs m) (focused m) (lastGridFocus m) (phase m) (generated m) x
    (editIdx m) (done m) (aborted m) (err m).
Definition set_editIdx (x : Z) (m : wordGridModel) : wordGridModel :=
  mkGrid (inputs m) (focused m) (lastGridFocus m) (phase m) (generated m)
    (verifyPos m) x (done m) (aborted m) (err m).
Definition set_done (x : bool) (m : wordGridModel) : wordGridModel :=
  mkGrid (inputs m) (focused m) (lastGridFocus m) (phase m) (generated m)
    (verifyPos m) (editIdx m) x (aborted m) (err m).
Definition set_aborted (x : bool) (m : wordGridModel) : wordGridModel :=
  mkGrid (inputs m) (focused m) (lastGridFocus m) (phase m) (generated m)
    (verifyPos m) (editIdx m) (done m) x (err m).
Definition set_err (x : string) (m : wordGridModel) : wordGridModel :=
  mkGrid (inputs m) (focused m) (lastGridFocus m) (phase m) (generated m)
    (verifyPos m) (editIdx m) (done m) (aborted m) x.

Definition SetValue (s : string) (t : textinput) : textinput :=
  mkInput s (Placeholder t) (Focus t).
Definition set_Placeholder (s : string) (t : textinput) : textinput :=
  mkInput (Value t) s (Focus t).
Definition set_Focus (b : bool) (t : textinput) : textinput :=
  mkInput (Value t) (Placeholder t) b.

Definition is_phaseVerify (p : gridPhase) : bool :=
  match p with phaseVerify => true | phaseInput => false end.
Definition is_phaseInput (p : gridPhase) : bool :=
  match p with phaseInput => true | phaseVerify => false end.

Definition len {A} (l : list A) : Z := Z.of_nat (length l).

Section WordGrid.
Context `{L : Library} `{U : UILibrary}.

Definition newWordGridModel (generated : list string) : wordGridModel :=
  let inputs :=
    imap (λ i _, mkInput "" (default "" (generated !! i)) (bool_decide (i = 0)))
         (replicate (Z.to_nat gridTotal) ()) in
  mkGrid inputs 0 0 phaseInput generated [] 0 false false "".

(** The loop of [effectiveWords]: [i] is the index of the first of
    [inputs]; the assignment [words[i] = ...] panics beyond [len(words)]. *)
Fixpoint effectiveWords_loop (i : nat) (inputs : list textinput)
  (generated words : list string) : option (list string) :=
  match inputs with
  | [] => Some words
  | input :: rest =>
    let v := TrimSpace (Value input) in
    if negb (v =? "")%string then
      if (i <? length words)%nat then
        effectiveWords_loop (S i) rest generated (<[i := ToLower v]> words)
      else None
    else
      match generated !! i with
      | Some g =>
        if (i <? length words)%nat then
          effectiveWords_loop (S i) rest generated (<[i := g]> words)
        else None
      | None => effectiveWords_loop (S i) rest generated words
      end
  end.

(** [None] is the panic of an assignment out of range. *)
Definition effectiveWords (m : wordGridModel) : option (list string) :=
  effectiveWords_loop 0 (inputs m) (generated m)
    (replicate (Z.to_nat gridTotal) ""%string).

Definition mnemonic (m : wordGridModel) : option string :=
  words ← effectiveWords m;
  Some (Join (List.filter (λ w, negb (w =? "")%string) words) " ").

Definition allUserProvided (m : wordGridModel) : bool :=
  forallb (λ input, negb (TrimSpace (Value input) =? "")%string) (inputs m).

Definition anyUserEdited (m : wordGridModel) : bool :=
  existsb (λ input, negb (TrimSpace (Value input) =? "")%string) (inputs m).

Definition allWordsValid (m : wordGridModel) : option bool :=
  words ← effectiveWords m;
  Some (forallb (λ w, negb (w =? "")%string && bool_decide (is_Some (GetWordIndex w)))
                words).

Definition isEditable (m : wordGridModel) (idx : Z) : bool :=
  if is_phaseInput (phase m) then true
  else existsb (λ p, (p =? idx)%Z) (verifyPos m).

Definition verifyItemCount (m : wordGridModel) : Z := len (verifyPos m) + 2.

Definition onBackButton (m : wordGridModel) : bool :=
  is_phaseVerify (phase m) && (editIdx m =? len (verifyPos m))%Z.

Definition onVerifyButton (m : wordGridModel) : bool :=
  is_phaseVerify (phase m) && (editIdx m =? len (verifyPos m) + 1)%Z.

Definition onRegenerateButton (m : wordGridModel) : bool :=
  is_phaseInput (phase m) && (focused m =? gridTotal)%Z.

Definition onContinueButton (m : wordGridModel) : bool :=
  is_phaseInput (phase m) && (focused m =? gridTotal + 1)%Z.

Definition inputItemCount (m : wordGridModel) : Z := gridTotal + 2.

Definition onButton (m : wordGridModel) : bool :=
  onBackButton m || onVerifyButton m || onRegenerateButton m || onContinueButton m.

Definition syncVerifyFocus (m : wordGridModel) : UI wordGridModel :=
  if (editIdx m <? len (verifyPos m))%Z then
    p ← index (verifyPos m) (editIdx m);
    mret (set_focused p m)
  else mret (set_focused (-1) m).

(** [focusCmd]: the input under the focus gets it, the others lose it. *)
Definition focusCmd (m : wordGridModel) : wordGridModel * Cmd InputCmd :=
  (set_inputs
     (imap (λ i t, set_Focus (bool_decide (Z.of_nat i = focused m)) t) (inputs m)) m,
   CmdBatch).

(** The end of [Update]: the message goes to the input under the focus. *)
Definition forward (m : wordGridModel) (msg : Msg) : UI (wordGridModel * Cmd InputCmd) :=
  if (0 <=? focused m)%Z && (focused m <? gridTotal)%Z then
    let m := match msg with KeyMsg _ => set_err "" m | OtherMsg _ => m end in
    input ← index (inputs m) (focused m);
    let '(input', cmd) := textinput_Update input msg in
    mret (set_inputs (<[Z.to_nat (focused m) := input']> (inputs m)) m, CmdInput cmd)
  else mret (m, CmdNil).

Definition regenerate (m : wordGridModel) : UI (wordGridModel * Cmd InputCmd) :=
  entropy ← NewEntropy;
  match entropy with
  | Err e => mret (set_err ("failed to generate entropy: " +:+ Error e) m, CmdNil)
  | Ok entropy =>
    match NewMnemonic entropy with
    | Err e => mret (set_err ("failed to generate mnemonic: " +:+ Error e) m, CmdNil)
    | Ok mnemonic =>
      let words := Split mnemonic " " in
      let m := set_generated words m in
      let m := set_inputs
                 (imap (λ i t, set_Placeholder (default "" (words !! i)) (SetValue "" t))
                       (inputs m)) m in
      let m := set_focused 0 m in
      let m := set_err "" m in
      mret (focusCmd m)
    end
  end.

(** The loops of [handleEnter] and [handleContinue] over the positions to
    verify. *)
Fixpoint restore_placeholders (positions : list Z) (m : wordGridModel)
  : UI wordGridModel :=
  match positions with
  | [] => mret m
  | pos :: rest =>
    input ← index (inputs m) pos;
    g ← index (generated m) pos;
    restore_placeholders rest
      (set_inputs (<[Z.to_nat pos := set_Placeholder g (SetValue "" input)]> (inputs m)) m)
  end.

Fixpoint clear_inputs (positions : list Z) (m : wordGridModel) : UI wordGridModel :=
  match positions with
  | [] => mret m
  | pos :: rest =>
    input ← index (inputs m) pos;
    clear_inputs rest
      (set_inputs (<[Z.to_nat pos := set_Placeholder "" (SetValue "" input)]> (inputs m)) m)
  end.

(** The position of the first word that does not match, if any. *)
Fixpoint first_mismatch (positions : list Z) (m : wordGridModel) : UI (option Z) :=
  match positions with
  | [] => mret None
  | pos :: rest =>
    input ← index (inputs m) pos;
    let got := ToLower (TrimSpace (Value input)) in
    g ← index (generated m) pos;
    if negb (got =? g)%string then mret (Some pos) else first_mismatch rest m
  end.

Definition handleContinue (m : wordGridModel) : UI (wordGridModel * Cmd InputCmd) :=
  match allWordsValid m with
  | None => crash "index out of range"
  | Some false => mret (set_err "Some words are not valid BIP39 words." m, CmdNil)
  | Some true =>
    match mnemonic m with
    | None => crash "index out of range"
    | Some mn =>
      if anyUserEdited m then
        if negb (IsMnemonicValid mn) then
          mret (set_err
                  "Invalid BIP39 checksum — these words don't form a valid mnemonic."
                  m, CmdNil)
        else mret (set_done true m, CmdQuit)
      else
        picked ← pickTwoRandomPositions (len (generated m));
        match picked with
        | Err e => mret (set_err (Error e) m, CmdNil)
        | Ok (pos1, pos2) =>
          let editable := sort_Ints [pos1; pos2] in
          let m := set_phase phaseVerify m in
          let m := set_verifyPos editable m in
          let m := set_editIdx 0 m in
          first ← index editable 0;
          let m := set_focused first m in
          let m := set_err "" m in
          m ← clear_inputs editable m;
          mret (focusCmd m)
        end
    end
  end.

Definition handleEnter (m : wordGridModel) : UI (wordGridModel * Cmd InputCmd) :=
  if is_phaseInput (phase m) then
    if onRegenerateButton m then regenerate m
    else if onContinueButton m then handleContinue m
    else
      let m := set_lastGridFocus (focused m) m in
      let m := set_focused (gridTotal + 1) m in
      mret (focusCmd m)
  else if onBackButton m then
    m' ← restore_placeholders (verifyPos m) m;
    let m' := set_phase phaseInput m' in
    let m' := set_verifyPos [] m' in
    let m' := set_editIdx 0 m' in
    let m' := set_focused 0 m' in
    let m' := set_err "" m' in
    mret (focusCmd m')
  else if onVerifyButton m then
    bad ← first_mismatch (verifyPos m) m;
    match bad with
    | Some pos =>
      mret (set_err ("Word #" +:+ pretty (pos + 1)%Z +:+ " is incorrect — try again.") m,
            CmdNil)
    | None => mret (set_done true m, CmdQuit)
    end
  else
    m' ← syncVerifyFocus (set_editIdx (len (verifyPos m) + 1) m);
    mret (focusCmd m').

Definition Update (m : wordGridModel) (msg : Msg) : UI (wordGridModel * Cmd InputCmd) :=
  match msg with
  | KeyMsg KeyCtrlC | KeyMsg KeyEsc => mret (set_aborted true m, CmdQuit)
  | KeyMsg KeyTab =>
    m' ← (if is_phaseVerify (phase m) then
            syncVerifyFocus (set_editIdx ((editIdx m + 1) `rem` verifyItemCount m) m)
          else if (0 <=? focused m)%Z && (focused m <? gridTotal)%Z then
            mret (set_focused gridTotal (set_lastGridFocus (focused m) m))
          else if (focused m =? gridTotal)%Z then
            mret (set_focused (gridTotal + 1) m)
          else mret (set_focused (lastGridFocus m) m));
    mret (focusCmd m')
  | KeyMsg KeyShiftTab =>
    m' ← (if is_phaseVerify (phase m) then
            syncVerifyFocus
              (set_editIdx ((editIdx m - 1 + verifyItemCount m) `rem` verifyItemCount m) m)
          else if (0 <=? focused m)%Z && (focused m <? gridTotal)%Z then
            mret (set_focused (gridTotal + 1) (set_lastGridFocus (focused m) m))
          else if (focused m =? gridTotal + 1)%Z then
            mret (set_focused gridTotal m)
          else mret (set_focused (lastGridFocus m) m));
    mret (focusCmd m')
  | KeyMsg KeyUp =>
    if is_phaseInput (phase m) && (0 <=? focused m)%Z && (focused m <? gridTotal)%Z
       && (0 <? focused m `rem` gridRows)%Z then
      mret (focusCmd (set_focused (focused m - 1) m))
    else forward m msg
  | KeyMsg KeyDown =>
    if is_phaseInput (phase m) && (0 <=? focused m)%Z && (focused m <? gridTotal)%Z
       && (focused m `rem` gridRows <? gridRows - 1)%Z then
      mret (focusCmd (set_focused (focused m + 1) m))
    else forward m msg
  | KeyMsg KeyLeft =>
    if is_phaseInput (phase m) && (gridRows <=? focused m)%Z
       && (focused m <? gridTotal)%Z then
      mret (focusCmd (set_focused (focused m - gridRows) m))
    else if onVerifyButton m then
      m' ← syncVerifyFocus (set_editIdx (editIdx m - 1) m);
      mret (focusCmd m')
    else forward m msg
  | KeyMsg KeyRight =>
    if is_phaseInput (phase m) && (0 <=? focused m)%Z
       && (focused m + gridRows <? gridTotal)%Z then
      mret (focusCmd (set_focused (focused m + gridRows) m))
    else if onBackButton m then
      m' ← syncVerifyFocus (set_editIdx (editIdx m + 1) m);
      mret (focusCmd m')
    else forward m msg
  | KeyMsg KeyEnter => handleEnter m
  | _ => forward m msg
  end.

(** [runWordGrid], given what [p.Run()] returned for the program started on
    the new model. *)
Definition runWordGrid (Run : wordGridModel → Result wordGridModel)
  (generated : list string) : option (Result string) :=
  match Run (newWordGridModel generated) with
  | Err e => Some (Err (fmt_Errorf "input failed" e))
  | Ok m =>
    if aborted m then Some (Err (errors_New "aborted"))
    else mn ← mnemonic m; Some (Ok mn)
  end.

End WordGrid.

(** ** Notions for the properties of the word grid *)

Section GridNotions.
Context `{L : Library} `{U : UILibrary}.

(** The word the phrase has at a cell: the text typed there, trimmed and in
    lower case, or the generated word when the cell is blank. *)
Definition word_at (generated : list string) (i : nat) (t : textinput) : string :=
  let v := TrimSpace (Value t) in
  if negb (v =? "")%string then ToLower v else default ""%string (generated !! i).

Definition blank (t : textinput) : Prop := TrimSpace (Value t) = ""%string.

(** A word of the phrase that [allWordsValid] lets through. *)
Definition word_ok (w : string) : Prop := w ≠ ""%string ∧ is_Some (GetWordIndex w).

(** The cell under the focus in the verify phase, for the two open cells
    and the item [editIdx] is on; -1 on a button. *)
Definition verify_focus (p1 p2 e : Z) : Z :=
  if (e =? 0)%Z then p1 else if (e =? 1)%Z then p2 else -1.

(** The shape of the model that [Update] keeps: 24 inputs and 24 generated
    words; in the input phase the focus is on a cell or on one of the two
    buttons; in the verify phase two cells in increasing order are open,
    [editIdx] is one of the four items, the focus follows it, the other
    cells are blank and the generated words are words of the word list. *)
Record grid_ok (m : wordGridModel) : Prop := mkGridOk {
  ok_inputs : length (inputs m) = Z.to_nat gridTotal;
  ok_generated : length (generated m) = Z.to_nat gridTotal;
  ok_last : (0 ≤ lastGridFocus m < gridTotal)%Z;
  ok_phase :
    match phase m with
    | phaseInput => (0 ≤ focused m ≤ gridTotal + 1)%Z
    | phaseVerify =>
      ∃ p1 p2, verifyPos m = [p1; p2] ∧ (0 ≤ p1 < p2)%Z ∧ (p2 < gridTotal)%Z ∧
        (0 ≤ editIdx m < 4)%Z ∧
        focused m = verify_focus p1 p2 (editIdx m) ∧
        Forall word_ok (generated m) ∧
        ∀ i t, inputs m !! i = Some t → Z.of_nat i ≠ p1 → Z.of_nat i ≠ p2 → blank t
    end;
}.

(** What the libraries promise of the random source: [rand.Int] with
    argument 24 gives a number from 0 to 23, [bip39.NewEntropy(256)] gives
    32 bytes. *)
Definition rand_ok (r : Rand) : Prop :=
  Forall (λ d, ∀ v, d = Ok v → (0 ≤ v < gridTotal)%Z) (ints r) ∧
  Forall (λ e, ∀ b, e = Ok b → length b = 32%nat) (entropies r).

(** The states of the program: Bubble Tea replaces the model by the one
    [Update] returns, until the command returned is [tea.Quit]. *)
Inductive runs (m0 : wordGridModel) (r0 : Rand) : wordGridModel → Rand → Prop :=
| runs_start : runs m0 r0 m0 r0
| runs_step m r msg m' c r' :
    runs m0 r0 m r →
    Update m msg r = Next (m', c) r' →
    c ≠ CmdQuit →
    runs m0 r0 m' r'.

(** The text of the cells. *)
Definition values (m : wordGridModel) : list string := Value <$> inputs m.

(** The generated words of [m'] are those of [m], or the words of a new
    mnemonic of 32 bytes of entropy. *)
Definition same_or_new_phrase (m m' : wordGridModel) : Prop :=
  generated m' = generated m ∨
  ∃ e s, length e = 32%nat ∧ NewMnemonic e = Ok s ∧ generated m' = Split s " ".

(** [m'] ends the program on an abort, or with a phrase of 24 words of
    the word list that passed [bip39.IsMnemonicValid] or is the generated
    one. *)
Definition accepted (m m' : wordGridModel) : Prop :=
  aborted m' = true ∨
  (done m' = true ∧ aborted m' = aborted m ∧
   ∃ ws, length ws = 24%nat ∧ Forall word_ok ws ∧
         mnemonic m' = Some (Join ws " ") ∧
         (IsMnemonicValid (Join ws " ") = true ∨ ws = generated m')).

(** [Update] over a list of messages, as long as the program goes on. *)
Fixpoint play (msgs : list Msg) (m : wordGridModel) (r : Rand)
  : option (wordGridModel * Rand) :=
  match msgs with
  | [] => Some (m, r)
  | msg :: rest =>
    match Update m msg r with
    | Next (m', c) r' =>
      match c with
      | CmdQuit => None
      | _ => play rest m' r'
      end
    | _ => None
    end
  end.

(** What a step of [Update] from a model in shape gives: no panic, a model
    in shape, the flags [done] and [aborted] untouched unless the program
    quits. *)
Definition step_ok (m : wordGridModel) (waits : bool)
  (res : Step (wordGridModel * Cmd InputCmd)) : Prop :=
  match res with
  | Next (m', c) r' =>
    grid_ok m' ∧ rand_ok r' ∧ same_or_new_phrase m m' ∧
    (c ≠ CmdQuit → done m' = done m ∧ aborted m' = aborted m) ∧
    (c = CmdQuit → accepted m m')
  | Crash _ => False
  | Waiting => waits = true
  end.

End GridNotions.

(** ** A reference library for the word grid

    Stand-ins on ASCII text, with the 256 bytes in two hexadecimal digits
    as the word list, for the examples. *)

Module RefUI.

Local Open Scope Z_scope.

(** [strings.ToLower] on ASCII text. *)
Definition lower (c : ascii) : ascii :=
  let n := byte_of_ascii c in
  if (65 <=? n) && (n <=? 90) then ascii_of_byte (n + 32) else c.

Fixpoint ToLower (s : string) : string :=
  match s with
  | EmptyString => EmptyString
  | String c s' => String (lower c) (ToLower s')
  end.

(** [strings.Split] for a separator of one character. *)
Fixpoint split_char (c : ascii) (s : string) : list string :=
  match s with
  | EmptyString => [EmptyString]
  | String a s' =>
    if Ascii.eqb a c then EmptyString :: split_char c s'
    else
      match split_char c s' with
      | w :: ws => String a w :: ws
      | [] => [String a EmptyString]
      end
  end.

Definition Split (s sep : string) : list string :=
  match sep with
  | String c EmptyString => split_char c s
  | _ => [s]
  end.

(** No character of [s] is [c]. *)
Fixpoint free (c : ascii) (s : string) : bool :=
  match s with
  | EmptyString => true
  | String a s' => negb (Ascii.eqb a c) && free c s'
  end.

(** The word list. *)
Definition byte_word (b : Z) : string := Ref.fmt_x [b].

Definition GetWordIndex (w : string) : option Z :=
  match Ref.hex_DecodeString w with
  | Ok [b] => if (byte_word b =? w)%string then Some b else None
  | _ => None
  end.

(** Three words for four bytes of entropy: the bytes of a digest. *)
Definition NewMnemonic (entropy : bytes) : Result string :=
  let n := length entropy in
  if bool_decide (n ∈ [16; 20; 24; 28; 32]%nat) then
    Ok (Join (byte_word <$> Ref.digest (n * 3 / 4) entropy) " ")
  else Err (errors_New "Entropy length must be [128, 256] and a multiple of 32").

(** An input under the focus appends the runes typed. *)
Definition textinput_Update (t : textinput) (msg : Msg) : textinput * unit :=
  match msg with
  | KeyMsg (KeyOther _ runes) =>
    if Focus t then (mkInput (Value t +:+ runes) (Placeholder t) (Focus t), ())
    else (t, ())
  | _ => (t, ())
  end.

End RefUI.

Definition ref_ui : UILibrary := {|
  ToLower := RefUI.ToLower;
  Split := RefUI.Split;
  GetWordIndex := RefUI.GetWordIndex;
  NewMnemonic := RefUI.NewMnemonic;
  InputCmd := unit;
  textinput_Update := RefUI.textinput_Update;
|}.

(** A session at the grid: Continue on the generated phrase, the two
    words asked for typed in, then Verify. *)
Module ExampleGrid.

Definition entropy : bytes := replicate 32 0%Z.

Definition generated : string :=
  Eval vm_compute in
    match RefUI.NewMnemonic entropy with Ok s => s | Err _ => ""%string end.

Definition words : list string := Eval vm_compute in RefUI.Split generated " ".

Definition other_entropy : bytes := replicate 32 1%Z.

Definition regenerated : string :=
  Eval vm_compute in
    match RefUI.NewMnemonic other_entropy with Ok s => s | Err _ => ""%string end.

(** [rand.Int] gives 5, 5 again, then 2. *)
Definition rand : Rand :=
  {| ints := [Ok 5%Z; Ok 5%Z; Ok 2%Z]; entropies := [Ok other_entropy] |}.

Definition type (w : string) : Msg := KeyMsg (KeyOther 0 w).

Definition word (i : nat) : string := default ""%string (words !! i).

Definition messages : list Msg :=
  [KeyMsg KeyTab; KeyMsg KeyTab; KeyMsg KeyEnter;
   type (" " +:+ word 2); KeyMsg KeyTab; type (word 5);
   KeyMsg KeyTab; KeyMsg KeyTab].

Definition start : wordGridModel := newWordGridModel words.

Definition on_verify : wordGridModel :=
  Eval vm_compute in
    match play (L := ref_library) (U := ref_ui) messages start rand with
    | Some (m, _) => m
    | None => start
    end.

Definition rand_left : Rand := {| ints := []; entropies := [Ok other_entropy] |}.

Definition verified : wordGridModel := set_done true on_verify.

(** The grid with the focus on Regenerate. *)
Definition on_regenerate : wordGridModel :=
  Eval vm_compute in
    match play (L := ref_library) (U := ref_ui) [type "zz"; KeyMsg KeyTab] start rand with
    | Some (m, _) => m
    | None => start
    end.

End ExampleGrid.

(** ** Properties *)

Section Properties.
Context `{L : Library}.

(** *** Lists of bytes *)

Lemma copy_same_length (dst src : bytes) :
  length src = length dst → copy dst src = src.
Proof.
  intros Hlen. unfold copy. rewrite Hlen, Nat.min_id.
  rewrite <- Hlen at 1. rewrite firstn_all.
  rewrite drop_ge by lia. apply app_nil_r.
Qed.

Lemma bytesEqual_loop_eq (a b : bytes) :
  length a = length b → bytesEqual_loop a b = true ↔ a = b.
Proof.
  revert b. induction a as [|x a IH]; intros [|y b] Hlen; simpl in *; try done.
  destruct (Z.eqb_spec x y) as [->|Hne]; simpl.
  - rewrite IH by lia. split; [by intros -> | by intros [= ->]].
  - split; [done | by intros [= ? ?]].
Qed.

Lemma bytesEqual_eq (a b : bytes) : bytesEqual a b = true ↔ a = b.
Proof.
  unfold bytesEqual. destruct (Nat.eqb_spec (length a) (length b)) as [Hlen|Hlen]; simpl.
  - by apply bytesEqual_loop_eq.
  - split; [done | by intros ->].
Qed.

(** *** Key derivation *)

(** C2. Whatever entropy the phrase encodes (32 bytes for a 24-word phrase),
    the private scalar is the first 32 bytes of the SHA-512 hash of the
    entropy with byte 0 ANDed with 248 and byte 31 ANDed with 127 and then
    ORed with 64, the other bytes unchanged; and the public key is the X25519
    scalar multiplication of that scalar with the base point (an error of the
    multiplication is the error of the derivation). *)
Theorem derive_clamps_sha512_prefix (mnemonic : string) (entropy : bytes) :
  EntropyFromMnemonic mnemonic = Ok entropy →
  ∃ priv,
    clamped (vec_to_list (Sum512 entropy)) priv ∧
    deriveX25519FromMnemonic mnemonic =
      match X25519 priv Basepoint with
      | Ok pub => Ok (priv, pub)
      | Err e => Err (fmt_Errorf "X25519 scalar multiplication failed" e)
      end.
Proof.
  intros Hent. unfold deriveX25519FromMnemonic. rewrite Hent.
  set (h := vec_to_list (Sum512 entropy)).
  assert (Hh : length h = 64) by apply length_vec_to_list.
  assert (Ht : length (take 32 h) = 32) by (rewrite length_take; lia).
  rewrite copy_same_length by (by rewrite length_replicate).
  eexists. split; [|reflexivity].
  repeat split.
  - by rewrite !length_insert.
  - rewrite list_lookup_total_insert_ne by lia.
    rewrite list_lookup_total_insert_ne by lia.
    rewrite list_lookup_total_insert_eq by lia.
    by rewrite lookup_total_take_lt by lia.
  - rewrite list_lookup_total_insert_eq by (rewrite !length_insert; lia).
    rewrite list_lookup_total_insert_eq by (rewrite !length_insert; lia).
    rewrite list_lookup_total_insert_ne by lia.
    by rewrite lookup_total_take_lt by lia.
  - intros i Hi.
    rewrite !list_lookup_total_insert_ne by lia.
    by rewrite lookup_total_take_lt by lia.
Qed.

(** C8. The key pair is a function of the entropy alone: two derivations from
    the same entropy return the same private and public key (or the same
    error).  The derivation reads nothing of the world: it is not in [M]. *)
Theorem derive_deterministic (mnemonic1 mnemonic2 : string) (entropy : bytes) :
  EntropyFromMnemonic mnemonic1 = Ok entropy →
  EntropyFromMnemonic mnemonic2 = Ok entropy →
  deriveX25519FromMnemonic mnemonic1 = deriveX25519FromMnemonic mnemonic2.
Proof.
  intros H1 H2. unfold deriveX25519FromMnemonic. by rewrite H1, H2.
Qed.

(** *** The monad *)

Lemma add_trace_nil (w : World) : add_trace [] w = w.
Proof. destruct w. unfold add_trace. simpl. by rewrite app_nil_r. Qed.

Lemma add_trace_app (evs1 evs2 : list event) (w : World) :
  add_trace evs2 (add_trace evs1 w) = add_trace (evs1 ++ evs2) w.
Proof. unfold add_trace. simpl. by rewrite app_assoc. Qed.

Lemma logged_add_trace (e : event) (w : World) : logged e w = add_trace [e] w.
Proof. reflexivity. Qed.

Lemma bind_Done {A B} (m : M A) (f : A → M B) (w w' : World) (a : A) :
  m w = Done a w' → (m ≫= f) w = f a w'.
Proof. intros H. unfold mbind, M_bind. by rewrite H. Qed.

Lemma bind_Panic {A B} (m : M A) (f : A → M B) (w w' : World) (msg : string) :
  m w = Panic msg w' → (m ≫= f) w = Panic msg w'.
Proof. intros H. unfold mbind, M_bind. by rewrite H. Qed.

(** *** Stanza codec *)

Lemma unwrapX25519_decrypts (sk pk : bytes) (st : Stanza) (k : bytes) :
  Type_ st = "X25519" →
  unwrapX25519 sk pk st = Ok k ↔ decrypts_to sk pk st k.
Proof.
  intros Hty. unfold unwrapX25519, decrypts_to. split.
  - intros H. split; [done|].
    destruct (Args st) as [|arg [|? ?]] eqn:Hargs; try done.
    destruct (b64_DecodeString arg) as [eph|] eqn:Hdec; try done.
    destruct (Nat.eqb_spec (length eph) 32) as [Hlen|]; try done. simpl in H.
    destruct (X25519 sk eph) as [ss|] eqn:Hdh; try done.
    destruct (hkdf_ReadFull ss _ _ _) as [wk|] eqn:Hkdf; try done.
    by exists arg, eph, ss, wk.
  - intros [_ (arg & eph & ss & wk & -> & -> & Hlen & -> & -> & Hopen)].
    by rewrite Hlen.
Qed.

Lemma decrypts_to_functional (sk pk : bytes) (st : Stanza) (k k' : bytes) :
  decrypts_to sk pk st k → decrypts_to sk pk st k' → k = k'.
Proof.
  intros H H'. pose proof (proj1 H) as Hty.
  apply unwrapX25519_decrypts in H, H'; try done. congruence.
Qed.

Lemma undecryptable_unwrap (sk pk : bytes) (st : Stanza) :
  undecryptable sk pk st ↔
  Type_ st ≠ "X25519" ∨ ∃ e, unwrapX25519 sk pk st = Err e.
Proof.
  unfold undecryptable. split.
  - intros H. destruct (decide (Type_ st = "X25519")) as [Hty|]; [|by left].
    right. destruct (unwrapX25519 sk pk st) as [k|e] eqn:Hu; [|by eauto].
    exfalso. by apply (H k), unwrapX25519_decrypts.
  - intros [Hty|[e He]] k Hk; [by destruct Hk|].
    pose proof (proj1 Hk) as Hty.
    apply unwrapX25519_decrypts in Hk; [congruence|done].
Qed.

Lemma first_key_None (sk pk : bytes) (stanzas : list Stanza) :
  first_key sk pk stanzas = None ↔ Forall (undecryptable sk pk) stanzas.
Proof.
  induction stanzas as [|st rest IH]; simpl.
  - split; [by constructor | done].
  - rewrite Forall_cons, undecryptable_unwrap, <- IH.
    destruct (String.eqb_spec (Type_ st) "X25519") as [Hty|Hty].
    + destruct (unwrapX25519 sk pk st) as [k|e].
      * split; [done | by intros [[?|[? ?]] _]].
      * split; [by eauto | by intros [_ ?]].
    + split; [by eauto | by intros [_ ?]].
Qed.

Lemma first_key_Some (sk pk : bytes) (stanzas : list Stanza) (k : bytes) :
  first_key sk pk stanzas = Some k ↔
  ∃ pre st post, stanzas = pre ++ st :: post ∧
    Forall (undecryptable sk pk) pre ∧ decrypts_to sk pk st k.
Proof.
  induction stanzas as [|st rest IH]; simpl.
  - split; [done | by intros ([|? ?] & ? & ? & ? & _)].
  - assert (Hskip : undecryptable sk pk st →
      (first_key sk pk rest = Some k ↔
       ∃ pre st' post, st :: rest = pre ++ st' :: post ∧
         Forall (undecryptable sk pk) pre ∧ decrypts_to sk pk st' k)).
    { intros Hun. rewrite IH. split.
      - intros (pre & st' & post & -> & Hpre & Hk).
        exists (st :: pre), st', post. split_and!; [done| by constructor | done].
      - intros ([|st0 pre] & st' & post & Heq & Hpre & Hk); simplify_eq/=.
        + by destruct (Hun k).
        + apply Forall_cons in Hpre as [_ Hpre]. by exists pre, st', post. }
    destruct (String.eqb_spec (Type_ st) "X25519") as [Hty|Hty].
    + destruct (unwrapX25519 sk pk st) as [k0|e] eqn:Hu.
      * apply unwrapX25519_decrypts in Hu; [|done]. split.
        -- intros [= ->]. by exists [], st, rest.
        -- intros ([|st0 pre] & st' & post & Heq & Hpre & Hk); simplify_eq/=.
           ++ f_equal. by eapply decrypts_to_functional.
           ++ apply Forall_cons in Hpre as [Hun _]. by destruct (Hun k0).
      * apply Hskip, undecryptable_unwrap. eauto.
    + apply Hskip, undecryptable_unwrap. eauto.
Qed.

Lemma Unwrap_stanzas_run (sk pk : bytes) (stanzas : list Stanza) (w : World) :
  Unwrap_stanzas sk pk stanzas w =
  Done (key_or_incorrect (first_key sk pk stanzas))
       (add_trace (EvUnwrapX25519 <$> attempts sk pk stanzas) w).
Proof.
  revert w. induction stanzas as [|st rest IH]; intros w; simpl.
  - by rewrite add_trace_nil.
  - destruct (String.eqb_spec (Type_ st) "X25519") as [Hty|Hty]; simpl; [|done].
    unfold mbind, M_bind, log. simpl.
    destruct (unwrapX25519 sk pk st) as [k|e]; simpl.
    + done.
    + by rewrite IH, logged_add_trace, add_trace_app.
Qed.

(** C3. The second loop of [Unwrap] never panics; it returns the file key of
    the first stanza, in input order, that decrypts, the stanzas before it
    being undecryptable; it fails exactly when no stanza of the sequence
    decrypts, and then with [ErrIncorrectIdentity]. *)
Theorem Unwrap_stanzas_first_decrypting (sk pk : bytes) (stanzas : list Stanza)
  (w : World) :
  ∃ r w', Unwrap_stanzas sk pk stanzas w = Done r w' ∧
    (∀ k, r = Ok k ↔
       ∃ pre st post, stanzas = pre ++ st :: post ∧
         Forall (undecryptable sk pk) pre ∧ decrypts_to sk pk st k) ∧
    (r = Err ErrIncorrectIdentity ↔ Forall (undecryptable sk pk) stanzas) ∧
    (∀ e, r = Err e → e = ErrIncorrectIdentity).
Proof.
  eexists _, _. split; [apply Unwrap_stanzas_run|].
  repeat split.
  - intros Hr. apply first_key_Some.
    by destruct (first_key sk pk stanzas); simplify_eq/=.
  - intros Hk. apply first_key_Some in Hk. by rewrite Hk.
  - intros Hr. apply first_key_None.
    by destruct (first_key sk pk stanzas).
  - intros Hun. apply first_key_None in Hun. by rewrite Hun.
  - intros e. by destruct (first_key sk pk stanzas); [|intros [= <-]].
Qed.

(** *** Key cache *)

#[local] Arguments replicate : simpl never.

Lemma copy_length (dst src : bytes) : length (copy dst src) = length dst.
Proof.
  unfold copy. rewrite length_app, length_take, length_drop. lia.
Qed.

Lemma cacheTTL_Done (w : World) : ∃ d, cacheTTL w = Done d w.
Proof.
  unfold cacheTTL, Getenv, mbind, M_bind, mret, M_ret.
  repeat case_match; eauto.
Qed.

Lemma cacheTTL_world (w w' : World) (d : Z) :
  cacheTTL w = Done d w' → w' = w.
Proof.
  destruct (cacheTTL_Done w) as [d' Hd]. rewrite Hd. by intros [= _ <-].
Qed.

Lemma cacheKey_Done (name : string) (key : bytes) (w : World) :
  ∃ w', cacheKey name key w = Done () w'.
Proof.
  unfold cacheKey. destruct (cacheTTL_Done w) as [d Hd].
  rewrite (bind_Done _ _ _ _ _ Hd).
  destruct (d =? 0)%Z; [by eexists|].
  unfold mbind, M_bind, add_key, keyctl_int, mret, M_ret.
  destruct (AddKey _ _ _ _ _) as [k [id|e]]; [|by eexists].
  destruct (KeyctlInt _ _ _ _ _ _) as [k' r]. by eexists.
Qed.

(** [getCachedKey] only reads: whatever it returns, the environment and the
    key store are as before and the trace has grown by searches and reads;
    a key it returns has 32 bytes; and it panics only in the slice
    expression [buf[:n]]. *)
Lemma getCachedKey_outcome (name : string) (w : World) :
  match getCachedKey name w with
  | Done o w1 =>
    (∃ evs, w1 = add_trace evs w ∧ Forall (λ e, is_cache_read e = true) evs) ∧
    (∀ k, o = Some k → length k = 32)
  | Panic msg w1 =>
    msg = "slice bounds out of range" ∧
    ∃ id n stored, (256 < n)%Z ∧
      KeyctlSearch (keyring w) KEY_SPEC_USER_KEYRING "user" name 0 = Ok id ∧
      KeyctlBuffer (keyring w) KEYCTL_READ id 256 0 = (n, None, stored)
  end.
Proof.
  unfold getCachedKey. destruct (cacheTTL_Done w) as [d Hd].
  rewrite (bind_Done _ _ _ _ _ Hd).
  destruct (d =? 0)%Z.
  { split; [exists []; by rewrite add_trace_nil | done]. }
  unfold mbind at 1, M_bind at 1, keyctl_search.
  destruct (KeyctlSearch _ _ _ _ _) as [id|e] eqn:Hsearch.
  2:{ split; [by exists [EvKeyctlSearch name]; repeat constructor | done]. }
  unfold mbind at 1, M_bind at 1, keyctl_buffer.
  rewrite length_replicate.
  destruct (KeyctlBuffer _ _ _ _ _) as [[n err] stored] eqn:Hread.
  assert (Hevs : ∃ evs,
    logged (EvKeyctlRead id) (logged (EvKeyctlSearch name) w) = add_trace evs w ∧
    Forall (λ e, is_cache_read e = true) evs).
  { exists [EvKeyctlSearch name; EvKeyctlRead id].
    split; [by rewrite !logged_add_trace, add_trace_app | by repeat constructor]. }
  destruct err as [e|]; simpl; [by split|].
  destruct (Z.leb_spec n 0) as [Hn|Hn]; simpl; [by split|].
  unfold mbind, M_bind, slice_to.
  rewrite copy_length, length_replicate.
  destruct (decide (0 ≤ n ≤ Z.of_nat 256)%Z) as [Hr|Hr]; simpl.
  - unfold mret, M_ret.
    destruct (hex_DecodeString _) as [key|e]; [|by split].
    destruct (Nat.eqb_spec (length key) 32) as [Hlen|Hlen]; simpl; [|by split].
    split; [done | by intros k [= <-]].
  - split; [done|]. exists id, n, stored. split; [lia | done].
Qed.

(** X3. Apart from that slice expression [getCachedKey] is total: when the key
    store never reports more than the 256 bytes of the buffer, the result is
    no key or a key of 32 bytes. *)
Lemma getCachedKey_within_buffer (name : string) (w : World) :
  (∀ id n stored,
     KeyctlBuffer (keyring w) KEYCTL_READ id 256 0 = (n, None, stored) →
     (n ≤ 256)%Z) →
  ∃ o w1, getCachedKey name w = Done o w1 ∧
    keyring w1 = keyring w ∧ environ w1 = environ w ∧
    (∀ k, o = Some k → length k = 32).
Proof.
  intros Hfit. pose proof (getCachedKey_outcome name w) as Hout.
  destruct (getCachedKey name w) as [o w1|msg w1].
  - destruct Hout as [(evs & -> & _) Hlen]. by exists o, (add_trace evs w).
  - destruct Hout as (_ & id & n & stored & Hn & _ & Hread).
    apply Hfit in Hread. lia.
Qed.

(** And it does panic when the key store reports more. *)
Lemma getCachedKey_beyond_buffer (name : string) (w : World) (ttl id n : Z)
  (stored : bytes) :
  cacheTTL w = Done ttl w → ttl ≠ 0%Z →
  KeyctlSearch (keyring w) KEY_SPEC_USER_KEYRING "user" name 0 = Ok id →
  KeyctlBuffer (keyring w) KEYCTL_READ id 256 0 = (n, None, stored) →
  (256 < n)%Z →
  ∃ w1, getCachedKey name w = Panic "slice bounds out of range" w1.
Proof.
  intros Httl Hnz Hsearch Hread Hn. unfold getCachedKey.
  rewrite (bind_Done _ _ _ _ _ Httl).
  destruct (Z.eqb_spec ttl 0) as [?|_]; [done|].
  unfold mbind at 1, M_bind at 1, keyctl_search. rewrite Hsearch.
  unfold mbind at 1, M_bind at 1, keyctl_buffer.
  rewrite length_replicate.
  change (keyring (logged (EvKeyctlSearch name) w)) with (keyring w).
  rewrite Hread. simpl.
  destruct (Z.leb_spec n 0) as [?|_]; [lia|]. simpl.
  unfold mbind, M_bind, slice_to.
  rewrite copy_length, length_replicate.
  rewrite decide_False by lia. by eexists.
Qed.

Section CacheTTL.

(** What [time.ParseDuration] does with the two strings [cacheTTL] singles
    out: the empty string is an error and "0" is the zero duration. *)
Hypothesis ParseDuration_empty : ∀ d, ParseDuration "" ≠ Ok d.
Hypothesis ParseDuration_zero : ParseDuration "0" = Ok 0%Z.

(** C7. The TTL read from AGE_PLUGIN_BIP39_CACHE: 10 minutes when the
    variable is not set, zero for "0", the parsed duration for every value
    that parses, and 10 minutes for every value that does not; and when the
    TTL is zero [cacheKey] does nothing and [getCachedKey] returns no key,
    neither touching the key store. *)
Theorem cacheTTL_policy (w : World) :
  let v := environ w !! "AGE_PLUGIN_BIP39_CACHE" in
  (v = None → cacheTTL w = Done (10 * Minute)%Z w) ∧
  (v = Some "0" → cacheTTL w = Done 0%Z w) ∧
  (∀ s d, v = Some s → ParseDuration s = Ok d → cacheTTL w = Done d w) ∧
  (∀ s e, v = Some s → ParseDuration s = Err e →
     cacheTTL w = Done (10 * Minute)%Z w) ∧
  (cacheTTL w = Done 0%Z w →
     ∀ name key, cacheKey name key w = Done () w ∧
                 getCachedKey name w = Done None w).
Proof.
  assert (Hset : ∀ s, environ w !! "AGE_PLUGIN_BIP39_CACHE" = Some s →
    cacheTTL w =
    Done (match ParseDuration s with Ok d => d | Err _ => 10 * Minute end)%Z w).
  { intros s Hs. unfold cacheTTL, Getenv, mbind, M_bind, mret, M_ret.
    rewrite Hs. simpl.
    destruct (String.eqb_spec s "") as [->|_].
    { destruct (ParseDuration "") eqn:Hp; [by destruct (ParseDuration_empty a)|done]. }
    destruct (String.eqb_spec s "0") as [->|_]; [by rewrite ParseDuration_zero|].
    by destruct (ParseDuration s). }
  simpl. split_and!.
  - intros Hv. unfold cacheTTL, Getenv, mbind, M_bind, mret, M_ret. by rewrite Hv.
  - intros Hv. by rewrite (Hset _ Hv), ParseDuration_zero.
  - intros s d Hv Hp. by rewrite (Hset _ Hv), Hp.
  - intros s e Hv Hp. by rewrite (Hset _ Hv), Hp.
  - intros Hz name key. unfold cacheKey, getCachedKey.
    by rewrite !(bind_Done _ _ _ _ _ Hz).
Qed.

End CacheTTL.

(** *** Identity adapter *)

Lemma hasX25519_false (stanzas : list Stanza) :
  hasX25519 stanzas = false ↔ Forall (λ s, Type_ s ≠ "X25519") stanzas.
Proof.
  induction stanzas as [|st rest IH]; simpl.
  - split; [by constructor | done].
  - rewrite Forall_cons, <- IH.
    destruct (String.eqb_spec (Type_ st) "X25519") as [Hty|Hty].
    + split; [done | by intros [? _]].
    + split; [by intros ? | by intros [_ ?]].
Qed.

Lemma hasX25519_app (pre post : list Stanza) :
  hasX25519 (pre ++ post) = hasX25519 pre || hasX25519 post.
Proof.
  induction pre as [|st pre IH]; simpl; [done|].
  by destruct (Type_ st =? "X25519")%string.
Qed.

(** [Unwrap] is the key acquisition followed by the second loop. *)
Lemma Unwrap_acquire_then_loop (si : Bip39Identity) (stanzas : list Stanza)
  (w : World) :
  hasX25519 stanzas = true →
  Bip39Identity_Unwrap si stanzas w =
  (r ← acquire_key si;
   match r with
   | Err e => mret (Err e)
   | Ok privKey => Unwrap_stanzas privKey (publicKey si) stanzas
   end) w.
Proof.
  intros Hhas. unfold Bip39Identity_Unwrap, acquire_key. rewrite Hhas. simpl.
  unfold mbind, M_bind, log, mret, M_ret.
  destruct (getCachedKey _ w) as [[sk|] w1|]; try done.
  destruct (RequestValue _ _ _) as [phrase|e]; try done.
  destruct (IsMnemonicValid _); simpl; try done.
  destruct (deriveX25519FromMnemonic _) as [[priv pub]|e]; try done.
  destruct (bytesEqual _ _); simpl; try done.
  by destruct (cacheKey _ _ _) as [[] w2|].
Qed.

(** C9. Without a stanza of type X25519 [Unwrap] returns
    [ErrIncorrectIdentity] at once: the world it leaves is the world it
    found, so the trace has no cache lookup, no prompt, no derivation and no
    decryption attempt, whatever the key store holds and the host would
    answer. *)
Theorem Unwrap_without_X25519_stanza (si : Bip39Identity)
  (stanzas : list Stanza) (w : World) :
  Forall (λ s, Type_ s ≠ "X25519") stanzas →
  Bip39Identity_Unwrap si stanzas w = Done (Err ErrIncorrectIdentity) w.
Proof.
  intros Hnone. apply hasX25519_false in Hnone.
  unfold Bip39Identity_Unwrap. by rewrite Hnone.
Qed.

(** C5. When the cache has no key and the host answers with a phrase that is
    valid and whose derived public key differs from the public key of the
    identity, [Unwrap] returns the error "seed phrase does not match this
    identity", which is not [ErrIncorrectIdentity]; the key store is
    untouched, and the calls made are cache reads, the prompt and the
    derivation: no cache write and no call of [unwrapX25519]. *)
Theorem Unwrap_mnemonic_mismatch (si : Bip39Identity) (stanzas : list Stanza)
  (w w1 : World) (phrase : string) (derivedPriv derivedPub : bytes) :
  hasX25519 stanzas = true →
  getCachedKey ("age-plugin-bip39:" ++ fmt_x (publicKey si)) w = Done None w1 →
  RequestValue (plugin si) "Enter your BIP39 seed phrase" true = Ok phrase →
  IsMnemonicValid (TrimSpace phrase) = true →
  deriveX25519FromMnemonic (TrimSpace phrase) = Ok (derivedPriv, derivedPub) →
  derivedPub ≠ publicKey si →
  ∃ evs,
    Bip39Identity_Unwrap si stanzas w =
      Done (Err (errors_New "seed phrase does not match this identity"))
           (add_trace evs w) ∧
    errors_New "seed phrase does not match this identity" ≠ ErrIncorrectIdentity ∧
    Forall (λ e, is_cache_write e = false ∧ is_unwrap_attempt e = false) evs.
Proof.
  intros Hhas Hget Hreq Hvalid Hderive Hne.
  pose proof (getCachedKey_outcome ("age-plugin-bip39:" ++ fmt_x (publicKey si)) w)
    as Hout.
  rewrite Hget in Hout. destruct Hout as [(evs & -> & Hevs) _].
  exists (evs ++ [EvRequestValue "Enter your BIP39 seed phrase" true;
                  EvDerive (TrimSpace phrase)]).
  split_and!.
  - unfold Bip39Identity_Unwrap. rewrite Hhas. simpl.
    rewrite (bind_Done _ _ _ _ _ Hget).
    unfold mbind at 1, M_bind at 1, log. rewrite Hreq, Hvalid. simpl.
    unfold mbind at 1, M_bind at 1. rewrite Hderive.
    destruct (bytesEqual derivedPub (publicKey si)) eqn:Heq.
    { by apply bytesEqual_eq in Heq. }
    simpl. unfold mret, M_ret.
    by rewrite !logged_add_trace, !add_trace_app.
  - done.
  - apply Forall_app. split.
    + eapply Forall_impl; [exact Hevs|]. by intros [] ?.
    + by repeat constructor.
Qed.

Lemma unwrapX25519_malformed (sk pk : bytes) (st : Stanza) :
  malformed_ephemeral st → ∃ e, unwrapX25519 sk pk st = Err e.
Proof.
  intros [_ (arg & Hargs & Hdec)]. unfold unwrapX25519. rewrite Hargs.
  destruct (b64_DecodeString arg) as [eph|e]; [|by eexists].
  destruct (Nat.eqb_spec (length eph) 32); [done | by eexists].
Qed.

Lemma first_key_skip (sk pk : bytes) (pre post : list Stanza) (st : Stanza) :
  (∃ e, unwrapX25519 sk pk st = Err e) →
  first_key sk pk (pre ++ st :: post) = first_key sk pk (pre ++ post).
Proof.
  intros [e He]. induction pre as [|s pre IH]; simpl.
  - rewrite He. by destruct (Type_ st =? "X25519")%string.
  - rewrite IH. done.
Qed.

(** The loop on a prefix without a decrypting stanza: it attempts the
    stanzas of type X25519 of the prefix and goes on with the rest. *)
Lemma Unwrap_stanzas_undecryptable_prefix (sk pk : bytes) (pre rest : list Stanza)
  (w : World) :
  Forall (undecryptable sk pk) pre →
  Unwrap_stanzas sk pk (pre ++ rest) w =
  Unwrap_stanzas sk pk rest
    (add_trace (EvUnwrapX25519 <$> filter (λ s, Type_ s = "X25519") pre) w).
Proof.
  intros Hpre. revert w. induction Hpre as [|s pre Hs _ IH]; intros w.
  - by rewrite add_trace_nil.
  - simpl. rewrite filter_cons.
    destruct (String.eqb_spec (Type_ s) "X25519") as [Hty|Hty]; simpl.
    + rewrite decide_True by done.
      apply undecryptable_unwrap in Hs as [?|[e He]]; [done|].
      unfold mbind, M_bind, log. rewrite He, IH.
      by rewrite logged_add_trace, add_trace_app.
    + rewrite decide_False by done. apply IH.
Qed.

Lemma Unwrap_stanzas_decrypting (sk pk : bytes) (st : Stanza) (rest : list Stanza)
  (K : bytes) (w : World) :
  decrypts_to sk pk st K →
  Unwrap_stanzas sk pk (st :: rest) w = Done (Ok K) (add_trace [EvUnwrapX25519 st] w).
Proof.
  intros HK. pose proof (proj1 HK) as Hty.
  apply unwrapX25519_decrypts in HK; [|done]. simpl.
  rewrite (proj2 (String.eqb_eq _ _) Hty). simpl.
  unfold mbind, M_bind, log. by rewrite HK.
Qed.

Lemma Unwrap_stanzas_failing (sk pk : bytes) (st : Stanza) (rest : list Stanza)
  (w : World) :
  Type_ st = "X25519" → (∃ e, unwrapX25519 sk pk st = Err e) →
  Unwrap_stanzas sk pk (st :: rest) w =
  Unwrap_stanzas sk pk rest (add_trace [EvUnwrapX25519 st] w).
Proof.
  intros Hty [e He]. simpl. rewrite (proj2 (String.eqb_eq _ _) Hty). simpl.
  unfold mbind, M_bind, log. by rewrite He.
Qed.

(** C4. A stanza of type X25519 whose argument does not decode, or decodes
    to other than 32 bytes, makes [unwrapX25519] return an error, and the
    loop goes on with the stanzas after it.  After the attempt on it the
    loop is the loop on the remaining stanzas; a later stanza that decrypts
    gives its file key, in the loop and in [Unwrap] as a whole, and the
    trace shows the attempt on the malformed stanza followed by the
    attempts on the stanzas of type X25519 after it; when nothing else
    decrypts the result is [ErrIncorrectIdentity], after every remaining
    stanza of type X25519 was attempted, and not the error of the malformed
    stanza.  So the loop and [Unwrap] return what they return for the
    sequence without that stanza. *)
Theorem malformed_stanza_is_skipped (st : Stanza) :
  malformed_ephemeral st →
  (∀ sk pk, ∃ e, unwrapX25519 sk pk st = Err e) ∧
  (∀ sk pk pre post w,
     Forall (undecryptable sk pk) pre →
     Unwrap_stanzas sk pk (pre ++ st :: post) w =
     Unwrap_stanzas sk pk post
       (add_trace (EvUnwrapX25519 <$> filter (λ s, Type_ s = "X25519") pre ++ [st]) w)) ∧
  (∀ sk pk pre post later rest K w,
     Forall (undecryptable sk pk) pre → Forall (undecryptable sk pk) post →
     decrypts_to sk pk later K →
     Unwrap_stanzas sk pk (pre ++ st :: post ++ later :: rest) w =
     Done (Ok K)
       (add_trace (EvUnwrapX25519 <$>
                     filter (λ s, Type_ s = "X25519") pre ++ st ::
                     filter (λ s, Type_ s = "X25519") post ++ [later]) w)) ∧
  (∀ sk pk pre post w,
     Forall (undecryptable sk pk) pre → Forall (undecryptable sk pk) post →
     Unwrap_stanzas sk pk (pre ++ st :: post) w =
     Done (Err ErrIncorrectIdentity)
       (add_trace (EvUnwrapX25519 <$>
                     filter (λ s, Type_ s = "X25519") pre ++ st ::
                     filter (λ s, Type_ s = "X25519") post) w)) ∧
  (∀ si pre post later rest K sk w w1,
     acquire_key si w = Done (Ok sk) w1 →
     Forall (undecryptable sk (publicKey si)) pre →
     Forall (undecryptable sk (publicKey si)) post →
     decrypts_to sk (publicKey si) later K →
     Bip39Identity_Unwrap si (pre ++ st :: post ++ later :: rest) w =
     Done (Ok K)
       (add_trace (EvUnwrapX25519 <$>
                     filter (λ s, Type_ s = "X25519") pre ++ st ::
                     filter (λ s, Type_ s = "X25519") post ++ [later]) w1)) ∧
  (∀ sk pk pre post w,
     value_of (Unwrap_stanzas sk pk (pre ++ st :: post) w) =
     value_of (Unwrap_stanzas sk pk (pre ++ post) w)) ∧
  (∀ si pre post w,
     hasX25519 (pre ++ post) = true →
     value_of (Bip39Identity_Unwrap si (pre ++ st :: post) w) =
     value_of (Bip39Identity_Unwrap si (pre ++ post) w)).
Proof.
  intros Hmal. pose proof (proj1 Hmal) as Hty.
  assert (Herr : ∀ sk pk, ∃ e, unwrapX25519 sk pk st = Err e)
    by (intros; by apply unwrapX25519_malformed).
  assert (Hgo : ∀ sk pk pre post w,
     Forall (undecryptable sk pk) pre →
     Unwrap_stanzas sk pk (pre ++ st :: post) w =
     Unwrap_stanzas sk pk post
       (add_trace (EvUnwrapX25519 <$> filter (λ s, Type_ s = "X25519") pre ++ [st]) w)).
  { intros sk pk pre post w Hpre.
    rewrite Unwrap_stanzas_undecryptable_prefix by done.
    rewrite Unwrap_stanzas_failing by done.
    by rewrite add_trace_app, fmap_app. }
  assert (Hkey : ∀ sk pk pre post later rest K w,
     Forall (undecryptable sk pk) pre → Forall (undecryptable sk pk) post →
     decrypts_to sk pk later K →
     Unwrap_stanzas sk pk (pre ++ st :: post ++ later :: rest) w =
     Done (Ok K)
       (add_trace (EvUnwrapX25519 <$>
                     filter (λ s, Type_ s = "X25519") pre ++ st ::
                     filter (λ s, Type_ s = "X25519") post ++ [later]) w)).
  { intros sk pk pre post later rest K w Hpre Hpost HK.
    rewrite Hgo by done.
    rewrite Unwrap_stanzas_undecryptable_prefix by done.
    rewrite (Unwrap_stanzas_decrypting sk pk later rest K) by done.
    rewrite !add_trace_app. do 2 f_equal.
    rewrite !fmap_app, <- !app_assoc. simpl. by rewrite fmap_app. }
  assert (Hloop : ∀ sk pk pre post w,
     value_of (Unwrap_stanzas sk pk (pre ++ st :: post) w) =
     value_of (Unwrap_stanzas sk pk (pre ++ post) w)).
  { intros. rewrite !Unwrap_stanzas_run. simpl. by rewrite first_key_skip. }
  split; [done|]. split; [done|]. split; [done|]. split.
  { intros sk pk pre post w Hpre Hpost. rewrite Hgo by done.
    rewrite <- (app_nil_r post) at 1.
    rewrite Unwrap_stanzas_undecryptable_prefix by done. simpl.
    unfold mret, M_ret. rewrite add_trace_app. do 2 f_equal.
    rewrite !fmap_app, <- !app_assoc. done. }
  split.
  { intros si pre post later rest K sk w w1 Hacq Hpre Hpost HK.
    rewrite Unwrap_acquire_then_loop.
    - unfold mbind, M_bind. rewrite Hacq. by apply Hkey.
    - rewrite hasX25519_app. simpl. rewrite Hty. simpl. by destruct (hasX25519 pre). }
  split; [done|].
  intros si pre post w Hhas.
  rewrite !Unwrap_acquire_then_loop; [|done|].
  - unfold mbind, M_bind.
    destruct (acquire_key si w) as [[sk|e] w1|]; [apply Hloop | done | done].
  - rewrite hasX25519_app in Hhas |- *. simpl.
    rewrite Hty. simpl. by destruct (hasX25519 pre).
Qed.

(** *** Round trip through the stanza codec *)

Lemma derive_public_key (mnemonic : string) (priv pub : bytes) :
  deriveX25519FromMnemonic mnemonic = Ok (priv, pub) →
  X25519 priv Basepoint = Ok pub.
Proof.
  unfold deriveX25519FromMnemonic.
  destruct (EntropyFromMnemonic mnemonic) as [entropy|]; [|done].
  destruct (X25519 _ Basepoint) as [p|] eqn:Hx; [|done].
  intros [= <- <-]. exact Hx.
Qed.

Section RoundTrip.

(** The generated key pair is an X25519 key pair. *)
Hypothesis GenerateKey_public : ∀ rand k,
  GenerateKey rand = Ok k → X25519 (Bytes k) Basepoint = Ok (PublicKey_Bytes k).

(** X25519 returns 32 bytes. *)
Hypothesis X25519_output : ∀ scalar point r,
  X25519 scalar point = Ok r → length r = 32 ∧ Forall is_byte r.

(** Diffie-Hellman key agreement. *)
Hypothesis X25519_agreement : ∀ a b A B,
  X25519 a Basepoint = Ok A → X25519 b Basepoint = Ok B →
  X25519 a B = X25519 b A.

(** Base64 decodes what it encodes. *)
Hypothesis b64_round_trip : ∀ b,
  Forall is_byte b → b64_DecodeString (b64_EncodeToString b) = Ok b.

(** The AEAD opens what it seals, under the same key, nonce and associated
    data. *)
Hypothesis aead_round_trip : ∀ key nonce plaintext ad,
  length key = KeySize → length nonce = NonceSize → Forall is_byte plaintext →
  aead_Open key nonce (aead_Seal key nonce plaintext ad) ad = Ok plaintext.

Lemma unwrapX25519_wrapX25519 (rand : RandReader) (s R K : bytes) (st : Stanza) :
  X25519 s Basepoint = Ok R →
  Forall is_byte K →
  wrapX25519 rand R K = Ok [st] →
  Type_ st = "X25519" ∧ unwrapX25519 s R st = Ok K.
Proof.
  intros HR HK. unfold wrapX25519.
  destruct (GenerateKey rand) as [eph|] eqn:Hgen; [|done].
  destruct (X25519 (Bytes eph) R) as [ss|] eqn:Hss; [|done].
  destruct (hkdf_ReadFull ss _ _ _) as [wk|] eqn:Hkdf; [|done].
  unfold aeadEncrypt. destruct (decide (length wk = KeySize)) as [Hwk|]; [|done].
  intros [= <-]. split; [done|].
  pose proof (GenerateKey_public _ _ Hgen) as HE.
  destruct (X25519_output _ _ _ HE) as [Hlen Hbytes].
  unfold unwrapX25519. simpl.
  rewrite (b64_round_trip _ Hbytes), Hlen. simpl.
  rewrite (X25519_agreement _ _ _ _ HR HE), Hss, Hkdf.
  unfold aeadDecrypt. rewrite decide_True by done.
  apply aead_round_trip; [done | by rewrite length_replicate | done].
Qed.

(** C1. For a key pair [(s, R)] from [deriveX25519FromMnemonic] and a file
    key [K] of any length (so also of 16 to 32 bytes), the stanzas that
    [wrapX25519] produces for [R] and [K] are unwrapped to exactly [K] by the
    second loop of [Unwrap] run with [s] and [R]. *)
Theorem wrap_unwrap_round_trip (mnemonic : string) (rand : RandReader)
  (s R K : bytes) (stanzas : list Stanza) (w : World) :
  deriveX25519FromMnemonic mnemonic = Ok (s, R) →
  Forall is_byte K →
  wrapX25519 rand R K = Ok stanzas →
  ∃ w', Unwrap_stanzas s R stanzas w = Done (Ok K) w'.
Proof.
  intros Hderive HK Hwrap. apply derive_public_key in Hderive.
  assert (∃ st, stanzas = [st]) as [st ->].
  { revert Hwrap. unfold wrapX25519. repeat case_match; try done.
    intros [= <-]. by eexists. }
  destruct (unwrapX25519_wrapX25519 _ _ _ _ _ Hderive HK Hwrap) as [Hty Hun].
  eexists. rewrite Unwrap_stanzas_run. simpl. by rewrite Hty, Hun.
Qed.

(** The same through the identity adapter: on a cache miss, with the phrase
    of the identity, [Unwrap] returns the file key that the recipient
    wrapped. *)
Corollary Unwrap_Wrap_round_trip (si : Bip39Identity) (rand : RandReader)
  (phrase : string) (s K : bytes) (stanzas : list Stanza) (w w1 : World) :
  getCachedKey ("age-plugin-bip39:" ++ fmt_x (publicKey si)) w = Done None w1 →
  RequestValue (plugin si) "Enter your BIP39 seed phrase" true = Ok phrase →
  IsMnemonicValid (TrimSpace phrase) = true →
  deriveX25519FromMnemonic (TrimSpace phrase) = Ok (s, publicKey si) →
  Forall is_byte K →
  Bip39Recipient_Wrap {| recipientPublicKey := publicKey si |} rand K = Ok stanzas →
  ∃ w', Bip39Identity_Unwrap si stanzas w = Done (Ok K) w'.
Proof.
  intros Hmiss Hreq Hvalid Hderive HK Hwrap. unfold Bip39Recipient_Wrap in Hwrap.
  simpl in Hwrap.
  assert (∃ st, stanzas = [st]) as [st ->].
  { revert Hwrap. unfold wrapX25519. repeat case_match; try done.
    intros [= <-]. by eexists. }
  pose proof (derive_public_key _ _ _ Hderive) as Hpub.
  destruct (unwrapX25519_wrapX25519 _ _ _ _ _ Hpub HK Hwrap) as [Hty Hun].
  unfold Bip39Identity_Unwrap. simpl. rewrite Hty. simpl.
  rewrite (bind_Done _ _ _ _ _ Hmiss).
  unfold mbind at 1, M_bind at 1, log. rewrite Hreq, Hvalid. simpl.
  unfold mbind at 1, M_bind at 1. rewrite Hderive.
  rewrite (proj2 (bytesEqual_eq _ _) eq_refl). simpl.
  destruct (cacheKey_Done ("age-plugin-bip39:" ++ fmt_x (publicKey si)) s
              (logged (EvDerive (TrimSpace phrase))
                 (logged (EvRequestValue "Enter your BIP39 seed phrase" true) w1)))
    as [w2 Hcache].
  rewrite (bind_Done _ _ _ _ _ Hcache).
  unfold mbind, M_bind. rewrite Hun. by eexists.
Qed.

End RoundTrip.

(** *** Surrounding whitespace *)

Lemma string_of_bytes_of_string (s : string) :
  string_of_bytes (bytes_of_string s) = s.
Proof.
  unfold string_of_bytes, bytes_of_string.
  rewrite <- list_fmap_compose.
  rewrite <- (string_of_list_ascii_of_string s) at 2. f_equal.
  induction (list_ascii_of_string s) as [|a l IH]; [done|].
  rewrite fmap_cons, IH. f_equal.
  unfold compose, ascii_of_byte, byte_of_ascii.
  by rewrite N2Z.id, ascii_N_embedding.
Qed.

(** Both paths depend on the phrase through [TrimSpace] only. *)
Lemma keygen_depends_on_trimmed (s s' now : string) :
  TrimSpace s = TrimSpace s' →
  runKeygenNonInteractive (Ok (bytes_of_string s)) now =
  runKeygenNonInteractive (Ok (bytes_of_string s')) now.
Proof.
  intros Heq. unfold runKeygenNonInteractive.
  by rewrite !string_of_bytes_of_string, Heq.
Qed.

Lemma Unwrap_depends_on_trimmed (p p' : Plugin) (pk : bytes) (s s' : string)
  (stanzas : list Stanza) (w : World) :
  RequestValue p "Enter your BIP39 seed phrase" true = Ok s →
  RequestValue p' "Enter your BIP39 seed phrase" true = Ok s' →
  TrimSpace s = TrimSpace s' →
  Bip39Identity_Unwrap (mkIdentity p pk) stanzas w =
  Bip39Identity_Unwrap (mkIdentity p' pk) stanzas w.
Proof.
  intros Hp Hp' Heq. unfold Bip39Identity_Unwrap. simpl.
  by rewrite Hp, Hp', Heq.
Qed.

Section Whitespace.

Hypothesis TrimSpace_idempotent : ∀ s, TrimSpace (TrimSpace s) = TrimSpace s.

(** C10. The phrase read on standard input by the non-interactive key
    generation, and the phrase the host returns to [Unwrap], are trimmed
    before they are validated and used: a phrase [s] gives what the trimmed
    phrase [TrimSpace s] gives, in the lines printed (the public key and the
    identity) and in the outcome of [Unwrap], derivation included. *)
Theorem phrase_trimmed_before_use (s : string) :
  (∀ now,
     runKeygenNonInteractive (Ok (bytes_of_string s)) now =
     runKeygenNonInteractive (Ok (bytes_of_string (TrimSpace s))) now) ∧
  (∀ p p' pk stanzas w,
     RequestValue p "Enter your BIP39 seed phrase" true = Ok s →
     RequestValue p' "Enter your BIP39 seed phrase" true = Ok (TrimSpace s) →
     Bip39Identity_Unwrap (mkIdentity p pk) stanzas w =
     Bip39Identity_Unwrap (mkIdentity p' pk) stanzas w) ∧
  (∀ now lines,
     runKeygenNonInteractive (Ok (bytes_of_string s)) now = Ok lines →
     IsMnemonicValid (TrimSpace s) = true ∧
     outputIdentity now (TrimSpace s) = Ok lines).
Proof.
  split_and!.
  - intros now. apply keygen_depends_on_trimmed. by rewrite TrimSpace_idempotent.
  - intros p p' pk stanzas w Hp Hp'.
    eapply Unwrap_depends_on_trimmed; [done | done |].
    by rewrite TrimSpace_idempotent.
  - intros now lines. unfold runKeygenNonInteractive.
    rewrite string_of_bytes_of_string.
    destruct (TrimSpace s =? "")%string; [done|].
    by destruct (IsMnemonicValid (TrimSpace s)).
Qed.

End Whitespace.

End Properties.

(** ** The reference library satisfies the laws *)

Section RefLaws.
Local Open Scope Z_scope.

Lemma le_encode_length (n : nat) (x : Z) : length (Ref.le_encode n x) = n.
Proof. revert x. induction n as [|n IH]; intros x; simpl; [done | by rewrite IH]. Qed.

Lemma le_encode_bytes (n : nat) (x : Z) : Forall is_byte (Ref.le_encode n x).
Proof.
  revert x. induction n as [|n IH]; intros x; simpl; constructor; [|done].
  unfold is_byte. apply Z.mod_pos_bound. lia.
Qed.

Lemma le_decode_encode (n : nat) (x : Z) :
  Ref.le_decode (Ref.le_encode n x) = x mod 256 ^ Z.of_nat n.
Proof.
  revert x. induction n as [|n IH]; intros x.
  - simpl. by rewrite Z.mod_1_r.
  - cbn [Ref.le_encode Ref.le_decode]. rewrite IH.
    rewrite Nat2Z.inj_succ, Z.pow_succ_r by lia.
    rewrite Z.rem_mul_r; [done | lia | apply Z.pow_pos_nonneg; lia].
Qed.

Lemma point_le_encode (x : Z) :
  0 ≤ x < 2 ^ 255 → Ref.point (Ref.le_encode 32 x) = x.
Proof.
  intros Hx. unfold Ref.point. rewrite le_decode_encode.
  change (256 ^ Z.of_nat 32) with (2 ^ 256).
  assert (H256 : 2 ^ 255 < 2 ^ 256) by reflexivity.
  destruct Hx as [Hx0 Hx1].
  rewrite (Z.mod_small x (2 ^ 256)) by (split; [done | by etrans]).
  by apply Z.mod_small.
Qed.

Lemma ref_X25519_Ok (k p r : bytes) :
  Ref.X25519 k p = Ok r →
  length k = 32%nat ∧ length p = 32%nat ∧
  (Ref.scalar k * Ref.point p) mod Ref.q ≠ 0 ∧
  r = Ref.le_encode 32 ((Ref.scalar k * Ref.point p) mod Ref.q).
Proof.
  unfold Ref.X25519.
  destruct (Nat.eqb_spec (length k) 32); [|done].
  destruct (Nat.eqb_spec (length p) 32); [|done]. simpl.
  destruct (Z.eqb_spec ((Ref.scalar k * Ref.point p) mod Ref.q) 0); [done|].
  by intros [= <-].
Qed.

Lemma q_bounds (x : Z) : 0 ≤ x mod Ref.q < 2 ^ 255.
Proof.
  assert (0 < Ref.q) by done.
  assert (Ref.q < 2 ^ 255) by done.
  pose proof (Z.mod_pos_bound x Ref.q). lia.
Qed.

Lemma ref_X25519_output (k p r : bytes) :
  Ref.X25519 k p = Ok r →
  length r = 32%nat ∧ Forall is_byte r.
Proof.
  intros H. apply ref_X25519_Ok in H as (_ & _ & _ & ->).
  split; [apply le_encode_length | apply le_encode_bytes].
Qed.

Lemma ref_X25519_agreement (a b A B : bytes) :
  Ref.X25519 a Ref.Basepoint = Ok A →
  Ref.X25519 b Ref.Basepoint = Ok B →
  Ref.X25519 a B = Ref.X25519 b A.
Proof.
  intros HA HB.
  apply ref_X25519_Ok in HA as (Ha & _ & _ & ->).
  apply ref_X25519_Ok in HB as (Hb & _ & _ & ->).
  unfold Ref.X25519.
  rewrite Ha, Hb, !le_encode_length. cbn [Nat.eqb negb].
  rewrite !point_le_encode by apply q_bounds.
  rewrite !Z.mul_mod_idemp_r by done.
  by replace (Ref.scalar a * (Ref.scalar b * Ref.point Ref.Basepoint))
    with (Ref.scalar b * (Ref.scalar a * Ref.point Ref.Basepoint)) by ring.
Qed.

Lemma ref_GenerateKey_public (rand : bytes) (k : ecdh_PrivateKey) :
  Ref.GenerateKey rand = Ok k →
  Ref.X25519 (Bytes k) Ref.Basepoint = Ok (PublicKey_Bytes k).
Proof.
  unfold Ref.GenerateKey.
  destruct (length rand <? 32)%nat; [done|].
  destruct (Ref.X25519 (take 32 rand) Ref.Basepoint) as [pub|] eqn:Hx; [|done].
  by intros [= <-].
Qed.

Lemma xor_keystream_involutive (plaintext ks : bytes) :
  (length plaintext ≤ length ks)%nat →
  zip_with Z.lxor (zip_with Z.lxor plaintext ks) ks = plaintext.
Proof.
  revert ks. induction plaintext as [|x pt IH]; intros [|k ks] Hlen; simpl in *;
    try done; try lia.
  rewrite IH by lia. f_equal.
  by rewrite Z.lxor_assoc, Z.lxor_nilpotent, Z.lxor_0_r.
Qed.

Lemma ref_aead_round_trip (key nonce plaintext ad : bytes) :
  Ref.aead_Open key nonce (Ref.aead_Seal key nonce plaintext ad) ad = Ok plaintext.
Proof.
  unfold Ref.aead_Open, Ref.aead_Seal.
  set (ks := Ref.keystream key nonce (length plaintext)).
  assert (Hks : length ks = length plaintext) by apply le_encode_length.
  set (ct := zip_with Z.lxor plaintext ks).
  assert (Hct : length ct = length plaintext).
  { unfold ct. rewrite length_zip_with. lia. }
  assert (Htag : length (Ref.tag key nonce ct ad) = 16%nat) by apply le_encode_length.
  rewrite length_app, Htag, Hct.
  destruct (Nat.ltb_spec (length plaintext + 16) 16) as [?|_]; [lia|].
  replace (length plaintext + 16 - 16)%nat with (length ct) by lia.
  rewrite take_app_length, drop_app_length.
  rewrite bool_decide_eq_true_2 by done.
  f_equal. rewrite Hct. apply xor_keystream_involutive. fold ks. lia.
Qed.

(** Base64. *)
Lemma b64_index_char (n : Z) :
  0 ≤ n < 64 → Ref.b64_index (Ref.b64_char n) = Some n.
Proof.
  intros Hn.
  assert (Hall : Forall (λ i, Ref.b64_index (Ref.b64_char i) = Some i)
                        (seqZ 0 64)) by (by vm_compute; repeat constructor).
  rewrite Forall_forall in Hall. apply Hall.
  apply elem_of_seqZ. lia.
Qed.

Lemma b64_char_not_newline (n : Z) :
  0 ≤ n < 64 → Ref.is_newline (Ref.b64_char n) = false.
Proof.
  intros Hn.
  assert (Hall : Forall (λ i, Ref.is_newline (Ref.b64_char i) = false)
                        (seqZ 0 64)) by (by vm_compute; repeat constructor).
  rewrite Forall_forall in Hall. apply Hall.
  apply elem_of_seqZ. lia.
Qed.

(** Induction on byte strings three bytes at a time. *)
Lemma bytes_ind3 (P : bytes → Prop) :
  P [] → (∀ x, P [x]) → (∀ x y, P [x; y]) →
  (∀ x y z rest, P rest → P (x :: y :: z :: rest)) →
  ∀ b, P b.
Proof.
  intros H0 H1 H2 H3 b.
  assert (H : P b ∧ (∀ x, P (x :: b)) ∧ (∀ x y, P (x :: y :: b))).
  { induction b as [|z b (IH0 & IH1 & IH2)]; [by auto|].
    split_and!; [by auto | by auto |]. intros x y. by apply H3. }
  apply H.
Qed.

Lemma sextet_bounds (x y : Z) :
  is_byte x → is_byte y →
  0 ≤ x / 4 < 64 ∧ 0 ≤ x mod 4 * 16 + y / 16 < 64 ∧
  0 ≤ x mod 16 * 4 + y / 64 < 64 ∧ 0 ≤ x mod 64 < 64 ∧
  0 ≤ x mod 4 * 16 < 64 ∧ 0 ≤ x mod 16 * 4 < 64.
Proof. unfold is_byte. intros Hx Hy. repeat split; Z.div_mod_to_equations; lia. Qed.

Lemma b64_decode_encode (b : bytes) :
  Forall is_byte b →
  Ref.b64_decode (Ref.b64_index <$> Ref.b64_encode b) = Ok b.
Proof.
  induction b as [|x|x y|x y z rest IH] using bytes_ind3; intros Hb.
  - done.
  - apply Forall_cons in Hb as [Hx _].
    destruct (sextet_bounds x x Hx Hx) as (? & _ & _ & _ & ? & _).
    cbn [Ref.b64_encode fmap list_fmap].
    rewrite !b64_index_char by done. cbn [Ref.b64_decode].
    unfold is_byte in Hx.
    rewrite (proj2 (Z.eqb_eq _ _)) by (Z.div_mod_to_equations; lia).
    do 2 f_equal. Z.div_mod_to_equations; lia.
  - apply Forall_cons in Hb as [Hx Hb]. apply Forall_cons in Hb as [Hy _].
    destruct (sextet_bounds x y Hx Hy) as (? & ? & _ & _ & _ & _).
    destruct (sextet_bounds y y Hy Hy) as (_ & _ & _ & _ & _ & ?).
    cbn [Ref.b64_encode fmap list_fmap].
    rewrite !b64_index_char by done. cbn [Ref.b64_decode].
    unfold is_byte in Hx, Hy.
    rewrite (proj2 (Z.eqb_eq _ _)) by (Z.div_mod_to_equations; lia).
    f_equal. f_equal; [|f_equal]; Z.div_mod_to_equations; lia.
  - apply Forall_cons in Hb as [Hx Hb]. apply Forall_cons in Hb as [Hy Hb].
    apply Forall_cons in Hb as [Hz Hb].
    destruct (sextet_bounds x y Hx Hy) as (? & ? & _ & _ & _ & _).
    destruct (sextet_bounds y z Hy Hz) as (_ & _ & ? & _ & _ & _).
    destruct (sextet_bounds z z Hz Hz) as (_ & _ & _ & ? & _ & _).
    cbn [Ref.b64_encode fmap list_fmap].
    rewrite !b64_index_char by done. cbn [Ref.b64_decode].
    fold (fmap (M:=list) Ref.b64_index (Ref.b64_encode rest)).
    rewrite (IH Hb). unfold is_byte in Hx, Hy, Hz.
    f_equal. f_equal; [|f_equal; [|f_equal]]; Z.div_mod_to_equations; lia.
Qed.

Lemma b64_encode_no_newline (b : bytes) :
  Forall is_byte b →
  List.filter (λ c, negb (Ref.is_newline c)) (Ref.b64_encode b) = Ref.b64_encode b.
Proof.
  induction b as [|x|x y|x y z rest IH] using bytes_ind3; intros Hb.
  - done.
  - apply Forall_cons in Hb as [Hx _].
    destruct (sextet_bounds x x Hx Hx) as (? & _ & _ & _ & ? & _).
    cbn [Ref.b64_encode List.filter]. by rewrite !b64_char_not_newline.
  - apply Forall_cons in Hb as [Hx Hb]. apply Forall_cons in Hb as [Hy _].
    destruct (sextet_bounds x y Hx Hy) as (? & ? & _ & _ & _ & _).
    destruct (sextet_bounds y y Hy Hy) as (_ & _ & _ & _ & _ & ?).
    cbn [Ref.b64_encode List.filter]. by rewrite !b64_char_not_newline.
  - apply Forall_cons in Hb as [Hx Hb]. apply Forall_cons in Hb as [Hy Hb].
    apply Forall_cons in Hb as [Hz Hb].
    destruct (sextet_bounds x y Hx Hy) as (? & ? & _ & _ & _ & _).
    destruct (sextet_bounds y z Hy Hz) as (_ & _ & ? & _ & _ & _).
    destruct (sextet_bounds z z Hz Hz) as (_ & _ & _ & ? & _ & _).
    cbn [Ref.b64_encode List.filter]. rewrite !b64_char_not_newline by done.
    cbn [negb]. by rewrite (IH Hb).
Qed.

Lemma ref_b64_round_trip (b : bytes) :
  Forall is_byte b → Ref.b64_DecodeString (Ref.b64_EncodeToString b) = Ok b.
Proof.
  intros Hb. unfold Ref.b64_DecodeString, Ref.b64_EncodeToString.
  rewrite list_ascii_of_string_of_list_ascii, b64_encode_no_newline by done.
  by apply b64_decode_encode.
Qed.

(** [TrimSpace]. *)
Lemma trimLeft_head (s : string) :
  match Ref.trimLeft s with
  | EmptyString => True
  | String c _ => Ref.isSpace c = false
  end.
Proof.
  induction s as [|c s IH]; simpl; [done|].
  destruct (Ref.isSpace c) eqn:Hc; [done | by simpl].
Qed.

Lemma trimRight_idempotent (s : string) :
  Ref.trimRight (Ref.trimRight s) = Ref.trimRight s.
Proof.
  induction s as [|c s IH]; simpl; [done|].
  destruct (Ref.trimRight s) as [|d r] eqn:Hr.
  - destruct (Ref.isSpace c) eqn:Hc; simpl; [done | by rewrite Hc].
  - cbn [Ref.trimRight] in *. by rewrite IH.
Qed.

Lemma trimLeft_trimRight (s : string) :
  match s with
  | EmptyString => True
  | String c _ => Ref.isSpace c = false
  end →
  Ref.trimLeft (Ref.trimRight s) = Ref.trimRight s.
Proof.
  destruct s as [|c s]; simpl; [done|]. intros Hc.
  destruct (Ref.trimRight s); rewrite ?Hc; simpl; by rewrite Hc.
Qed.

Lemma ref_TrimSpace_idempotent (s : string) :
  Ref.TrimSpace (Ref.TrimSpace s) = Ref.TrimSpace s.
Proof.
  unfold Ref.TrimSpace.
  rewrite trimLeft_trimRight by apply trimLeft_head.
  apply trimRight_idempotent.
Qed.

Lemma ref_ParseDuration_empty (d : Z) : Ref.ParseDuration "" ≠ Ok d.
Proof. done. Qed.

Lemma ref_ParseDuration_zero : Ref.ParseDuration "0" = Ok 0.
Proof. reflexivity. Qed.

End RefLaws.

(** ** The properties on the example inputs *)

Section Witnesses.
#[local] Existing Instance ref_library.

Lemma wrap_unwrap_round_trip_witness :
  deriveX25519FromMnemonic Example.mnemonic = Ok (Example.priv, Example.pub) ∧
  Forall is_byte Example.fileKey ∧
  wrapX25519 Example.rand Example.pub Example.fileKey = Ok Example.stanzas ∧
  ∃ w', Unwrap_stanzas Example.priv Example.pub Example.stanzas Example.world =
        Done (Ok Example.fileKey) w'.
Proof.
  assert (H1 : deriveX25519FromMnemonic Example.mnemonic =
               Ok (Example.priv, Example.pub)) by (vm_compute; reflexivity).
  assert (H2 : Forall is_byte Example.fileKey) by (unfold Example.fileKey; decide_byte_list).
  assert (H3 : wrapX25519 Example.rand Example.pub Example.fileKey =
               Ok Example.stanzas) by (vm_compute; reflexivity).
  split_and!; [exact H1 | exact H2 | exact H3 |].
  exact (wrap_unwrap_round_trip
           ref_GenerateKey_public ref_X25519_output ref_X25519_agreement
           ref_b64_round_trip (λ key nonce pt ad _ _ _, ref_aead_round_trip key nonce pt ad)
           Example.mnemonic Example.rand Example.priv Example.pub Example.fileKey
           Example.stanzas Example.world H1 H2 H3).
Defined.

Lemma derive_clamps_sha512_prefix_witness :
  EntropyFromMnemonic Example.mnemonic = Ok Example.entropy ∧
  ∃ priv,
    clamped (vec_to_list (Sum512 Example.entropy)) priv ∧
    deriveX25519FromMnemonic Example.mnemonic =
      match X25519 priv Basepoint with
      | Ok pub => Ok (priv, pub)
      | Err e => Err (fmt_Errorf "X25519 scalar multiplication failed" e)
      end.
Proof.
  assert (H : EntropyFromMnemonic Example.mnemonic = Ok Example.entropy)
    by (vm_compute; reflexivity).
  split; [exact H|].
  exact (derive_clamps_sha512_prefix Example.mnemonic Example.entropy H).
Defined.

Lemma derive_deterministic_witness :
  EntropyFromMnemonic Example.mnemonic = Ok Example.entropy ∧
  EntropyFromMnemonic Example.mnemonic_spaced = Ok Example.entropy ∧
  deriveX25519FromMnemonic Example.mnemonic =
  deriveX25519FromMnemonic Example.mnemonic_spaced.
Proof.
  assert (H1 : EntropyFromMnemonic Example.mnemonic = Ok Example.entropy)
    by (vm_compute; reflexivity).
  assert (H2 : EntropyFromMnemonic Example.mnemonic_spaced = Ok Example.entropy)
    by (vm_compute; reflexivity).
  split_and!; [exact H1 | exact H2 |].
  exact (derive_deterministic _ _ _ H1 H2).
Defined.

Lemma malformed_stanza_is_skipped_witness :
  malformed_ephemeral Example.malformed_stanza ∧
  Bip39Identity_Unwrap (Example.identity "")
    (Example.scrypt_stanza :: Example.malformed_stanza ::
     Example.scrypt_stanza :: Example.stanzas)
    ExampleMore.world_cached =
  Done (Ok Example.fileKey)
    (add_trace [EvKeyctlSearch Example.cacheKeyName; EvKeyctlRead 1;
                EvUnwrapX25519 Example.malformed_stanza;
                EvUnwrapX25519 ExampleMore.wrapped]
       ExampleMore.world_cached).
Proof.
  assert (H : malformed_ephemeral Example.malformed_stanza).
  { split; [reflexivity|]. exists "not base64!"%string.
    split; [reflexivity | vm_compute; exact I]. }
  assert (Hacq : acquire_key (Example.identity "") ExampleMore.world_cached =
                 Done (Ok Example.priv)
                   (add_trace [EvKeyctlSearch Example.cacheKeyName; EvKeyctlRead 1]
                      ExampleMore.world_cached)) by reflexivity.
  assert (Hother : Forall (undecryptable Example.priv Example.pub)
                     [Example.scrypt_stanza]).
  { apply Forall_cons. split; [|by constructor].
    apply undecryptable_unwrap. left. discriminate. }
  assert (Hkey : decrypts_to Example.priv Example.pub ExampleMore.wrapped
                   Example.fileKey).
  { apply unwrapX25519_decrypts; [reflexivity | vm_compute; reflexivity]. }
  split; [exact H|].
  exact (proj1 (proj2 (proj2 (proj2 (proj2
           (malformed_stanza_is_skipped Example.malformed_stanza H)))))
           (Example.identity "") [Example.scrypt_stanza] [Example.scrypt_stanza]
           ExampleMore.wrapped [] Example.fileKey Example.priv
           ExampleMore.world_cached _ Hacq Hother Hother Hkey).
Defined.

Lemma Unwrap_mnemonic_mismatch_witness :
  Example.other_pub ≠ Example.pub ∧
  ∃ evs,
    Bip39Identity_Unwrap (Example.identity Example.other_mnemonic)
      Example.stanzas Example.world =
      Done (Err (errors_New "seed phrase does not match this identity"))
           (add_trace evs Example.world) ∧
    errors_New "seed phrase does not match this identity" ≠ ErrIncorrectIdentity ∧
    Forall (λ e, is_cache_write e = false ∧ is_unwrap_attempt e = false) evs.
Proof.
  assert (Hne : Example.other_pub ≠ Example.pub) by (vm_compute; discriminate).
  assert (Hhas : hasX25519 Example.stanzas = true) by reflexivity.
  assert (Hmiss :
    getCachedKey
      ("age-plugin-bip39:" +:+ fmt_x (publicKey (Example.identity Example.other_mnemonic)))
      Example.world =
    Done None (logged (EvKeyctlSearch Example.cacheKeyName) Example.world))
    by reflexivity.
  assert (Hvalid : IsMnemonicValid (TrimSpace Example.other_mnemonic) = true)
    by (vm_compute; reflexivity).
  assert (Hderive : deriveX25519FromMnemonic (TrimSpace Example.other_mnemonic) =
                    Ok (Example.other_priv, Example.other_pub))
    by (vm_compute; reflexivity).
  split; [exact Hne|].
  exact (Unwrap_mnemonic_mismatch (Example.identity Example.other_mnemonic)
           Example.stanzas Example.world
           (logged (EvKeyctlSearch Example.cacheKeyName) Example.world)
           Example.other_mnemonic Example.other_priv Example.other_pub
           Hhas Hmiss eq_refl Hvalid Hderive Hne).
Defined.

Lemma cacheTTL_policy_witness :
  cacheTTL Example.world = Done (10 * Minute)%Z Example.world ∧
  cacheTTL Example.world_no_cache = Done 0%Z Example.world_no_cache ∧
  cacheKey Example.cacheKeyName Example.priv Example.world_no_cache =
    Done () Example.world_no_cache ∧
  getCachedKey Example.cacheKeyName Example.world_no_cache =
    Done None Example.world_no_cache.
Proof.
  pose proof (cacheTTL_policy ref_ParseDuration_empty ref_ParseDuration_zero
                Example.world) as (Hunset & _).
  pose proof (cacheTTL_policy ref_ParseDuration_empty ref_ParseDuration_zero
                Example.world_no_cache) as (_ & Hzero & _ & _ & Hoff).
  assert (H0 : cacheTTL Example.world_no_cache = Done 0%Z Example.world_no_cache)
    by (apply Hzero; reflexivity).
  split_and!.
  - apply Hunset. reflexivity.
  - exact H0.
  - exact (proj1 (Hoff H0 Example.cacheKeyName Example.priv)).
  - exact (proj2 (Hoff H0 Example.cacheKeyName Example.priv)).
Defined.

Lemma Unwrap_without_X25519_stanza_witness :
  Forall (λ s, Type_ s ≠ "X25519") [Example.scrypt_stanza] ∧
  Bip39Identity_Unwrap (Example.identity Example.mnemonic)
    [Example.scrypt_stanza] Example.world =
  Done (Err ErrIncorrectIdentity) Example.world.
Proof.
  assert (H : Forall (λ s, Type_ s ≠ "X25519") [Example.scrypt_stanza])
    by (repeat constructor; simpl; discriminate).
  split; [exact H|].
  exact (Unwrap_without_X25519_stanza (Example.identity Example.mnemonic)
           [Example.scrypt_stanza] Example.world H).
Defined.

Lemma phrase_trimmed_before_use_witness :
  runKeygenNonInteractive (Ok (bytes_of_string Example.mnemonic_typed)) Example.now =
  runKeygenNonInteractive (Ok (bytes_of_string Example.mnemonic)) Example.now ∧
  Bip39Identity_Unwrap (Example.identity Example.mnemonic_typed)
    Example.stanzas Example.world =
  Bip39Identity_Unwrap (Example.identity Example.mnemonic)
    Example.stanzas Example.world.
Proof.
  pose proof (phrase_trimmed_before_use ref_TrimSpace_idempotent
                Example.mnemonic_typed) as (Hkeygen & Hunwrap & _).
  split.
  - exact (Hkeygen Example.now).
  - exact (Hunwrap (Example.host Example.mnemonic_typed)
             (Example.host Example.mnemonic) Example.pub Example.stanzas
             Example.world eq_refl eq_refl).
Defined.

(** C6. [getCachedKey] does not always return a key or "no cached key": when
    the key store holds, under the name asked for, a payload longer than the
    256-byte buffer, KEYCTL_READ reports its size, 300 here, and the slice
    expression [buf[:n]] panics; so does [Unwrap], before it prompts. *)
Theorem getCachedKey_oversized_payload_panics :
  getCachedKey Example.cacheKeyName Example.world_oversized =
    Panic "slice bounds out of range"
      (add_trace [EvKeyctlSearch Example.cacheKeyName; EvKeyctlRead 1]
         Example.world_oversized) ∧
  Bip39Identity_Unwrap (Example.identity Example.mnemonic) Example.stanzas
    Example.world_oversized =
    Panic "slice bounds out of range"
      (add_trace [EvKeyctlSearch Example.cacheKeyName; EvKeyctlRead 1]
         Example.world_oversized).
Proof. split; reflexivity. Qed.

(** The program on the example inputs: the right phrase unwraps the file key
    and stores the private key; the next [Unwrap] finds it and does not
    prompt (its host would answer with the empty phrase, which is refused
    when the cache is empty). *)
Example Unwrap_then_cached :
  let first := Bip39Identity_Unwrap (Example.identity Example.mnemonic_typed)
                 Example.stanzas Example.world in
  let second := Bip39Identity_Unwrap (Example.identity "") Example.stanzas
                  (world_after first) in
  value_of first = Some (Ok Example.fileKey) ∧
  value_of (getCachedKey Example.cacheKeyName (world_after first)) =
    Some (Some Example.priv) ∧
  value_of second = Some (Ok Example.fileKey) ∧
  trace (world_after second) =
    trace (world_after first) ++
    [EvKeyctlSearch Example.cacheKeyName; EvKeyctlRead 1] ++
    (EvUnwrapX25519 <$> Example.stanzas) ∧
  value_of (Bip39Identity_Unwrap (Example.identity "") Example.stanzas
              Example.world) =
    Some (Err (errors_New "invalid BIP39 mnemonic")).
Proof. split_and!; vm_compute; reflexivity. Qed.

(** The key generation on the example phrase. *)
Example keygen_output :
  runKeygenNonInteractive (Ok (bytes_of_string Example.mnemonic_typed)) Example.now =
  Ok [ "# created: 2026-01-01T00:00:00Z";
       "# public key: age1b8ce47655fb83f916d3a4bd8d9ff085b8ce90505556a3cb49c422dfe24f5c66c";
       "AGE-PLUGIN-bip39-1b8ce47655fb83f916d3a4bd8d9ff085b8ce90505556a3cb49c422dfe24f5c66c" ]%string.
Proof. vm_compute. reflexivity. Qed.

End Witnesses.

(** ** Further properties *)

Section MoreProperties.
Context `{L : Library}.
#[local] Arguments replicate : simpl never.

(** *** Comparison of byte strings *)

(** X1. [bytesEqual] returns [true] exactly when the two byte strings are
    equal: same length and the same bytes. *)
Theorem bytesEqual_iff_equal (a b : bytes) : bytesEqual a b = true ↔ a = b.
Proof. apply bytesEqual_eq. Qed.

(** *** Key cache *)

Lemma cacheTTL_add_trace (w : World) (d : Z) (evs : list event) :
  cacheTTL w = Done d w → cacheTTL (add_trace evs w) = Done d (add_trace evs w).
Proof.
  unfold cacheTTL, Getenv, mbind, M_bind, mret, M_ret. simpl.
  repeat case_match; intros [= <-]; done.
Qed.

Lemma cacheTTL_same_environ (w w' : World) (d : Z) :
  environ w' = environ w → cacheTTL w = Done d w → cacheTTL w' = Done d w'.
Proof.
  intros Henv. unfold cacheTTL, Getenv, mbind, M_bind, mret, M_ret. rewrite Henv.
  repeat case_match; intros [= <-]; done.
Qed.

(** X2. [getCachedKey] only reads: whether it returns or panics, the
    environment and the key store are as before and the calls it made are
    searches and reads of the key store; a key it returns has 32 bytes. *)
Theorem getCachedKey_read_only (name : string) (w : World) :
  ∃ evs,
    world_after (getCachedKey name w) = add_trace evs w ∧
    Forall (λ e, is_cache_read e = true) evs ∧
    ∀ k, value_of (getCachedKey name w) = Some (Some k) → length k = 32.
Proof.
  pose proof (getCachedKey_outcome name w) as Hout.
  destruct (getCachedKey name w) as [o w1|msg w1] eqn:Hget.
  - destruct Hout as [(evs & -> & Hevs) Hlen]. exists evs.
    split_and!; [done | done |]. intros k [= ->]. by apply Hlen.
  - clear Hout. revert Hget. unfold getCachedKey.
    destruct (cacheTTL_Done w) as [d Hd]. rewrite (bind_Done _ _ _ _ _ Hd).
    destruct (d =? 0)%Z; [done|].
    unfold mbind at 1, M_bind at 1, keyctl_search.
    destruct (KeyctlSearch _ _ _ _ _) as [id|e]; [|done].
    unfold mbind at 1, M_bind at 1, keyctl_buffer.
    destruct (KeyctlBuffer _ _ _ _ _) as [[n err] stored].
    destruct (bool_decide (err ≠ None) || (n <=? 0)%Z); [done|].
    unfold mbind, M_bind, slice_to.
    destruct (decide _) as [?|?]; simpl.
    + unfold mret, M_ret. repeat case_match; done.
    + intros [= <- <-]. exists [EvKeyctlSearch name; EvKeyctlRead id].
      split_and!; [by rewrite !logged_add_trace, add_trace_app | by repeat constructor | done].
Qed.

(** X4. [cacheKey] never fails or panics and leaves the environment alone;
    the calls it makes are none when the TTL is zero, and otherwise one
    [add_key] of the lower-case hexadecimal key under the given name,
    followed, only when [add_key] succeeded, by one setting of the timeout
    of the key that [add_key] returned to the TTL in whole seconds. *)
Theorem cacheKey_effects (name : string) (key : bytes) (w : World) (ttl : Z) :
  cacheTTL w = Done ttl w →
  ∃ w', cacheKey name key w = Done () w' ∧ environ w' = environ w ∧
    let payload := bytes_of_string (fmt_x key) in
    if (ttl =? 0)%Z then w' = w
    else
      match AddKey (keyring w) "user" name payload KEY_SPEC_USER_KEYRING with
      | (kr1, Err _) => trace w' = trace w ++ [EvAddKey name payload] ∧ keyring w' = kr1
      | (kr1, Ok id) =>
        trace w' = trace w ++ [EvAddKey name payload;
                               EvSetTimeout id (Duration_Seconds ttl)] ∧
        keyring w' = (KeyctlInt kr1 KEYCTL_SET_TIMEOUT id (Duration_Seconds ttl) 0 0).1
      end.
Proof.
  intros Httl. unfold cacheKey. rewrite (bind_Done _ _ _ _ _ Httl).
  destruct (ttl =? 0)%Z; [by eexists|].
  unfold mbind at 1, M_bind at 1, add_key.
  destruct (AddKey _ _ _ _ _) as [kr1 [id|e]]; [|by eexists].
  unfold mbind, M_bind, keyctl_int. simpl.
  destruct (KeyctlInt _ _ _ _ _ _) as [kr2 r]. eexists. split; [done|].
  simpl. by rewrite <- app_assoc.
Qed.

Section CacheRoundTrip.

Hypothesis hex_round_trip : ∀ b,
  Forall is_byte b → hex_DecodeString (fmt_x b) = Ok b.

Hypothesis fmt_x_length : ∀ b, length (bytes_of_string (fmt_x b)) = 2 * length b.

Lemma cacheKey_stored (name : string) (key : bytes) (w : World) (ttl : Z) :
  cacheTTL w = Done ttl w → ttl ≠ 0%Z →
  store_keeps (keyring w) name (bytes_of_string (fmt_x key)) (Duration_Seconds ttl) →
  ∃ w1 id',
    cacheKey name key w = Done () w1 ∧ environ w1 = environ w ∧
    (∃ evs, trace w1 = trace w ++ evs ∧ Forall (λ e, is_cache_write e = true) evs) ∧
    KeyctlSearch (keyring w1) KEY_SPEC_USER_KEYRING "user" name 0 = Ok id' ∧
    KeyctlBuffer (keyring w1) KEYCTL_READ id' 256 0 =
      (Z.of_nat (length (bytes_of_string (fmt_x key))), None,
       bytes_of_string (fmt_x key)).
Proof.
  intros Httl Hnz (kr1 & id & kr2 & r & id' & Hadd & Hint & Hsearch & Hread).
  unfold cacheKey. rewrite (bind_Done _ _ _ _ _ Httl).
  destruct (Z.eqb_spec ttl 0) as [?|_]; [done|].
  unfold mbind at 1, M_bind at 1, add_key. rewrite Hadd.
  unfold mbind, M_bind, keyctl_int. simpl. rewrite Hint.
  eexists _, id'. split_and!; [done | done | | done | done].
  eexists. simpl. rewrite <- app_assoc. split; [done | by repeat constructor].
Qed.

Lemma getCachedKey_found (name : string) (key : bytes) (w : World) (ttl id : Z) :
  cacheTTL w = Done ttl w → ttl ≠ 0%Z →
  length key = 32 → Forall is_byte key →
  KeyctlSearch (keyring w) KEY_SPEC_USER_KEYRING "user" name 0 = Ok id →
  KeyctlBuffer (keyring w) KEYCTL_READ id 256 0 =
    (Z.of_nat (length (bytes_of_string (fmt_x key))), None,
     bytes_of_string (fmt_x key)) →
  getCachedKey name w =
    Done (Some key) (add_trace [EvKeyctlSearch name; EvKeyctlRead id] w).
Proof.
  intros Httl Hnz Hlen Hbytes Hsearch Hread. unfold getCachedKey.
  rewrite (bind_Done _ _ _ _ _ Httl).
  destruct (Z.eqb_spec ttl 0) as [?|_]; [done|].
  unfold mbind at 1, M_bind at 1, keyctl_search. rewrite Hsearch.
  unfold mbind at 1, M_bind at 1, keyctl_buffer.
  rewrite length_replicate.
  change (keyring (logged (EvKeyctlSearch name) w)) with (keyring w).
  rewrite Hread. set (payload := bytes_of_string (fmt_x key)).
  assert (Hpl : length payload = 64) by (unfold payload; rewrite fmt_x_length; lia).
  rewrite Hpl. simpl.
  unfold mbind, M_bind, slice_to.
  rewrite copy_length, length_replicate.
  rewrite decide_True by lia. unfold mret, M_ret.
  assert (Hslice : take (Z.to_nat (Z.of_nat 64)) (copy (replicate 256 0%Z) payload)
                   = payload).
  { unfold copy. rewrite length_replicate, Hpl, Nat2Z.id.
    replace (256 `min` 64) with 64 by lia.
    rewrite take_app_le by (rewrite length_take; lia).
    rewrite take_take. replace (64 `min` 64) with (length payload) by lia.
    apply firstn_all. }
  rewrite Hslice. unfold payload.
  rewrite string_of_bytes_of_string, (hex_round_trip _ Hbytes), Hlen. simpl.
  by rewrite !logged_add_trace, add_trace_app.
Qed.

(** X5. A key of 32 bytes stored by [cacheKey] under a non-zero TTL is what
    the next [getCachedKey] of that name returns, provided the key store
    keeps what it is given. *)
Theorem cacheKey_getCachedKey_round_trip (name : string) (key : bytes)
  (w : World) (ttl : Z) :
  cacheTTL w = Done ttl w → ttl ≠ 0%Z →
  length key = 32 → Forall is_byte key →
  store_keeps (keyring w) name (bytes_of_string (fmt_x key)) (Duration_Seconds ttl) →
  ∃ w1 w2,
    cacheKey name key w = Done () w1 ∧
    getCachedKey name w1 = Done (Some key) w2.
Proof.
  intros Httl Hnz Hlen Hbytes Hstore.
  destruct (cacheKey_stored name key w ttl Httl Hnz Hstore)
    as (w1 & id' & Hput & Henv & _ & Hsearch & Hread).
  exists w1. eexists. split; [done|].
  eapply getCachedKey_found; try done.
  by apply (cacheTTL_same_environ w).
Qed.

End CacheRoundTrip.

(** *** Key derivation: the scalar *)

Lemma derive_private_key (mnemonic : string) (priv pub : bytes) :
  deriveX25519FromMnemonic mnemonic = Ok (priv, pub) →
  ∃ entropy t,
    EntropyFromMnemonic mnemonic = Ok entropy ∧
    t = take 32 (vec_to_list (Sum512 entropy)) ∧ length t = 32 ∧
    priv = <[31 := Z.lor (Z.land (t !!! 31) 127) 64]> (<[0 := Z.land (t !!! 0) 248]> t).
Proof.
  unfold deriveX25519FromMnemonic.
  destruct (EntropyFromMnemonic mnemonic) as [entropy|]; [|done].
  set (h := vec_to_list (Sum512 entropy)).
  assert (Hh : length h = 64) by apply length_vec_to_list.
  assert (Ht : length (take 32 h) = 32) by (rewrite length_take; lia).
  rewrite copy_same_length by (by rewrite length_replicate).
  destruct (X25519 _ Basepoint) as [p|]; [|done].
  intros [= <- <-]. exists entropy, (take 32 h). split_and!; [done | done | done |].
  set (t := take 32 h) in *.
  rewrite list_lookup_total_insert_eq by (rewrite !length_insert; lia).
  rewrite list_lookup_total_insert_ne by lia.
  apply list_insert_insert_eq.
Qed.

Lemma derive_private_length (mnemonic : string) (priv pub : bytes) :
  deriveX25519FromMnemonic mnemonic = Ok (priv, pub) → length priv = 32.
Proof.
  intros H. apply derive_private_key in H as (e & t & _ & _ & Ht & ->).
  by rewrite !length_insert.
Qed.

Lemma clamp_bits (x : Z) :
  is_byte x →
  is_byte (Z.land x 248) ∧ (Z.land x 248 mod 8 = 0)%Z ∧
  (64 ≤ Z.lor (Z.land x 127) 64 < 128)%Z.
Proof.
  intros Hx.
  assert (Hall : forallb (λ x, (0 <=? Z.land x 248)%Z && (Z.land x 248 <? 256)%Z &&
                               (Z.land x 248 mod 8 =? 0)%Z &&
                               (64 <=? Z.lor (Z.land x 127) 64)%Z &&
                               (Z.lor (Z.land x 127) 64 <? 128)%Z)
                         (seqZ 0 256) = true) by (vm_compute; reflexivity).
  rewrite forallb_forall in Hall.
  assert (Hin : In x (seqZ 0 256)).
  { apply list_elem_of_In, elem_of_seqZ. unfold is_byte in Hx. lia. }
  specialize (Hall x Hin). unfold is_byte. lia.
Qed.

Lemma little_endian_app (l1 l2 : bytes) :
  little_endian (l1 ++ l2) =
  (little_endian l1 + 256 ^ Z.of_nat (length l1) * little_endian l2)%Z.
Proof.
  induction l1 as [|x l1 IH]; simpl length.
  - simpl. lia.
  - cbn [app little_endian]. rewrite IH, Nat2Z.inj_succ, Z.pow_succ_r by lia. lia.
Qed.

Lemma little_endian_bound (l : bytes) :
  Forall is_byte l → (0 ≤ little_endian l < 256 ^ Z.of_nat (length l))%Z.
Proof.
  induction 1 as [|x l Hx _ IH]; simpl length.
  - simpl. lia.
  - cbn [little_endian]. rewrite Nat2Z.inj_succ, Z.pow_succ_r by lia.
    unfold is_byte in Hx. lia.
Qed.

Section Scalar.

(** SHA-512 returns bytes. *)
Hypothesis Sum512_bytes : ∀ m, Forall is_byte (vec_to_list (Sum512 m)).

Lemma derive_private_bytes (mnemonic : string) (priv pub : bytes) :
  deriveX25519FromMnemonic mnemonic = Ok (priv, pub) → Forall is_byte priv.
Proof.
  intros H. apply derive_private_key in H as (e & t & _ & Ht & Hlen & ->).
  assert (Hb : Forall is_byte t) by (rewrite Ht; apply Forall_take, Sum512_bytes).
  assert (H0 : is_byte (t !!! 0)).
  { apply (Forall_lookup_total_1 _ _ 0) in Hb; [done | lia]. }
  assert (H31 : is_byte (t !!! 31)).
  { apply (Forall_lookup_total_1 _ _ 31) in Hb; [done | lia]. }
  apply Forall_insert; [apply Forall_insert; [done|]|].
  - apply clamp_bits, H0.
  - destruct (clamp_bits _ H31) as (_ & _ & ?). unfold is_byte. lia.
Qed.

(** X11. The private key that the derivation returns is a clamped
    Curve25519 scalar: 32 bytes that, read as a little-endian integer, are a
    multiple of 8 between 2^254 and 2^255. *)
Theorem derive_private_scalar (mnemonic : string) (priv pub : bytes) :
  deriveX25519FromMnemonic mnemonic = Ok (priv, pub) →
  length priv = 32 ∧ Forall is_byte priv ∧
  (little_endian priv mod 8 = 0)%Z ∧
  (2 ^ 254 ≤ little_endian priv < 2 ^ 255)%Z.
Proof.
  intros H. pose proof (derive_private_bytes _ _ _ H) as Hbytes.
  pose proof (derive_private_length _ _ _ H) as Hlen.
  apply derive_private_key in H as (e & t & _ & Ht & Hlent & Hpriv).
  assert (Hb : Forall is_byte t) by (rewrite Ht; apply Forall_take, Sum512_bytes).
  assert (H0 : is_byte (t !!! 0)).
  { apply (Forall_lookup_total_1 _ _ 0) in Hb; [done | lia]. }
  assert (H31 : is_byte (t !!! 31)).
  { apply (Forall_lookup_total_1 _ _ 31) in Hb; [done | lia]. }
  destruct (clamp_bits _ H0) as (_ & Hlow & _).
  destruct (clamp_bits _ H31) as (_ & _ & Htop).
  split; [done|]. split; [done|]. split.
  - destruct t as [|a t']; [done|]. rewrite Hpriv. simpl.
    simpl in Hlow. set (A := Z.land a 248) in *.
    generalize (little_endian (<[30:=Z.lor (Z.land ((a :: t') !!! 31) 127) 64]> t')).
    intros R. Z.div_mod_to_equations. lia.
  - assert (Hsplit : priv = take 31 priv ++ [Z.lor (Z.land (t !!! 31) 127) 64]).
    { rewrite <- (firstn_all priv) at 1. rewrite Hlen.
      apply take_S_r. rewrite Hpriv.
      apply list_lookup_insert_eq. rewrite length_insert. lia. }
    rewrite Hsplit, little_endian_app.
    assert (Hl31 : length (take 31 priv) = 31) by (rewrite length_take; lia).
    pose proof (little_endian_bound (take 31 priv) (Forall_take _ _ _ Hbytes)) as Hlo.
    rewrite Hl31 in *. cbn [little_endian].
    change (2 ^ 254)%Z with (64 * 256 ^ Z.of_nat 31)%Z.
    change (2 ^ 255)%Z with (128 * 256 ^ Z.of_nat 31)%Z.
    set (P := (256 ^ Z.of_nat 31)%Z) in *.
    set (T := Z.lor (Z.land (t !!! 31) 127) 64) in *. nia.
Qed.

End Scalar.

(** *** The identity adapter: the paths of [Unwrap] *)

(** X6. On a cache hit [Unwrap] is the second loop run with the cached key:
    it does not prompt, derive or write to the cache, whatever the host
    would answer; the cached key is used as it is. *)
Theorem Unwrap_cache_hit (si : Bip39Identity) (stanzas : list Stanza)
  (w w1 : World) (cached : bytes) :
  hasX25519 stanzas = true →
  getCachedKey ("age-plugin-bip39:" ++ fmt_x (publicKey si)) w = Done (Some cached) w1 →
  Bip39Identity_Unwrap si stanzas w = Unwrap_stanzas cached (publicKey si) stanzas w1 ∧
  ∃ evs,
    world_after (Bip39Identity_Unwrap si stanzas w) = add_trace evs w ∧
    Forall (λ e, is_prompt e = false ∧ is_derivation e = false ∧
                 is_cache_write e = false) evs.
Proof.
  intros Hhas Hhit.
  assert (Heq : Bip39Identity_Unwrap si stanzas w =
                Unwrap_stanzas cached (publicKey si) stanzas w1).
  { unfold Bip39Identity_Unwrap. rewrite Hhas. simpl.
    by rewrite (bind_Done _ _ _ _ _ Hhit). }
  split; [done|]. rewrite Heq, Unwrap_stanzas_run. simpl.
  pose proof (getCachedKey_outcome ("age-plugin-bip39:" ++ fmt_x (publicKey si)) w)
    as Hout.
  rewrite Hhit in Hout. destruct Hout as [(evs & -> & Hevs) _].
  eexists. rewrite add_trace_app. split; [done|].
  apply Forall_app. split.
  - eapply Forall_impl; [exact Hevs|]. by intros [] ?.
  - apply Forall_fmap, Forall_true. done.
Qed.

(** X7. When the cache has no key and the host fails to return a phrase, or
    returns one that is not a valid mnemonic, [Unwrap] returns the
    corresponding error after the prompt: nothing is derived, nothing is
    written to the cache and no stanza is tried. *)
Theorem Unwrap_rejected_at_prompt (si : Bip39Identity) (stanzas : list Stanza)
  (w w1 : World) :
  hasX25519 stanzas = true →
  getCachedKey ("age-plugin-bip39:" ++ fmt_x (publicKey si)) w = Done None w1 →
  let prompted := logged (EvRequestValue "Enter your BIP39 seed phrase" true) w1 in
  (∀ e, RequestValue (plugin si) "Enter your BIP39 seed phrase" true = Err e →
     Bip39Identity_Unwrap si stanzas w =
     Done (Err (fmt_Errorf "failed to request seed phrase" e)) prompted) ∧
  (∀ phrase,
     RequestValue (plugin si) "Enter your BIP39 seed phrase" true = Ok phrase →
     IsMnemonicValid (TrimSpace phrase) = false →
     Bip39Identity_Unwrap si stanzas w =
     Done (Err (errors_New "invalid BIP39 mnemonic")) prompted) ∧
  ∃ evs, prompted = add_trace evs w ∧
    Forall (λ e, is_derivation e = false ∧ is_cache_write e = false ∧
                 is_unwrap_attempt e = false) evs.
Proof.
  intros Hhas Hmiss prompted. split_and!.
  - intros e Hreq. unfold Bip39Identity_Unwrap. rewrite Hhas. simpl.
    rewrite (bind_Done _ _ _ _ _ Hmiss).
    unfold mbind, M_bind, log. by rewrite Hreq.
  - intros phrase Hreq Hinvalid. unfold Bip39Identity_Unwrap. rewrite Hhas. simpl.
    rewrite (bind_Done _ _ _ _ _ Hmiss).
    unfold mbind, M_bind, log. by rewrite Hreq, Hinvalid.
  - pose proof (getCachedKey_outcome ("age-plugin-bip39:" ++ fmt_x (publicKey si)) w)
      as Hout.
    rewrite Hmiss in Hout. destruct Hout as [(evs & -> & Hevs) _].
    exists (evs ++ [EvRequestValue "Enter your BIP39 seed phrase" true]).
    split; [by unfold prompted; rewrite logged_add_trace, add_trace_app|].
    apply Forall_app. split.
    + eapply Forall_impl; [exact Hevs|]. by intros [] ?.
    + by repeat constructor.
Qed.

Lemma getCachedKey_disabled (name : string) (w : World) :
  cacheTTL w = Done 0%Z w → getCachedKey name w = Done None w.
Proof. intros Hz. unfold getCachedKey. by rewrite (bind_Done _ _ _ _ _ Hz). Qed.

Lemma cacheKey_disabled (name : string) (key : bytes) (w : World) :
  cacheTTL w = Done 0%Z w → cacheKey name key w = Done () w.
Proof. intros Hz. unfold cacheKey. by rewrite (bind_Done _ _ _ _ _ Hz). Qed.

(** X8. With a TTL of zero [Unwrap] never talks to the key store: whatever
    the stanzas, the host and the phrase, it ends without a panic, the key
    store is as before and its trace has no keyctl call. *)
Theorem Unwrap_cache_disabled (si : Bip39Identity) (stanzas : list Stanza)
  (w : World) :
  cacheTTL w = Done 0%Z w →
  ∃ r evs,
    Bip39Identity_Unwrap si stanzas w = Done r (add_trace evs w) ∧
    Forall (λ e, is_keyctl e = false) evs.
Proof.
  intros Hz. unfold Bip39Identity_Unwrap.
  destruct (hasX25519 stanzas); simpl.
  2:{ exists (Err ErrIncorrectIdentity), []. by rewrite add_trace_nil. }
  rewrite (bind_Done _ _ _ _ _ (getCachedKey_disabled _ _ Hz)).
  unfold mbind at 1, M_bind at 1, log.
  destruct (RequestValue _ _ _) as [phrase|e].
  2:{ eexists _, [_]. split; [done | by repeat constructor]. }
  destruct (IsMnemonicValid _); simpl.
  2:{ eexists _, [_]. split; [done | by repeat constructor]. }
  unfold mbind at 1, M_bind at 1.
  destruct (deriveX25519FromMnemonic _) as [[priv pub]|e].
  2:{ eexists _, [_; _]. split; [by rewrite !logged_add_trace, add_trace_app|].
      by repeat constructor. }
  destruct (bytesEqual _ _); simpl.
  2:{ eexists _, [_; _]. split; [by rewrite !logged_add_trace, add_trace_app|].
      by repeat constructor. }
  rewrite !logged_add_trace, add_trace_app.
  rewrite (bind_Done _ _ _ _ _
             (cacheKey_disabled _ _ _ (cacheTTL_add_trace _ _ _ Hz))).
  rewrite Unwrap_stanzas_run, add_trace_app. eexists _, _. split; [done|].
  apply Forall_app. split; [by repeat constructor|].
  apply Forall_fmap, Forall_true. done.
Qed.

Lemma hasX25519_filter (stanzas : list Stanza) :
  hasX25519 (filter (λ s, Type_ s = "X25519") stanzas) = hasX25519 stanzas.
Proof.
  induction stanzas as [|st rest IH]; [done|].
  rewrite filter_cons. simpl.
  destruct (String.eqb_spec (Type_ st) "X25519") as [Hty|Hty].
  - rewrite decide_True by done. simpl. by rewrite (proj2 (String.eqb_eq _ _) Hty).
  - by rewrite decide_False.
Qed.

Lemma Unwrap_stanzas_filter (sk pk : bytes) (stanzas : list Stanza) (w : World) :
  Unwrap_stanzas sk pk (filter (λ s, Type_ s = "X25519") stanzas) w =
  Unwrap_stanzas sk pk stanzas w.
Proof.
  revert w. induction stanzas as [|st rest IH]; intros w; [done|].
  rewrite filter_cons. simpl.
  destruct (String.eqb_spec (Type_ st) "X25519") as [Hty|Hty].
  - rewrite decide_True by done. simpl.
    rewrite (proj2 (String.eqb_eq _ _) Hty). simpl.
    unfold mbind, M_bind, log.
    destruct (unwrapX25519 sk pk st); [done | apply IH].
  - rewrite decide_False by done. simpl. apply IH.
Qed.

(** X12. Stanzas of other types are ignored: [Unwrap] does on a sequence
    exactly what it does on its stanzas of type X25519, in result, key store
    and trace. *)
Theorem Unwrap_ignores_other_types (si : Bip39Identity) (stanzas : list Stanza)
  (w : World) :
  Bip39Identity_Unwrap si (filter (λ s, Type_ s = "X25519") stanzas) w =
  Bip39Identity_Unwrap si stanzas w.
Proof.
  destruct (hasX25519 stanzas) eqn:Hhas.
  - rewrite !Unwrap_acquire_then_loop by (by rewrite ?hasX25519_filter).
    unfold mbind, M_bind.
    destruct (acquire_key si w) as [[sk|e] w1|]; [|done|done].
    apply Unwrap_stanzas_filter.
  - unfold Bip39Identity_Unwrap. by rewrite hasX25519_filter, Hhas.
Qed.

Lemma acquire_key_length (si : Bip39Identity) (w w1 : World) (sk : bytes) :
  acquire_key si w = Done (Ok sk) w1 → length sk = 32.
Proof.
  unfold acquire_key.
  pose proof (getCachedKey_outcome ("age-plugin-bip39:" ++ fmt_x (publicKey si)) w)
    as Hout.
  unfold mbind at 1, M_bind at 1.
  destruct (getCachedKey _ w) as [[cached|] w0|]; [| |done].
  - intros [= <- _]. by apply Hout.
  - unfold mbind at 1, M_bind at 1, log.
    destruct (RequestValue _ _ _) as [phrase|]; [|done].
    destruct (IsMnemonicValid _); simpl; [|done].
    unfold mbind at 1, M_bind at 1.
    destruct (deriveX25519FromMnemonic _) as [[priv pub]|] eqn:Hd; [|done].
    destruct (bytesEqual _ _); simpl; [|done].
    unfold mbind, M_bind.
    destruct (cacheKey _ _ _) as [[] w2|]; [|done].
    intros [= <- _]. by eapply derive_private_length.
Qed.

(** X13. A file key that [Unwrap] returns is always what one of the given
    stanzas decrypts to, under a 32-byte private key and the public key of
    the identity. *)
Theorem Unwrap_returns_decrypted_key (si : Bip39Identity) (stanzas : list Stanza)
  (w w' : World) (fileKey : bytes) :
  Bip39Identity_Unwrap si stanzas w = Done (Ok fileKey) w' →
  ∃ sk st, length sk = 32 ∧ st ∈ stanzas ∧
    decrypts_to sk (publicKey si) st fileKey.
Proof.
  destruct (hasX25519 stanzas) eqn:Hhas.
  2:{ unfold Bip39Identity_Unwrap. by rewrite Hhas. }
  rewrite Unwrap_acquire_then_loop by done. unfold mbind, M_bind.
  destruct (acquire_key si w) as [[sk|e] w1|] eqn:Hacq; [|done|done].
  rewrite Unwrap_stanzas_run.
  destruct (first_key sk (publicKey si) stanzas) as [k|] eqn:Hfirst; [|done].
  intros [= <- _]. apply first_key_Some in Hfirst as (pre & st & post & -> & _ & Hk).
  exists sk, st. split_and!; [by eapply acquire_key_length | | done].
  apply elem_of_app. right. by left.
Qed.

Section Cached.

Hypothesis hex_round_trip : ∀ b,
  Forall is_byte b → hex_DecodeString (fmt_x b) = Ok b.
Hypothesis fmt_x_length : ∀ b, length (bytes_of_string (fmt_x b)) = 2 * length b.
Hypothesis Sum512_bytes : ∀ m, Forall is_byte (vec_to_list (Sum512 m)).

(** X9. After an [Unwrap] that obtained the key from the phrase, with a
    non-zero TTL and a key store that keeps what it is given, the next
    [Unwrap] of the same identity returns the same result from the cached
    key: it does not prompt, derive or write, whatever its host would
    answer. *)
Theorem Unwrap_again_from_cache (si : Bip39Identity) (stanzas : list Stanza)
  (w w1 : World) (ttl : Z) (phrase : string) (priv : bytes) :
  hasX25519 stanzas = true →
  cacheTTL w = Done ttl w → ttl ≠ 0%Z →
  getCachedKey ("age-plugin-bip39:" ++ fmt_x (publicKey si)) w = Done None w1 →
  RequestValue (plugin si) "Enter your BIP39 seed phrase" true = Ok phrase →
  IsMnemonicValid (TrimSpace phrase) = true →
  deriveX25519FromMnemonic (TrimSpace phrase) = Ok (priv, publicKey si) →
  store_keeps (keyring w) ("age-plugin-bip39:" ++ fmt_x (publicKey si))
    (bytes_of_string (fmt_x priv)) (Duration_Seconds ttl) →
  ∃ r w2,
    Bip39Identity_Unwrap si stanzas w = Done r w2 ∧
    ∀ p', ∃ evs,
      Bip39Identity_Unwrap {| plugin := p'; publicKey := publicKey si |} stanzas w2 =
        Done r (add_trace evs w2) ∧
      Forall (λ e, is_prompt e = false ∧ is_derivation e = false ∧
                   is_cache_write e = false) evs.
Proof.
  intros Hhas Httl Hnz Hmiss Hreq Hvalid Hderive Hstore.
  set (name := ("age-plugin-bip39:" ++ fmt_x (publicKey si))%string) in *.
  pose proof (getCachedKey_outcome name w) as Hout.
  rewrite Hmiss in Hout. destruct Hout as [(evs0 & -> & _) _].
  set (wp := logged (EvDerive (TrimSpace phrase))
               (logged (EvRequestValue "Enter your BIP39 seed phrase" true)
                  (add_trace evs0 w))).
  assert (Httl_p : cacheTTL wp = Done ttl wp) by (by apply (cacheTTL_same_environ w)).
  destruct (cacheKey_stored name priv wp ttl Httl_p Hnz Hstore)
    as (wc & id' & Hput & Henv & _ & Hsearch & Hread).
  pose proof (derive_private_length _ _ _ Hderive) as Hlen.
  pose proof (derive_private_bytes Sum512_bytes _ _ _ Hderive) as Hbytes.
  set (r := key_or_incorrect (first_key priv (publicKey si) stanzas)).
  set (tried := EvUnwrapX25519 <$> attempts priv (publicKey si) stanzas).
  exists r, (add_trace tried wc). split.
  - unfold Bip39Identity_Unwrap. rewrite Hhas. simpl. fold name.
    rewrite (bind_Done _ _ _ _ _ Hmiss).
    unfold mbind at 1, M_bind at 1, log. rewrite Hreq, Hvalid. simpl.
    unfold mbind at 1, M_bind at 1. rewrite Hderive.
    rewrite (proj2 (bytesEqual_eq _ _) eq_refl). simpl.
    fold wp. rewrite (bind_Done _ _ _ _ _ Hput).
    apply Unwrap_stanzas_run.
  - intros p'.
    assert (Hfound : getCachedKey name (add_trace tried wc) =
      Done (Some priv)
        (add_trace [EvKeyctlSearch name; EvKeyctlRead id'] (add_trace tried wc))).
    { apply (getCachedKey_found hex_round_trip fmt_x_length _ _ _ ttl);
        try done.
      apply (cacheTTL_same_environ w); [|done]. simpl. by rewrite Henv. }
    exists ([EvKeyctlSearch name; EvKeyctlRead id'] ++ tried). split.
    + unfold Bip39Identity_Unwrap. rewrite Hhas. simpl. fold name.
      rewrite (bind_Done _ _ _ _ _ Hfound).
      by rewrite Unwrap_stanzas_run, add_trace_app.
    + apply Forall_app. split; [by repeat constructor|].
      apply Forall_fmap, Forall_true. done.
Qed.

End Cached.

(** *** What the key generation prints *)

(** X15. The lines that [outputIdentity] prints depend on the phrase through
    the public key only: two phrases with the same public key print the
    same lines, whatever their private keys. *)
Theorem outputIdentity_public_only (now mnemonic1 mnemonic2 : string)
  (priv1 priv2 pub : bytes) :
  deriveX25519FromMnemonic mnemonic1 = Ok (priv1, pub) →
  deriveX25519FromMnemonic mnemonic2 = Ok (priv2, pub) →
  outputIdentity now mnemonic1 = outputIdentity now mnemonic2.
Proof. intros H1 H2. unfold outputIdentity. by rewrite H1, H2. Qed.

(** *** Wrapping *)

Section Wrapping.

Hypothesis GenerateKey_public : ∀ rand k,
  GenerateKey rand = Ok k → X25519 (Bytes k) Basepoint = Ok (PublicKey_Bytes k).
Hypothesis X25519_output : ∀ scalar point r,
  X25519 scalar point = Ok r → length r = 32 ∧ Forall is_byte r.
Hypothesis b64_round_trip : ∀ b,
  Forall is_byte b → b64_DecodeString (b64_EncodeToString b) = Ok b.

(** X14. When [wrapX25519] succeeds it returns exactly one stanza, of type
    X25519, whose single argument decodes to the 32 bytes of the ephemeral
    public key: a stanza that no identity skips as malformed. *)
Theorem wrapX25519_one_well_formed_stanza (rand : RandReader)
  (recipientPubKey fileKey : bytes) (stanzas : list Stanza) :
  wrapX25519 rand recipientPubKey fileKey = Ok stanzas →
  ∃ st ephemeral,
    stanzas = [st] ∧ Type_ st = "X25519" ∧
    GenerateKey rand = Ok ephemeral ∧
    Args st = [b64_EncodeToString (PublicKey_Bytes ephemeral)] ∧
    b64_DecodeString (b64_EncodeToString (PublicKey_Bytes ephemeral)) =
      Ok (PublicKey_Bytes ephemeral) ∧
    length (PublicKey_Bytes ephemeral) = 32 ∧
    ¬ malformed_ephemeral st.
Proof.
  unfold wrapX25519.
  destruct (GenerateKey rand) as [eph|] eqn:Hgen; [|done].
  destruct (X25519 (Bytes eph) recipientPubKey) as [ss|]; [|done].
  destruct (hkdf_ReadFull ss _ _ _) as [wk|]; [|done].
  destruct (aeadEncrypt wk fileKey) as [body|]; [|done].
  intros [= <-].
  destruct (X25519_output _ _ _ (GenerateKey_public _ _ Hgen)) as [Hlen Hbytes].
  pose proof (b64_round_trip _ Hbytes) as Hdec.
  eexists _, eph. split_and!; try done.
  intros [_ (arg & [= <-] & Hbad)]. simpl in Hbad. by rewrite Hdec in Hbad.
Qed.

End Wrapping.

(** *** The handlers of [main] *)

Section Handled.

Hypothesis GenerateKey_public : ∀ rand k,
  GenerateKey rand = Ok k → X25519 (Bytes k) Basepoint = Ok (PublicKey_Bytes k).
Hypothesis X25519_output : ∀ scalar point r,
  X25519 scalar point = Ok r → length r = 32 ∧ Forall is_byte r.
Hypothesis X25519_agreement : ∀ a b A B,
  X25519 a Basepoint = Ok A → X25519 b Basepoint = Ok B →
  X25519 a B = X25519 b A.
Hypothesis b64_round_trip : ∀ b,
  Forall is_byte b → b64_DecodeString (b64_EncodeToString b) = Ok b.
Hypothesis aead_round_trip : ∀ key nonce plaintext ad,
  length key = KeySize → length nonce = NonceSize → Forall is_byte plaintext →
  aead_Open key nonce (aead_Seal key nonce plaintext ad) ad = Ok plaintext.

(** X10. The two handlers of [main] accept the 32 bytes of an identity file
    and build from them an identity and a recipient that fit together: what
    the recipient wraps, the identity unwraps, on a cache miss, with the
    phrase whose public key is in the file; and they refuse data of any
    other length. *)
Theorem identity_file_round_trip (p : Plugin) (data : bytes) :
  (length data ≠ 32 →
     (∃ e, main_HandleIdentity p data = Err e) ∧
     (∃ e, main_HandleIdentityAsRecipient data = Err e)) ∧
  (length data = 32 →
     ∃ si sr,
       main_HandleIdentity p data = Ok si ∧
       main_HandleIdentityAsRecipient data = Ok sr ∧
       publicKey si = data ∧ recipientPublicKey sr = data ∧
       ∀ rand phrase s K stanzas w w1,
         getCachedKey ("age-plugin-bip39:" ++ fmt_x data) w = Done None w1 →
         RequestValue p "Enter your BIP39 seed phrase" true = Ok phrase →
         IsMnemonicValid (TrimSpace phrase) = true →
         deriveX25519FromMnemonic (TrimSpace phrase) = Ok (s, data) →
         Forall is_byte K →
         Bip39Recipient_Wrap sr rand K = Ok stanzas →
         ∃ w', Bip39Identity_Unwrap si stanzas w = Done (Ok K) w').
Proof.
  unfold main_HandleIdentity, main_HandleIdentityAsRecipient. split.
  - intros Hlen. destruct (Nat.eqb_spec (length data) 32); [done|].
    simpl. split; by eexists.
  - intros Hlen. rewrite Hlen. simpl. eexists _, _. split_and!; try done.
    intros rand phrase s K stanzas w w1 Hmiss Hreq Hvalid Hderive HK Hwrap.
    by eapply (Unwrap_Wrap_round_trip GenerateKey_public X25519_output
                 X25519_agreement b64_round_trip aead_round_trip
                 {| plugin := p; publicKey := data |}).
Qed.

End Handled.

End MoreProperties.

(** ** The reference library: further laws *)

Section RefLawsMore.
Local Open Scope Z_scope.

Lemma hex_value_char (n : Z) :
  0 ≤ n < 16 → Ref.hex_value (Ref.hex_char n) = Some n.
Proof.
  intros Hn.
  assert (Hall : Forall (λ i, Ref.hex_value (Ref.hex_char i) = Some i) (seqZ 0 16))
    by (by vm_compute; repeat constructor).
  rewrite Forall_forall in Hall. apply Hall. apply elem_of_seqZ. lia.
Qed.

Lemma hex_decode_encode (b : bytes) :
  Forall is_byte b → Ref.hex_decode (Ref.hex_encode b) = Ok b.
Proof.
  induction 1 as [|x b Hx _ IH]; [done|].
  unfold is_byte in Hx. cbn [Ref.hex_encode Ref.hex_decode].
  rewrite !hex_value_char by (Z.div_mod_to_equations; lia).
  rewrite IH. do 2 f_equal. Z.div_mod_to_equations; lia.
Qed.

Lemma ref_hex_round_trip (b : bytes) :
  Forall is_byte b → Ref.hex_DecodeString (Ref.fmt_x b) = Ok b.
Proof.
  intros Hb. unfold Ref.hex_DecodeString, Ref.fmt_x.
  rewrite list_ascii_of_string_of_list_ascii. by apply hex_decode_encode.
Qed.

Lemma ref_fmt_x_length (b : bytes) :
  length (bytes_of_string (Ref.fmt_x b)) = (2 * length b)%nat.
Proof.
  unfold bytes_of_string, Ref.fmt_x.
  rewrite length_fmap, list_ascii_of_string_of_list_ascii.
  induction b as [|x b IH]; simpl; [done | lia].
Qed.

Lemma digest_lookup_byte (n : nat) (m : bytes) (i : nat) :
  is_byte (Ref.digest n m !!! i).
Proof.
  destruct (decide (i < n)%nat) as [Hi|Hi].
  - eapply (Forall_lookup_total_1 is_byte); [apply le_encode_bytes|].
    unfold Ref.digest. by rewrite le_encode_length.
  - rewrite list_lookup_total_alt, lookup_ge_None_2; [done|].
    unfold Ref.digest. rewrite le_encode_length. lia.
Qed.

Lemma ref_Sum512_bytes (m : bytes) : Forall is_byte (vec_to_list (Ref.Sum512 m)).
Proof.
  apply Forall_vlookup. intros i. unfold Ref.Sum512.
  rewrite lookup_fun_to_vec. apply digest_lookup_byte.
Qed.

End RefLawsMore.

(** ** The further properties on the example inputs *)

Section WitnessesMore.
#[local] Existing Instance ref_library.

Lemma Done_of_value {A} (o : Outcome A) (a : A) :
  value_of o = Some a → o = Done a (world_after o).
Proof. destruct o; [by intros [= ->] | done]. Qed.

Lemma example_store_keeps :
  store_keeps (keyring Example.world) Example.cacheKeyName ExampleMore.payload
    (Duration_Seconds ExampleMore.ten_minutes).
Proof.
  exists (Ref.mkKeyring
            {[ 1%Z := Ref.mkKey Example.cacheKeyName ExampleMore.payload None ]} 2),
         1%Z, (keyring ExampleMore.world_cached), (Ok 0%Z), 1%Z.
  split_and!; reflexivity.
Qed.

Lemma getCachedKey_within_buffer_witness :
  ∃ o w1, getCachedKey Example.cacheKeyName ExampleMore.world_cached = Done o w1 ∧
    keyring w1 = keyring ExampleMore.world_cached ∧
    environ w1 = environ ExampleMore.world_cached ∧
    (∀ k, o = Some k → length k = 32).
Proof.
  apply getCachedKey_within_buffer.
  intros id n stored. simpl. unfold Ref.KeyctlBuffer. simpl.
  destruct (decide (id = 1%Z)) as [->|Hne].
  - rewrite lookup_singleton_eq. intros [= <- _]. vm_compute. discriminate.
  - rewrite lookup_singleton_ne by done. discriminate.
Defined.

Lemma cacheKey_effects_witness :
  cacheTTL Example.world = Done ExampleMore.ten_minutes Example.world ∧
  ∃ w', cacheKey Example.cacheKeyName Example.priv Example.world = Done () w' ∧
    environ w' = environ Example.world ∧
    trace w' = [EvAddKey Example.cacheKeyName ExampleMore.payload;
                EvSetTimeout 1 600] ∧
    keyring w' = keyring ExampleMore.world_cached.
Proof.
  assert (Httl : cacheTTL Example.world =
                 Done ExampleMore.ten_minutes Example.world) by reflexivity.
  split; [exact Httl|].
  destruct (cacheKey_effects Example.cacheKeyName Example.priv Example.world
              ExampleMore.ten_minutes Httl) as (w' & Hput & Henv & Heff).
  exists w'. split_and!; [exact Hput | exact Henv | exact (proj1 Heff) | exact (proj2 Heff)].
Defined.

Lemma cacheKey_getCachedKey_round_trip_witness :
  ∃ w1 w2,
    cacheKey Example.cacheKeyName Example.priv Example.world = Done () w1 ∧
    getCachedKey Example.cacheKeyName w1 = Done (Some Example.priv) w2.
Proof.
  refine (cacheKey_getCachedKey_round_trip ref_hex_round_trip ref_fmt_x_length
            Example.cacheKeyName Example.priv Example.world ExampleMore.ten_minutes
            _ _ _ _ example_store_keeps).
  - reflexivity.
  - discriminate.
  - reflexivity.
  - unfold Example.priv. decide_byte_list.
Defined.

Lemma Unwrap_cache_hit_witness :
  Bip39Identity_Unwrap (Example.identity "") Example.stanzas ExampleMore.world_cached =
  Unwrap_stanzas Example.priv Example.pub Example.stanzas
    (add_trace [EvKeyctlSearch Example.cacheKeyName; EvKeyctlRead 1]
       ExampleMore.world_cached) ∧
  ∃ evs,
    world_after (Bip39Identity_Unwrap (Example.identity "") Example.stanzas
                   ExampleMore.world_cached) =
      add_trace evs ExampleMore.world_cached ∧
    Forall (λ e, is_prompt e = false ∧ is_derivation e = false ∧
                 is_cache_write e = false) evs.
Proof.
  refine (Unwrap_cache_hit (Example.identity "") Example.stanzas
            ExampleMore.world_cached
            (add_trace [EvKeyctlSearch Example.cacheKeyName; EvKeyctlRead 1]
               ExampleMore.world_cached)
            Example.priv _ _); reflexivity.
Defined.

Lemma Unwrap_rejected_at_prompt_witness :
  Bip39Identity_Unwrap
    {| plugin := ExampleMore.failing_host; publicKey := Example.pub |}
    Example.stanzas Example.world =
  Done (Err (fmt_Errorf "failed to request seed phrase"
               (errors_New "plugin: request failed")))
       (add_trace [EvKeyctlSearch Example.cacheKeyName;
                   EvRequestValue "Enter your BIP39 seed phrase" true]
          Example.world) ∧
  Bip39Identity_Unwrap (Example.identity "no phrase") Example.stanzas Example.world =
  Done (Err (errors_New "invalid BIP39 mnemonic"))
       (add_trace [EvKeyctlSearch Example.cacheKeyName;
                   EvRequestValue "Enter your BIP39 seed phrase" true]
          Example.world).
Proof.
  split.
  - refine (proj1 (Unwrap_rejected_at_prompt (L := ref_library)
              {| plugin := ExampleMore.failing_host; publicKey := Example.pub |}
              Example.stanzas Example.world
              (logged (EvKeyctlSearch Example.cacheKeyName) Example.world) _ _)
              (errors_New "plugin: request failed") _); reflexivity.
  - refine (proj1 (proj2 (Unwrap_rejected_at_prompt (L := ref_library)
              (Example.identity "no phrase") Example.stanzas Example.world
              (logged (EvKeyctlSearch Example.cacheKeyName) Example.world) _ _))
              "no phrase"%string _ _); reflexivity.
Defined.

Lemma Unwrap_cache_disabled_witness :
  ∃ r evs,
    Bip39Identity_Unwrap (Example.identity Example.mnemonic_typed) Example.stanzas
      Example.world_no_cache = Done r (add_trace evs Example.world_no_cache) ∧
    Forall (λ e, is_keyctl e = false) evs.
Proof.
  refine (Unwrap_cache_disabled (Example.identity Example.mnemonic_typed)
            Example.stanzas Example.world_no_cache _).
  reflexivity.
Defined.

Lemma Unwrap_again_from_cache_witness :
  ∃ r w2,
    Bip39Identity_Unwrap (Example.identity Example.mnemonic_typed) Example.stanzas
      Example.world = Done r w2 ∧
    ∀ p', ∃ evs,
      Bip39Identity_Unwrap {| plugin := p'; publicKey := Example.pub |}
        Example.stanzas w2 = Done r (add_trace evs w2) ∧
      Forall (λ e, is_prompt e = false ∧ is_derivation e = false ∧
                   is_cache_write e = false) evs.
Proof.
  assert (Hvalid : IsMnemonicValid (TrimSpace Example.mnemonic_typed) = true)
    by (vm_compute; reflexivity).
  assert (Hderive : deriveX25519FromMnemonic (TrimSpace Example.mnemonic_typed) =
                    Ok (Example.priv, Example.pub)) by (vm_compute; reflexivity).
  refine (Unwrap_again_from_cache ref_hex_round_trip ref_fmt_x_length
            ref_Sum512_bytes (Example.identity Example.mnemonic_typed)
            Example.stanzas Example.world
            (logged (EvKeyctlSearch Example.cacheKeyName) Example.world)
            ExampleMore.ten_minutes Example.mnemonic_typed Example.priv
            _ _ _ _ _ Hvalid Hderive example_store_keeps).
  - reflexivity.
  - reflexivity.
  - discriminate.
  - reflexivity.
  - reflexivity.
Defined.

Lemma identity_file_round_trip_witness :
  ∃ si sr,
    main_HandleIdentity (Example.host Example.mnemonic_typed) Example.pub = Ok si ∧
    main_HandleIdentityAsRecipient Example.pub = Ok sr ∧
    ∃ w', Bip39Identity_Unwrap si Example.stanzas Example.world =
          Done (Ok Example.fileKey) w'.
Proof.
  assert (Hvalid : IsMnemonicValid (TrimSpace Example.mnemonic_typed) = true)
    by (vm_compute; reflexivity).
  assert (Hderive : deriveX25519FromMnemonic (TrimSpace Example.mnemonic_typed) =
                    Ok (Example.priv, Example.pub)) by (vm_compute; reflexivity).
  assert (HK : Forall is_byte Example.fileKey)
    by (unfold Example.fileKey; decide_byte_list).
  destruct (proj2 (identity_file_round_trip (L := ref_library)
                     ref_GenerateKey_public ref_X25519_output ref_X25519_agreement
                     ref_b64_round_trip
                     (λ key nonce pt ad _ _ _, ref_aead_round_trip key nonce pt ad)
                     (Example.host Example.mnemonic_typed) Example.pub) eq_refl)
    as (si & sr & Hsi & Hsr & Hpk & Hrpk & Hround).
  exists si, sr. split_and!; [exact Hsi | exact Hsr |].
  injection Hsr as <-.
  refine (Hround Example.rand Example.mnemonic_typed Example.priv Example.fileKey
            Example.stanzas Example.world
            (logged (EvKeyctlSearch Example.cacheKeyName) Example.world)
            _ eq_refl Hvalid Hderive HK _).
  - reflexivity.
  - vm_compute. reflexivity.
Defined.

Lemma derive_private_scalar_witness :
  deriveX25519FromMnemonic Example.mnemonic = Ok (Example.priv, Example.pub) ∧
  length Example.priv = 32 ∧ Forall is_byte Example.priv ∧
  (little_endian Example.priv mod 8 = 0)%Z ∧
  (2 ^ 254 ≤ little_endian Example.priv < 2 ^ 255)%Z.
Proof.
  assert (H : deriveX25519FromMnemonic Example.mnemonic =
              Ok (Example.priv, Example.pub)) by (vm_compute; reflexivity).
  split; [exact H|].
  exact (derive_private_scalar ref_Sum512_bytes Example.mnemonic Example.priv
           Example.pub H).
Defined.

Lemma Unwrap_returns_decrypted_key_witness :
  ∃ sk st, length sk = 32 ∧ st ∈ Example.stanzas ∧
    decrypts_to sk Example.pub st Example.fileKey.
Proof.
  refine (Unwrap_returns_decrypted_key (Example.identity Example.mnemonic_typed)
            Example.stanzas Example.world
            (world_after (Bip39Identity_Unwrap (Example.identity Example.mnemonic_typed)
                            Example.stanzas Example.world))
            Example.fileKey _).
  apply Done_of_value. vm_compute. reflexivity.
Defined.

Lemma wrapX25519_one_well_formed_stanza_witness :
  wrapX25519 Example.rand Example.pub Example.fileKey = Ok Example.stanzas ∧
  ∃ st ephemeral,
    Example.stanzas = [st] ∧ Type_ st = "X25519" ∧
    GenerateKey Example.rand = Ok ephemeral ∧
    Args st = [b64_EncodeToString (PublicKey_Bytes ephemeral)] ∧
    b64_DecodeString (b64_EncodeToString (PublicKey_Bytes ephemeral)) =
      Ok (PublicKey_Bytes ephemeral) ∧
    length (PublicKey_Bytes ephemeral) = 32 ∧
    ¬ malformed_ephemeral st.
Proof.
  assert (H : wrapX25519 Example.rand Example.pub Example.fileKey =
              Ok Example.stanzas) by (vm_compute; reflexivity).
  split; [exact H|].
  exact (wrapX25519_one_well_formed_stanza ref_GenerateKey_public
           ref_X25519_output ref_b64_round_trip
           Example.rand Example.pub Example.fileKey Example.stanzas H).
Defined.

Lemma outputIdentity_public_only_witness :
  outputIdentity Example.now Example.mnemonic =
  outputIdentity Example.now Example.mnemonic_spaced.
Proof.
  refine (outputIdentity_public_only Example.now Example.mnemonic
            Example.mnemonic_spaced Example.priv Example.priv Example.pub _ _);
    vm_compute; reflexivity.
Defined.

End WitnessesMore.

(** ** Properties of the word grid *)

Section GridProperties.
Context `{L : Library} `{U : UILibrary}.

#[local] Arguments replicate : simpl never.
#[local] Arguments focusCmd : simpl never.
#[local] Arguments step_ok : simpl never.

Lemma index_Some {A} (l : list A) (i : Z) (x : A) (r : Rand) :
  (0 ≤ i)%Z → l !! Z.to_nat i = Some x → index l i r = Next x r.
Proof.
  intros Hi Hl. unfold index.
  destruct (0 <=? i)%Z eqn:E; [|lia]. by rewrite Hl.
Qed.

Lemma index_in_range {A} (l : list A) (i : Z) (r : Rand) :
  (0 ≤ i < len l)%Z → ∃ x, l !! Z.to_nat i = Some x ∧ index l i r = Next x r.
Proof.
  intros Hi. unfold len in Hi.
  destruct (lookup_lt_is_Some_2 l (Z.to_nat i)) as [x Hx]; [lia|].
  exists x. split; [done|]. apply index_Some; [lia|done].
Qed.

Lemma effectiveWords_loop_spec (inputs : list textinput) :
  ∀ (i k : nat) (generated filled : list string),
    length filled = i →
    (length inputs ≤ k)%nat →
    effectiveWords_loop i inputs generated (filled ++ replicate k ""%string) =
    Some (filled ++ imap (λ j, word_at generated (i + j)) inputs ++
          replicate (k - length inputs) ""%string).
Proof.
  induction inputs as [|t rest IH]; intros i k generated filled Hlen Hk; simpl.
  - by rewrite Nat.sub_0_r.
  - simpl in Hk. destruct k as [|k]; [lia|].
    assert (Hlt : (i <? length (filled ++ replicate (S k) ""%string))%nat = true).
    { apply Nat.ltb_lt. rewrite length_app, length_replicate. lia. }
    assert (Hins : ∀ w, <[i := w]> (filled ++ replicate (S k) ""%string) =
                        (filled ++ [w]) ++ replicate k ""%string).
    { intros w. rewrite insert_app_r_alt by lia.
      rewrite Hlen, Nat.sub_diag. rewrite <- app_assoc. done. }
    assert (Hrest : ∀ w, effectiveWords_loop (S i) rest generated
                          ((filled ++ [w]) ++ replicate k ""%string) =
                         Some (filled ++ (w :: imap (λ j, word_at generated (i + S j)) rest) ++
                               replicate (k - length rest) ""%string)).
    { intros w. rewrite IH by (rewrite ?length_app; simpl; lia).
      rewrite <- !app_assoc. simpl. do 3 f_equal.
      f_equal. apply imap_ext. intros j x _. f_equal. lia. }
    unfold word_at at 1. rewrite Nat.add_0_r.
    replace (imap ((λ j, word_at generated (i + j)) ∘ S) rest)
      with (imap (λ j, word_at generated (i + S j)) rest) by done.
    destruct (negb (TrimSpace (Value t) =? "")%string) eqn:Ev.
    + rewrite Hlt, Hins, Hrest. done.
    + destruct (generated !! i) as [g|] eqn:Eg; simpl.
      * rewrite Hlt, Hins, Hrest. done.
      * replace (filled ++ replicate (S k) ""%string)
          with ((filled ++ [""%string]) ++ replicate k ""%string)
          by (by rewrite <- app_assoc).
        rewrite Hrest. done.
Qed.

Lemma effectiveWords_imap (m : wordGridModel) :
  length (inputs m) = Z.to_nat gridTotal →
  effectiveWords m = Some (imap (word_at (generated m)) (inputs m)).
Proof.
  intros Hlen. unfold effectiveWords.
  pose proof (effectiveWords_loop_spec (inputs m) 0 (Z.to_nat gridTotal)
                (generated m) [] eq_refl) as H.
  simpl in H. rewrite H by lia.
  rewrite Hlen, Nat.sub_diag. simpl. by rewrite app_nil_r.
Qed.

(** X16. With 24 inputs [effectiveWords] does not panic and returns 24
    words: at every cell the text typed there, trimmed and in lower case,
    or, when the cell is blank, the generated word of that position. *)
Theorem effectiveWords_typed_or_generated (m : wordGridModel) :
  length (inputs m) = 24%nat →
  ∃ words, effectiveWords m = Some words ∧ length words = 24%nat ∧
           ∀ i t, inputs m !! i = Some t →
                  words !! i = Some (word_at (generated m) i t).
Proof.
  intros Hlen. exists (imap (word_at (generated m)) (inputs m)).
  split; [by apply effectiveWords_imap|]. split; [by rewrite length_imap|].
  intros i t Ht. by rewrite list_lookup_imap, Ht.
Qed.

(** [pickTwoRandomPositions]. *)

Lemma pick_second_inv (idx1 : Z) (draws : list (Result Z)) (r : Rand) :
  match pick_second idx1 draws r with
  | Next res r' =>
    (∃ used, draws = used ++ ints r') ∧ entropies r' = entropies r ∧
    match res with
    | Ok (a, b) => a = idx1 ∧ b ≠ idx1 ∧ Ok b ∈ draws
    | Err _ => True
    end
  | Crash _ => False
  | Waiting => True
  end.
Proof.
  induction draws as [|[idx2|e] rest IH]; simpl; [done| |].
  - destruct (negb (idx2 =? idx1)%Z) eqn:E; simpl.
    + split; [by exists [Ok idx2]|]. split; [done|].
      split; [done|]. split; [lia|]. apply list_elem_of_here.
    + destruct (pick_second idx1 rest r) as [[[a b]|e] r'| |]; [| |done..].
      * destruct IH as [[used ->] [-> (-> & Hb & Hin)]].
        split; [by exists (Ok idx2 :: used)|]. split; [done|].
        split; [done|]. split; [done|]. by apply list_elem_of_further.
      * destruct IH as [[used ->] [-> _]].
        split; [by exists (Ok idx2 :: used)|]. done.
  - split; [by exists [Err e]|]. done.
Qed.

Lemma pickTwoRandomPositions_inv (n : Z) (r : Rand) :
  match pickTwoRandomPositions n r with
  | Next res r' =>
    (∃ used, ints r = used ++ ints r') ∧ entropies r' = entropies r ∧
    match res with
    | Ok (a, b) => a ≠ b ∧ Ok a ∈ ints r ∧ Ok b ∈ ints r
    | Err _ => True
    end
  | Crash _ => (n ≤ 0)%Z
  | Waiting => True
  end.
Proof.
  unfold pickTwoRandomPositions, mbind, UI_bind, rand_Int.
  destruct (n <=? 0)%Z eqn:Hn; [by apply Z.leb_le in Hn|].
  destruct (ints r) as [|[idx1|e] rest] eqn:Hints; [done| |].
  - simpl.
    pose proof (pick_second_inv idx1 rest
                  {| ints := rest; entropies := entropies r |}) as Hinv.
    destruct (pick_second idx1 rest _) as [res r'| |]; [|done..].
    destruct Hinv as ([used Hused] & Hent & Hres).
    split; [exists (Ok idx1 :: used); simpl; by rewrite <- Hused|].
    split; [done|]. destruct res as [[a b]|e]; [|done].
    destruct Hres as (-> & Hne & Hin).
    split; [done|]. split; [apply list_elem_of_here|by apply list_elem_of_further].
  - simpl. split; [by exists [Err e]|]. done.
Qed.

(** X17. The two positions that [pickTwoRandomPositions] returns are
    different, and both are results of [rand.Int]. *)
Theorem pickTwoRandomPositions_distinct (n : Z) (r r' : Rand) (p1 p2 : Z) :
  pickTwoRandomPositions n r = Next (Ok (p1, p2)) r' →
  p1 ≠ p2 ∧ Ok p1 ∈ ints r ∧ Ok p2 ∈ ints r.
Proof.
  intros Hpick. pose proof (pickTwoRandomPositions_inv n r) as Hinv.
  rewrite Hpick in Hinv. by destruct Hinv as (_ & _ & Hres).
Qed.

(** X18. [pickTwoRandomPositions] drops the results of [rand.Int] that
    repeat the first one: with [k] of them before a different one, it
    returns the pair after [k + 2] calls. *)
Theorem pickTwoRandomPositions_skips_repeats
  (n : Z) (r : Rand) (i1 i2 : Z) (k : nat) (rest : list (Result Z)) :
  (0 < n)%Z →
  ints r = Ok i1 :: replicate k (Ok i1) ++ Ok i2 :: rest →
  i2 ≠ i1 →
  pickTwoRandomPositions n r =
  Next (Ok (i1, i2)) {| ints := rest; entropies := entropies r |}.
Proof.
  intros Hn Hints Hne.
  unfold pickTwoRandomPositions, mbind, UI_bind, rand_Int.
  destruct (n <=? 0)%Z eqn:E; [lia|]. rewrite Hints. simpl.
  assert (Hloop : ∀ r0, pick_second i1 (replicate k (Ok i1) ++ Ok i2 :: rest) r0 =
                        Next (Ok (i1, i2)) {| ints := rest; entropies := entropies r0 |}).
  { intros r0. clear Hints. induction k as [|k IH]; simpl.
    - destruct (i2 =? i1)%Z eqn:E2; [lia|]. done.
    - rewrite Z.eqb_refl. simpl. apply IH. }
  by rewrite Hloop.
Qed.

Lemma rand_ok_suffix (r r' : Rand) (used : list (Result Z)) (used' : list (Result bytes)) :
  rand_ok r → ints r = used ++ ints r' → entropies r = used' ++ entropies r' →
  rand_ok r'.
Proof.
  intros [Hi He] Hints Hent. rewrite Hints in Hi. rewrite Hent in He.
  apply Forall_app in Hi as [_ Hi]. apply Forall_app in He as [_ He]. done.
Qed.

Lemma pickTwoRandomPositions_ok (r : Rand) :
  rand_ok r →
  match pickTwoRandomPositions gridTotal r with
  | Next res r' =>
    rand_ok r' ∧
    match res with
    | Ok (p1, p2) => p1 ≠ p2 ∧ (0 ≤ p1 < gridTotal)%Z ∧ (0 ≤ p2 < gridTotal)%Z
    | Err _ => True
    end
  | Crash _ => False
  | Waiting => True
  end.
Proof.
  intros Hr. pose proof (pickTwoRandomPositions_inv gridTotal r) as Hinv.
  destruct (pickTwoRandomPositions gridTotal r) as [res r'| |]; [|done|done].
  destruct Hinv as ([used Hused] & Hent & Hres).
  split; [apply (rand_ok_suffix r r' used []); by rewrite ?Hent|].
  destruct res as [[p1 p2]|e]; [|done]. destruct Hres as (Hne & H1 & H2).
  destruct Hr as [Hi _]. rewrite Forall_forall in Hi.
  split; [done|]. split; [by apply (Hi (Ok p1))|by apply (Hi (Ok p2))].
Qed.

(** Steps of [Update]. *)

Lemma grid_ok_focusCmd (m : wordGridModel) : grid_ok m → grid_ok (focusCmd m).1.
Proof.
  intros [Hin Hgen Hlast Hph]. constructor; simpl; try done.
  - by rewrite length_imap.
  - destruct (phase m); [done|].
    destruct Hph as (p1 & p2 & Hvp & H1 & H2 & He & Hf & Hg & Hb).
    exists p1, p2. repeat (split; [done|]).
    intros i t. rewrite list_lookup_imap.
    destruct (inputs m !! i) as [t0|] eqn:Ht; [|done].
    simpl. intros [= <-] Hi1 Hi2. by apply (Hb i t0).
Qed.

Lemma same_phrase_refl (m m' : wordGridModel) :
  generated m' = generated m → same_or_new_phrase m m'.
Proof. intros H. by left. Qed.

Lemma step_ok_focusCmd (m0 m : wordGridModel) (waits : bool) (r : Rand) :
  grid_ok m → rand_ok r → same_or_new_phrase m0 m →
  done m = done m0 → aborted m = aborted m0 →
  step_ok m0 waits (Next (focusCmd m) r).
Proof.
  intros Hok Hr Hsame Hd Ha. unfold step_ok.
  pose proof (grid_ok_focusCmd m Hok) as Hok'.
  destruct (focusCmd m) as [m' c] eqn:Hf. simpl in Hok'.
  unfold focusCmd in Hf. injection Hf as <- <-.
  split; [done|]. split; [done|]. split; [done|]. split; [done|]. done.
Qed.

Lemma step_ok_stay (m0 m : wordGridModel) (waits : bool) (r : Rand) (c : Cmd InputCmd) :
  grid_ok m → rand_ok r → same_or_new_phrase m0 m →
  done m = done m0 → aborted m = aborted m0 → c ≠ CmdQuit →
  step_ok m0 waits (Next (m, c) r).
Proof.
  intros Hok Hr Hsame Hd Ha Hc. unfold step_ok.
  split; [done|]. split; [done|]. split; [done|]. split; [done|].
  intros ->. done.
Qed.

Lemma step_ok_forward (m : wordGridModel) (msg : Msg) (waits : bool) (r : Rand) :
  grid_ok m → rand_ok r → step_ok m waits (forward m msg r).
Proof.
  intros Hok Hr. unfold forward.
  destruct ((0 <=? focused m)%Z && (focused m <? gridTotal)%Z) eqn:Hfoc;
    [|apply step_ok_stay; by try left].
  apply andb_true_iff in Hfoc as [Hf1 Hf2].
  apply Z.leb_le in Hf1. apply Z.ltb_lt in Hf2.
  set (m1 := match msg with KeyMsg _ => set_err "" m | OtherMsg _ => m end).
  assert (Hm1 : inputs m1 = inputs m ∧ focused m1 = focused m ∧
                generated m1 = generated m ∧ lastGridFocus m1 = lastGridFocus m ∧
                phase m1 = phase m ∧ verifyPos m1 = verifyPos m ∧
                editIdx m1 = editIdx m ∧ done m1 = done m ∧ aborted m1 = aborted m)
    by (unfold m1; by destruct msg).
  destruct Hm1 as (Ei & Ef & Eg & El & Ep & Ev & Ee & Ed & Ea).
  destruct Hok as [Hin Hgen Hlast Hph].
  unfold mbind, UI_bind.
  destruct (index_in_range (inputs m1) (focused m1) r) as (t & Ht & ->).
  { unfold len. rewrite Ei, Ef, Hin. lia. }
  destruct (textinput_Update t msg) as [t' cmd].
  unfold mret, UI_ret. apply step_ok_stay; simpl; try done.
  - constructor; simpl; rewrite ?Ei, ?Ef, ?Eg, ?El, ?Ep, ?Ev, ?Ee; try done.
    + by rewrite length_insert.
    + destruct (phase m); [done|].
      destruct Hph as (p1 & p2 & Hvp & H1 & H2 & He & Hf & Hg & Hb).
      exists p1, p2. repeat (split; [done|]).
      intros i t0 Hi Hi1 Hi2.
      destruct (decide (i = Z.to_nat (focused m))) as [->|Hne].
      * exfalso. rewrite Z2Nat.id in Hi1, Hi2 by lia.
        rewrite Hf in Hi1, Hi2, Hf1. unfold verify_focus in *.
        destruct (editIdx m =? 0)%Z; [done|].
        destruct (editIdx m =? 1)%Z; [done|]. lia.
      * rewrite list_lookup_insert_ne in Hi by done. by apply (Hb i t0).
  - by left.
Qed.

Lemma step_ok_sync (m : wordGridModel) (e : Z) (waits : bool) (r : Rand) :
  grid_ok m → rand_ok r → phase m = phaseVerify → (0 ≤ e < 4)%Z →
  step_ok m waits
    ((m' ← syncVerifyFocus (set_editIdx e m); mret (focusCmd m')) r).
Proof.
  intros Hok Hr Hph He.
  assert (Hok' : ∀ f, f = (if (e =? 0)%Z then default 0%Z (verifyPos m !! 0%nat)
                           else if (e =? 1)%Z then default 0%Z (verifyPos m !! 1%nat)
                           else -1)%Z →
                      grid_ok (set_focused f (set_editIdx e m))).
  { intros f ->. destruct Hok as [Hin Hgen Hlast Hp]. constructor; simpl; try done.
    rewrite Hph in *. destruct Hp as (p1 & p2 & Hvp & H1 & H2 & _ & _ & Hg & Hb).
    exists p1, p2. rewrite Hvp. simpl. unfold verify_focus.
    by repeat (split; [done|]). }
  destruct Hok as [Hin Hgen Hlast Hp]. rewrite Hph in Hp.
  destruct Hp as (p1 & p2 & Hvp & H1 & H2 & _ & _ & Hg & Hb).
  unfold syncVerifyFocus, mbind, UI_bind. simpl. rewrite Hvp.
  change (len [p1; p2]) with 2%Z.
  destruct (e <? 2)%Z eqn:E2.
  - apply Z.ltb_lt in E2.
    assert (e = 0 ∨ e = 1)%Z as [-> | ->] by lia; simpl;
      (apply step_ok_focusCmd; [apply Hok'; by rewrite Hvp|done|by left|done|done]).
  - apply Z.ltb_ge in E2. unfold mret, UI_ret.
    apply step_ok_focusCmd; [|done|by left|done|done].
    apply Hok'. destruct (e =? 0)%Z eqn:E0; [lia|]. destruct (e =? 1)%Z eqn:E1; [lia|done].
Qed.

Lemma grid_ok_focus (m : wordGridModel) (f l : Z) :
  grid_ok m → phase m = phaseInput →
  (0 ≤ f ≤ gridTotal + 1)%Z → (0 ≤ l < gridTotal)%Z →
  grid_ok (set_focused f (set_lastGridFocus l m)).
Proof.
  intros [Hin Hgen Hlast Hp] Hph Hf Hl. constructor; simpl; try done.
  by rewrite Hph.
Qed.

Lemma verify_items (m : wordGridModel) :
  grid_ok m → phase m = phaseVerify →
  verifyItemCount m = 4%Z ∧ len (verifyPos m) = 2%Z ∧ (0 ≤ editIdx m < 4)%Z.
Proof.
  intros [_ _ _ Hp] Hph. rewrite Hph in Hp.
  destruct Hp as (p1 & p2 & Hvp & _ & _ & He & _).
  unfold verifyItemCount. rewrite Hvp. done.
Qed.

Lemma input_focus (m : wordGridModel) :
  grid_ok m → phase m = phaseInput → (0 ≤ focused m ≤ gridTotal + 1)%Z.
Proof. intros [_ _ _ Hp] Hph. by rewrite Hph in Hp. Qed.

Ltac grid_bools :=
  repeat match goal with
  | H : _ && _ = true |- _ => apply andb_true_iff in H as [? ?]
  | H : (_ <=? _)%Z = true |- _ => apply Z.leb_le in H
  | H : (_ <? _)%Z = true |- _ => apply Z.ltb_lt in H
  | H : (_ =? _)%Z = true |- _ => apply Z.eqb_eq in H
  | H : (_ =? _)%Z = false |- _ => apply Z.eqb_neq in H
  | H : is_phaseInput ?p = true |- _ => destruct p eqn:?; [clear H|discriminate H]
  | H : is_phaseVerify ?p = true |- _ => destruct p eqn:?; [discriminate H|clear H]
  end.

Ltac grid_lia := unfold gridTotal, gridCols, gridRows in *; lia.

Lemma step_ok_move (m : wordGridModel) (f l : Z) (waits : bool) (r : Rand) :
  grid_ok m → rand_ok r → phase m = phaseInput →
  (0 ≤ f ≤ gridTotal + 1)%Z → (0 ≤ l < gridTotal)%Z →
  step_ok m waits (Next (focusCmd (set_focused f (set_lastGridFocus l m))) r).
Proof.
  intros Hok Hr Hph Hf Hl.
  apply step_ok_focusCmd; [by apply grid_ok_focus|done|by left|done|done].
Qed.

Lemma step_ok_navigation (m : wordGridModel) (key : KeyType) (waits : bool) (r : Rand) :
  grid_ok m → rand_ok r → key ≠ KeyEnter → key ≠ KeyCtrlC → key ≠ KeyEsc →
  step_ok m waits (Update m (KeyMsg key) r).
Proof.
  intros Hok Hr Henter Hc Hesc.
  pose proof (ok_last m Hok) as Hlast.
  destruct key; try done; unfold Update.
  - (* Tab *)
    destruct (is_phaseVerify (phase m)) eqn:Hph.
    + grid_bools. destruct (verify_items m Hok) as (-> & _ & He); [done|].
      apply step_ok_sync; try done.
      rewrite Z.rem_mod_nonneg by lia. by apply Z.mod_pos_bound.
    + assert (phase m = phaseInput) as Hin by (by destruct (phase m)).
      pose proof (input_focus m Hok Hin) as Hf.
      destruct ((0 <=? focused m)%Z && (focused m <? gridTotal)%Z) eqn:Hg;
        [|destruct (focused m =? gridTotal)%Z eqn:Hg'];
        unfold mbind, UI_bind, mret, UI_ret; grid_bools.
      * apply step_ok_move; try done; try grid_lia.
      * destruct m as [ins foc last ph gen vp ei dn ab er]; simpl in *. apply (step_ok_move (mkGrid _ _ _ _ _ _ _ _ _ _)); try done; try grid_lia.
      * destruct m as [ins foc last ph gen vp ei dn ab er]; simpl in *. apply (step_ok_move (mkGrid _ _ _ _ _ _ _ _ _ _)); try done; try grid_lia.
  - (* ShiftTab *)
    destruct (is_phaseVerify (phase m)) eqn:Hph.
    + grid_bools. destruct (verify_items m Hok) as (-> & _ & He); [done|].
      apply step_ok_sync; try done.
      rewrite Z.rem_mod_nonneg by lia. by apply Z.mod_pos_bound.
    + assert (phase m = phaseInput) as Hin by (by destruct (phase m)).
      pose proof (input_focus m Hok Hin) as Hf.
      destruct ((0 <=? focused m)%Z && (focused m <? gridTotal)%Z) eqn:Hg;
        [|destruct (focused m =? gridTotal + 1)%Z eqn:Hg'];
        unfold mbind, UI_bind, mret, UI_ret; grid_bools.
      * apply step_ok_move; try done; try grid_lia.
      * destruct m as [ins foc last ph gen vp ei dn ab er]; simpl in *. apply (step_ok_move (mkGrid _ _ _ _ _ _ _ _ _ _)); try done; try grid_lia.
      * destruct m as [ins foc last ph gen vp ei dn ab er]; simpl in *. apply (step_ok_move (mkGrid _ _ _ _ _ _ _ _ _ _)); try done; try grid_lia.
  - (* Up *)
    destruct (is_phaseInput (phase m) && (0 <=? focused m)%Z && (focused m <? gridTotal)%Z
              && (0 <? focused m `rem` gridRows)%Z) eqn:Hg;
      [|by apply step_ok_forward].
    grid_bools. unfold mret, UI_ret.
    destruct m as [ins foc last ph gen vp ei dn ab er]; simpl in *. apply (step_ok_move (mkGrid _ _ _ _ _ _ _ _ _ _)); try done.
    assert (foc ≠ 0)%Z by (intros ->; done).
    grid_lia.
  - (* Down *)
    destruct (is_phaseInput (phase m) && (0 <=? focused m)%Z && (focused m <? gridTotal)%Z
              && (focused m `rem` gridRows <? gridRows - 1)%Z) eqn:Hg;
      [|by apply step_ok_forward].
    grid_bools. unfold mret, UI_ret.
    destruct m as [ins foc last ph gen vp ei dn ab er]; simpl in *. apply (step_ok_move (mkGrid _ _ _ _ _ _ _ _ _ _)); try done; try grid_lia.
  - (* Left *)
    destruct (is_phaseInput (phase m) && (gridRows <=? focused m)%Z
              && (focused m <? gridTotal)%Z) eqn:Hg.
    { grid_bools. unfold mret, UI_ret.
      destruct m as [ins foc last ph gen vp ei dn ab er]; simpl in *. apply (step_ok_move (mkGrid _ _ _ _ _ _ _ _ _ _)); try done; try grid_lia. }
    destruct (onVerifyButton m) eqn:Hb; [|by apply step_ok_forward].
    unfold onVerifyButton in Hb. grid_bools.
    destruct (verify_items m Hok) as (_ & Hl & He); [done|].
    apply step_ok_sync; try done. lia.
  - (* Right *)
    destruct (is_phaseInput (phase m) && (0 <=? focused m)%Z
              && (focused m + gridRows <? gridTotal)%Z) eqn:Hg.
    { grid_bools. unfold mret, UI_ret.
      destruct m as [ins foc last ph gen vp ei dn ab er]; simpl in *. apply (step_ok_move (mkGrid _ _ _ _ _ _ _ _ _ _)); try done; try grid_lia. }
    destruct (onBackButton m) eqn:Hb; [|by apply step_ok_forward].
    unfold onBackButton in Hb. grid_bools.
    destruct (verify_items m Hok) as (_ & Hl & He); [done|].
    apply step_ok_sync; try done. lia.
  - (* other keys *)
    by apply step_ok_forward.
Qed.

Lemma clear_inputs_spec (positions : list Z) (r : Rand) :
  ∀ m : wordGridModel,
    Forall (λ p, 0 ≤ p < len (inputs m))%Z positions →
    ∃ l, clear_inputs positions m r = Next (set_inputs l m) r ∧
         length l = length (inputs m) ∧
         ∀ i, Z.of_nat i ∉ positions → l !! i = inputs m !! i.
Proof.
  induction positions as [|pos rest IH]; intros m Hpos; simpl.
  - exists (inputs m). by destruct m.
  - apply Forall_cons in Hpos as [Hp Hrest].
    destruct (index_in_range (inputs m) pos r Hp) as (t & Ht & Hidx).
    unfold mbind, UI_bind. rewrite Hidx.
    set (l1 := <[Z.to_nat pos := set_Placeholder "" (SetValue "" t)]> (inputs m)).
    destruct (IH (set_inputs l1 m)) as (l & Hl & Hlen & Hother).
    { simpl. unfold len, l1. by rewrite length_insert. }
    exists l. split; [by rewrite Hl|]. simpl in Hlen, Hother.
    split; [by rewrite Hlen; unfold l1; rewrite length_insert|].
    intros i Hi. apply not_elem_of_cons in Hi as [Hne Hi].
    rewrite Hother by done. unfold l1. apply list_lookup_insert_ne. lia.
Qed.

Lemma restore_placeholders_spec (positions : list Z) (r : Rand) :
  ∀ m : wordGridModel,
    Forall (λ p, 0 ≤ p < len (inputs m) ∧ 0 ≤ p < len (generated m))%Z positions →
    ∃ l, restore_placeholders positions m r = Next (set_inputs l m) r ∧
         length l = length (inputs m).
Proof.
  induction positions as [|pos rest IH]; intros m Hpos; simpl.
  - exists (inputs m). by destruct m.
  - apply Forall_cons in Hpos as [[Hp Hg] Hrest].
    destruct (index_in_range (inputs m) pos r Hp) as (t & Ht & Hidx).
    destruct (index_in_range (generated m) pos r Hg) as (g & Hgen & Hidxg).
    unfold mbind, UI_bind. rewrite Hidx, Hidxg.
    set (l1 := <[Z.to_nat pos := set_Placeholder g (SetValue "" t)]> (inputs m)).
    destruct (IH (set_inputs l1 m)) as (l & Hl & Hlen).
    { simpl. unfold len, l1. by rewrite length_insert. }
    exists l. split; [by rewrite Hl|]. simpl in Hlen.
    by rewrite Hlen; unfold l1; rewrite length_insert.
Qed.

Lemma first_mismatch_spec (positions : list Z) (m : wordGridModel) (r : Rand) :
  Forall (λ p, 0 ≤ p < len (inputs m) ∧ 0 ≤ p < len (generated m))%Z positions →
  ∃ res, first_mismatch positions m r = Next res r ∧
         (res = None →
          Forall (λ p, ∃ t g, inputs m !! Z.to_nat p = Some t ∧
                              generated m !! Z.to_nat p = Some g ∧
                              ToLower (TrimSpace (Value t)) = g) positions).
Proof.
  induction positions as [|pos rest IH]; intros Hpos; simpl.
  - by exists None.
  - apply Forall_cons in Hpos as [[Hp Hg] Hrest].
    destruct (index_in_range (inputs m) pos r Hp) as (t & Ht & Hidx).
    destruct (index_in_range (generated m) pos r Hg) as (g & Hgen & Hidxg).
    unfold mbind, UI_bind. rewrite Hidx, Hidxg.
    destruct (negb (ToLower (TrimSpace (Value t)) =? g)%string) eqn:E.
    + exists (Some pos). done.
    + destruct (IH Hrest) as (res & Hres & Hall). exists res. split; [done|].
      intros Hnone. apply Forall_cons. split; [|by apply Hall].
      exists t, g. repeat (split; [done|]).
      apply negb_false_iff in E. by apply String.eqb_eq in E.
Qed.

Lemma anyUserEdited_false (m : wordGridModel) :
  anyUserEdited m = false → ∀ i t, inputs m !! i = Some t → blank t.
Proof.
  unfold anyUserEdited. intros Hex i t Hi.
  destruct (TrimSpace (Value t) =? "")%string eqn:E; [by apply String.eqb_eq in E|].
  exfalso. assert (Htrue : existsb (λ input, negb (TrimSpace (Value input) =? "")%string)
                            (inputs m) = true); [|congruence].
  apply existsb_exists. exists t. split; [|by rewrite E].
  apply list_elem_of_In. by eapply list_elem_of_lookup_2.
Qed.

Lemma word_at_blank (generated : list string) (i : nat) (t : textinput) :
  blank t → word_at generated i t = default ""%string (generated !! i).
Proof. unfold blank, word_at. by intros ->. Qed.

Lemma filter_word_ok (ws : list string) :
  Forall word_ok ws → List.filter (λ w, negb (w =? "")%string) ws = ws.
Proof.
  induction 1 as [|g gs [Hg _] _ IH]; [done|]. simpl.
  destruct (g =? "")%string eqn:E; [by apply String.eqb_eq in E|]. simpl. by rewrite IH.
Qed.

Lemma forallb_word_ok (ws : list string) :
  forallb (λ w, negb (w =? "")%string && bool_decide (is_Some (GetWordIndex w))) ws = true →
  Forall word_ok ws.
Proof.
  rewrite forallb_forall, Forall_forall. intros Hall w Hw.
  apply list_elem_of_In, Hall, andb_true_iff in Hw as [Hne Hidx].
  split; [|by apply bool_decide_eq_true in Hidx].
  intros ->. done.
Qed.

(** When the words of all cells are the generated ones and all are words
    of the word list, the phrase is the generated words joined by spaces. *)
Lemma mnemonic_generated (m : wordGridModel) :
  length (inputs m) = Z.to_nat gridTotal →
  length (generated m) = Z.to_nat gridTotal →
  Forall word_ok (generated m) →
  (∀ i t, inputs m !! i = Some t →
          word_at (generated m) i t = default ""%string (generated m !! i)) →
  mnemonic m = Some (Join (generated m) " ").
Proof.
  intros Hin Hgen Hne Hwords. unfold mnemonic.
  rewrite effectiveWords_imap by done. simpl.
  assert (Heq : imap (word_at (generated m)) (inputs m) = generated m).
  { apply list_eq. intros i. rewrite list_lookup_imap.
    destruct (inputs m !! i) as [t|] eqn:Ht; simpl.
    - rewrite (Hwords i t Ht).
      destruct (lookup_lt_is_Some_2 (generated m) i) as [g Hg].
      { apply lookup_lt_Some in Ht. lia. }
      by rewrite Hg.
    - symmetry. apply lookup_ge_None. apply lookup_ge_None in Ht. lia. }
  rewrite Heq. by rewrite filter_word_ok.
Qed.

Lemma grid_ok_len (m : wordGridModel) :
  grid_ok m → len (inputs m) = gridTotal ∧ len (generated m) = gridTotal.
Proof. intros [Hin Hgen _ _]. unfold len. rewrite Hin, Hgen. done. Qed.

Lemma grid_ok_set_err (m : wordGridModel) (s : string) :
  grid_ok m → grid_ok (set_err s m).
Proof. intros [Hin Hgen Hlast Hp]. by constructor. Qed.

Lemma grid_ok_set_done (m : wordGridModel) (b : bool) :
  grid_ok m → grid_ok (set_done b m).
Proof. intros [Hin Hgen Hlast Hp]. by constructor. Qed.

Lemma step_ok_err (m : wordGridModel) (s : string) (waits : bool) (r : Rand) :
  grid_ok m → rand_ok r → step_ok m waits (Next (set_err s m, CmdNil) r).
Proof.
  intros Hok Hr.
  apply step_ok_stay; [by apply grid_ok_set_err|done|by left|done|done|done].
Qed.

Lemma step_ok_handleEnter_verify (m : wordGridModel) (waits : bool) (r : Rand) :
  grid_ok m → rand_ok r → phase m = phaseVerify →
  step_ok m waits (handleEnter m r).
Proof.
  intros Hok Hr Hph.
  destruct (verify_items m Hok Hph) as (Hcount & Hlen & He).
  destruct (grid_ok_len m Hok) as [Hli Hlg].
  pose proof Hok as [Hin Hgen Hlast Hp]. rewrite Hph in Hp.
  destruct Hp as (p1 & p2 & Hvp & H1 & H2 & _ & Hf & Hg & Hb).
  assert (Hpos : Forall (λ p, 0 ≤ p < len (inputs m) ∧ 0 ≤ p < len (generated m))%Z
                   (verifyPos m)).
  { rewrite Hvp, Hli, Hlg. repeat constructor; lia. }
  unfold handleEnter. rewrite Hph. simpl.
  destruct (onBackButton m) eqn:Hback.
  { destruct (restore_placeholders_spec (verifyPos m) r m Hpos) as (l & Hl & Hll).
    unfold mbind, UI_bind. rewrite Hl. unfold mret, UI_ret.
    apply step_ok_focusCmd; [|done|by left|done|done].
    constructor; simpl; [by rewrite Hll|done|done|grid_lia]. }
  destruct (onVerifyButton m) eqn:Hverify.
  { destruct (first_mismatch_spec (verifyPos m) m r Hpos) as (res & Hres & Hall).
    unfold mbind, UI_bind. rewrite Hres. unfold mret, UI_ret.
    destruct res as [pos|].
    - by apply step_ok_err.
    - unfold step_ok. split; [by apply grid_ok_set_done|]. split; [done|].
      split; [by left|].
      split; [done|]. intros _. right. split; [done|]. split; [done|].
      exists (generated m). split; [by rewrite Hgen|]. split; [done|].
      split; [|by right].
      apply (mnemonic_generated (set_done true m)); simpl; try done.
      intros i t Ht. specialize (Hall eq_refl). rewrite Hvp in Hall.
      apply Forall_cons in Hall as [(t1 & g1 & Ht1 & Hg1 & E1) Hall].
      apply Forall_cons in Hall as [(t2 & g2 & Ht2 & Hg2 & E2) _].
      assert (Hcase : ∀ p t' g', inputs m !! Z.to_nat p = Some t' →
                                 generated m !! Z.to_nat p = Some g' →
                                 ToLower (TrimSpace (Value t')) = g' →
                                 Z.of_nat i = p →
                                 word_at (generated m) i t =
                                 default ""%string (generated m !! i)).
      { intros p t' g' Ht' Hg' E Hi. subst p. rewrite Nat2Z.id in Ht', Hg'.
        assert (t' = t) as -> by congruence. rewrite Hg'. simpl.
        unfold word_at. rewrite Hg'. simpl.
        destruct (negb (TrimSpace (Value t) =? "")%string); done. }
      destruct (decide (Z.of_nat i = p1)) as [E|N1];
        [exact (Hcase p1 t1 g1 Ht1 Hg1 E1 E)|].
      destruct (decide (Z.of_nat i = p2)) as [E|N2];
        [exact (Hcase p2 t2 g2 Ht2 Hg2 E2 E)|].
      apply word_at_blank. by apply (Hb i t). }
  rewrite Hlen. apply step_ok_sync; try done.
Qed.

Lemma rand_ok_entropy (r : Rand) (e : Result bytes) (rest : list (Result bytes)) :
  rand_ok r → entropies r = e :: rest →
  rand_ok {| ints := ints r; entropies := rest |} ∧
  ∀ b, e = Ok b → length b = 32%nat.
Proof.
  intros [Hi He] Hent. rewrite Hent in He. apply Forall_cons in He as [He1 He2].
  split; [by split|done].
Qed.

Section GridLaws.

(** go-bip39: the mnemonic of 32 bytes of entropy has 24 words, separated
    by single spaces. *)
Hypothesis NewMnemonic_words : ∀ e s,
  length e = 32%nat → NewMnemonic e = Ok s → length (Split s " ") = 24%nat.

(** Its words are words of the word list. *)
Hypothesis NewMnemonic_word_list : ∀ e s,
  NewMnemonic e = Ok s → Forall word_ok (Split s " ").

(** strings: nothing to trim in the empty string. *)
Hypothesis TrimSpace_empty : TrimSpace "" = ""%string.

Lemma step_ok_regenerate (m : wordGridModel) (r : Rand) :
  grid_ok m → rand_ok r → phase m = phaseInput →
  step_ok m true (regenerate m r).
Proof.
  intros Hok Hr Hph. unfold regenerate, mbind, UI_bind, NewEntropy.
  destruct (entropies r) as [|e rest] eqn:Hent; [done|].
  destruct (rand_ok_entropy r e rest Hr Hent) as [Hr' Hlen].
  destruct e as [entropy|e]; [|by apply step_ok_err].
  destruct (NewMnemonic entropy) as [s|e] eqn:Hs; [|by apply step_ok_err].
  apply step_ok_focusCmd; try done.
  - destruct Hok as [Hin Hgen Hlast Hp]. constructor; simpl; try done.
    + by rewrite length_imap.
    + by apply (NewMnemonic_words entropy); [apply Hlen|].
    + rewrite Hph. grid_lia.
  - right. exists entropy, s. split; [by apply Hlen|]. done.
Qed.

Lemma step_ok_handleContinue (m : wordGridModel) (r : Rand) :
  grid_ok m → rand_ok r → phase m = phaseInput →
  step_ok m true (handleContinue m r).
Proof.
  intros Hok Hr Hph. pose proof Hok as [Hin Hgen Hlast Hp].
  destruct (grid_ok_len m Hok) as [Hli Hlg].
  unfold handleContinue, allWordsValid, mnemonic.
  rewrite effectiveWords_imap by done. simpl.
  set (ws := imap (word_at (generated m)) (inputs m)).
  destruct (forallb _ ws) eqn:Hvalid; [|by apply step_ok_err].
  apply forallb_word_ok in Hvalid.
  pose proof (filter_word_ok ws Hvalid) as Hfilter.
  destruct (anyUserEdited m) eqn:Hedit.
  { destruct (IsMnemonicValid _) eqn:Hmn; simpl; [|by apply step_ok_err].
    unfold step_ok, mret, UI_ret. split; [by apply grid_ok_set_done|].
    split; [done|]. split; [by left|].
    split; [done|]. intros _. right. split; [done|]. split; [done|].
    exists ws. split; [by unfold ws; rewrite length_imap, Hin|].
    split; [done|]. rewrite Hfilter in Hmn. split; [|by left].
    unfold mnemonic. rewrite effectiveWords_imap by done. simpl.
    fold ws. by rewrite Hfilter. }
  pose proof (anyUserEdited_false m Hedit) as Hblank.
  assert (Hnonempty : Forall word_ok (generated m)).
  { apply Forall_lookup. intros i g Hg.
    destruct (lookup_lt_is_Some_2 (inputs m) i) as [t Ht].
    { apply lookup_lt_Some in Hg. lia. }
    assert (Hw : ws !! i = Some g).
    { unfold ws. rewrite list_lookup_imap, Ht. simpl.
      rewrite word_at_blank by by apply (Hblank i). by rewrite Hg. }
    rewrite Forall_lookup in Hvalid. by apply (Hvalid i). }
  unfold mbind at 1. unfold UI_bind at 1. rewrite Hlg.
  pose proof (pickTwoRandomPositions_ok r Hr) as Hpick.
  destruct (pickTwoRandomPositions gridTotal r) as [[[pos1 pos2]|e] r'| |];
    [| |done|done].
  2:{ destruct Hpick as [Hr' _]. by apply step_ok_err. }
  destruct Hpick as (Hr' & Hne & Hp1 & Hp2).
  assert (Hsorted : ∃ a b, (if (pos1 <=? pos2)%Z then [pos1; pos2] else [pos2; pos1])
                           = [a; b] ∧ (0 ≤ a < b)%Z ∧ (b < gridTotal)%Z).
  { destruct (pos1 <=? pos2)%Z eqn:E.
    - exists pos1, pos2. apply Z.leb_le in E. split; [done|]. lia.
    - exists pos2, pos1. apply Z.leb_gt in E. split; [done|]. lia. }
  cbv beta iota zeta.
  destruct Hsorted as (a & b & -> & Hab & Hb24).
  unfold mbind, UI_bind. rewrite (index_Some [a; b] 0 a) by done.
  set (m2 := set_err "" (set_focused a (set_editIdx 0
               (set_verifyPos [a; b] (set_phase phaseVerify m))))).
  destruct (clear_inputs_spec [a; b] r' m2) as (l & -> & Hll & Hother).
  { simpl. rewrite Hli. repeat constructor; lia. }
  unfold mret, UI_ret. apply step_ok_focusCmd; try done; [|by left].
  simpl in Hll, Hother. constructor; simpl; try done; [by rewrite Hll|].
  exists a, b. split; [done|]. split; [done|]. split; [done|]. split; [lia|].
  split; [done|]. split; [done|]. intros i t Ht Hia Hib.
  rewrite Hother in Ht by (rewrite !elem_of_cons, elem_of_nil; tauto).
  by apply (Hblank i).
Qed.

Lemma step_ok_handleEnter (m : wordGridModel) (r : Rand) :
  grid_ok m → rand_ok r → step_ok m true (handleEnter m r).
Proof.
  intros Hok Hr. destruct (phase m) eqn:Hph; [|by apply step_ok_handleEnter_verify].
  unfold handleEnter. rewrite Hph. simpl.
  destruct (onRegenerateButton m) eqn:Hregen; [by apply step_ok_regenerate|].
  destruct (onContinueButton m) eqn:Hcont; [by apply step_ok_handleContinue|].
  unfold onRegenerateButton, onContinueButton in *. rewrite Hph in *. simpl in *.
  pose proof (input_focus m Hok Hph) as Hf. grid_bools.
  unfold mret, UI_ret. apply step_ok_move; try done; grid_lia.
Qed.

(** A step of [Update] from a model in shape. *)
Lemma step_ok_Update (m : wordGridModel) (msg : Msg) (r : Rand) :
  grid_ok m → rand_ok r →
  step_ok m (bool_decide (msg = KeyMsg KeyEnter)) (Update m msg r).
Proof.
  intros Hok Hr. destruct msg as [key|tag]; [|by apply step_ok_forward].
  destruct (decide (key = KeyEnter)) as [->|Henter].
  { by apply step_ok_handleEnter. }
  destruct (decide (key = KeyCtrlC ∨ key = KeyEsc)) as [Habort|Hnav].
  - assert (Update m (KeyMsg key) r = Next (set_aborted true m, CmdQuit) r) as ->
      by (by destruct Habort as [-> | ->]).
    unfold step_ok. split; [by destruct Hok|]. split; [done|]. split; [by left|].
    split; [done|]. intros _. by left.
  - apply step_ok_navigation; try done; intros ->; apply Hnav; tauto.
Qed.

Lemma grid_ok_new (generated : list string) :
  length generated = 24%nat → grid_ok (newWordGridModel generated).
Proof.
  intros Hlen. by constructor.
Qed.

(** X19. No message makes [Update] panic on a model in shape, and the
    model it returns is in shape again; only Enter waits for the random
    source. *)
Theorem Update_keeps_shape (m : wordGridModel) (msg : Msg) (r : Rand) :
  grid_ok m → rand_ok r →
  match Update m msg r with
  | Next (m', _) r' => grid_ok m' ∧ rand_ok r'
  | Crash _ => False
  | Waiting => msg = KeyMsg KeyEnter
  end.
Proof.
  intros Hok Hr. pose proof (step_ok_Update m msg r Hok Hr) as Hstep.
  unfold step_ok in Hstep.
  destruct (Update m msg r) as [[m' c] r'| |]; [|done|].
  - destruct Hstep as (Hok' & Hr' & _). done.
  - by apply bool_decide_eq_true in Hstep.
Qed.

Lemma runs_inv (m0 m : wordGridModel) (r0 r : Rand) :
  grid_ok m0 → rand_ok r0 →
  runs m0 r0 m r →
  grid_ok m ∧ rand_ok r ∧ done m = done m0 ∧ aborted m = aborted m0 ∧
  same_or_new_phrase m0 m.
Proof.
  intros Hok0 Hr0. induction 1 as [|m r msg m' c r' Hruns IH Hstep Hc].
  - repeat (split; [done|]). by left.
  - destruct IH as (Hok & Hr & Hd & Ha & Hsame).
    pose proof (step_ok_Update m msg r Hok Hr) as Hs. rewrite Hstep in Hs.
    destruct Hs as (Hok' & Hr' & Hsame' & Hflags & _).
    destruct (Hflags Hc) as [Hd' Ha'].
    split; [done|]. split; [done|]. split; [congruence|]. split; [congruence|].
    destruct Hsame' as [Hg|Hnew]; [|by right].
    destruct Hsame as [Hg0|Hnew0]; [left; congruence|right].
    destruct Hnew0 as (e & s & He & Hs & Hgs). exists e, s. by rewrite Hg.
Qed.

(** X20. The phrase [runWordGrid] returns, when the program ends after
    any messages: unless the user aborted, it is a phrase of 24 words of the
    word list, and it passed [bip39.IsMnemonicValid], or its words are the
    generated ones the grid started with, or those of a mnemonic made by
    Regenerate. *)
Theorem runWordGrid_phrase_checked
  (words : list string) (r0 r r' : Rand) (m m' : wordGridModel) (msg : Msg) :
  length words = 24%nat → rand_ok r0 →
  runs (newWordGridModel words) r0 m r →
  Update m msg r = Next (m', CmdQuit) r' →
  runWordGrid (λ _, Ok m') words = Some (Err (errors_New "aborted")) ∨
  ∃ ws, runWordGrid (λ _, Ok m') words = Some (Ok (Join ws " ")) ∧
        length ws = 24%nat ∧ Forall word_ok ws ∧
        (IsMnemonicValid (Join ws " ") = true ∨ ws = words ∨
         ∃ e s, length e = 32%nat ∧ NewMnemonic e = Ok s ∧ ws = Split s " ").
Proof.
  intros Hlen Hr0 Hruns Hquit.
  destruct (runs_inv _ _ _ _ (grid_ok_new words Hlen) Hr0 Hruns)
    as (Hok & Hr & Hd & Ha & Hsame).
  pose proof (step_ok_Update m msg r Hok Hr) as Hs. rewrite Hquit in Hs.
  destruct Hs as (Hok' & Hr' & Hsame' & _ & Hacc). specialize (Hacc eq_refl).
  unfold runWordGrid.
  destruct (aborted m') eqn:Hab; [by left|right].
  destruct Hacc as [?|(Hdone & _ & ws & Hws & Hvalid & Hmn & Hwhy)]; [congruence|].
  exists ws. rewrite Hmn. simpl. split; [done|]. split; [done|]. split; [done|].
  destruct Hwhy as [Hvalid' | ->]; [by left|right].
  destruct Hsame' as [-> | Hnew]; [|by right].
  destruct Hsame as [-> | Hnew]; [by left|by right].
Qed.

Lemma values_refocus (b : nat → bool) (l : list textinput) :
  Value <$> imap (λ i t, set_Focus (b i) t) l = Value <$> l.
Proof.
  apply list_eq. intros i.
  rewrite !list_lookup_fmap, list_lookup_imap. by destruct (l !! i).
Qed.

Lemma syncVerifyFocus_two (m : wordGridModel) (p1 p2 e : Z) (r : Rand) :
  verifyPos m = [p1; p2] → (0 ≤ e < 4)%Z →
  syncVerifyFocus (set_editIdx e m) r =
  Next (set_focused (verify_focus p1 p2 e) (set_editIdx e m)) r.
Proof.
  intros Hvp Hrange. unfold syncVerifyFocus, verify_focus. simpl. rewrite Hvp.
  change (len [p1; p2]) with 2%Z.
  assert (e = 0 ∨ e = 1 ∨ e = 2 ∨ e = 3)%Z as [-> | [-> | [-> | ->]]] by lia; done.
Qed.

(** X21. Shift+Tab undoes Tab: after both, the focus is where it was, in both
    phases, and no cell has changed its text. *)
Theorem ShiftTab_undoes_Tab (m : wordGridModel) (r : Rand) :
  grid_ok m →
  ∃ m1 c1 m2 c2,
    Update m (KeyMsg KeyTab) r = Next (m1, c1) r ∧
    Update m1 (KeyMsg KeyShiftTab) r = Next (m2, c2) r ∧
    focused m2 = focused m ∧ editIdx m2 = editIdx m ∧ phase m2 = phase m ∧
    values m2 = values m.
Proof.
  intros Hok. pose proof (ok_last m Hok) as Hlast.
  destruct (phase m) eqn:Hph.
  - pose proof (input_focus m Hok Hph) as Hf.
    unfold Update. rewrite Hph. simpl.
    destruct ((0 <=? focused m)%Z && (focused m <? gridTotal)%Z) eqn:Hg;
      [|destruct (focused m =? gridTotal)%Z eqn:Hg']; grid_bools.
    + eexists _, _, _, _. split; [reflexivity|].
      split; [unfold focusCmd; simpl; rewrite Hph; reflexivity|].
      simpl. repeat (split; [done|]).
      unfold values. simpl. by rewrite !values_refocus.
    + eexists _, _, _, _. split; [reflexivity|].
      split; [unfold focusCmd; simpl; rewrite Hph; reflexivity|].
      simpl. split; [done|]. repeat (split; [done|]).
      unfold values. simpl. by rewrite !values_refocus.
    + assert (focused m = gridTotal + 1)%Z as Hf25 by grid_lia.
      eexists _, _, _, _. split; [reflexivity|].
      split.
      { unfold focusCmd. simpl. rewrite Hph. simpl.
        destruct ((0 <=? lastGridFocus m)%Z && (lastGridFocus m <? gridTotal)%Z) eqn:E.
        - reflexivity.
        - exfalso. apply andb_false_iff in E as [E|E];
            [apply Z.leb_gt in E|apply Z.ltb_ge in E]; lia. }
      simpl. split; [done|]. repeat (split; [done|]).
      unfold values. simpl. by rewrite !values_refocus.
  - destruct Hok as [Hin Hgen _ Hp]. rewrite Hph in Hp.
    destruct Hp as (p1 & p2 & Hvp & H1 & H2 & He & Hf & _).
    set (e1 := ((editIdx m + 1) `rem` 4)%Z).
    assert (He1 : (0 ≤ e1 < 4)%Z).
    { unfold e1. rewrite Z.rem_mod_nonneg by lia. by apply Z.mod_pos_bound. }
    assert (He2 : ((e1 - 1 + 4) `rem` 4 = editIdx m)%Z).
    { unfold e1.
      assert (editIdx m = 0 ∨ editIdx m = 1 ∨ editIdx m = 2 ∨ editIdx m = 3)%Z
        as [-> | [-> | [-> | ->]]] by lia; done. }
    assert (Htab : Update m (KeyMsg KeyTab) r =
                   Next (focusCmd (set_focused (verify_focus p1 p2 e1)
                                     (set_editIdx e1 m))) r).
    { unfold Update. rewrite Hph. simpl. unfold verifyItemCount. rewrite Hvp.
      change (len [p1; p2] + 2)%Z with 4%Z. fold e1.
      unfold mbind, UI_bind. by rewrite (syncVerifyFocus_two m p1 p2 e1 r). }
    set (m1 := (focusCmd (set_focused (verify_focus p1 p2 e1) (set_editIdx e1 m))).1).
    assert (Hback : Update m1 (KeyMsg KeyShiftTab) r =
                    Next (focusCmd (set_focused (verify_focus p1 p2 (editIdx m))
                                      (set_editIdx (editIdx m) m1))) r).
    { unfold Update. change (phase m1) with (phase m). rewrite Hph. simpl.
      unfold verifyItemCount. change (verifyPos m1) with (verifyPos m). rewrite Hvp.
      change (len [p1; p2] + 2)%Z with 4%Z. change (editIdx m1) with e1.
      rewrite He2. unfold mbind, UI_bind.
      by rewrite (syncVerifyFocus_two m1 p1 p2 (editIdx m) r). }
    eexists m1, _, _, _. split; [exact Htab|]. split; [exact Hback|].
    simpl. split; [by rewrite Hf|]. repeat (split; [done|]).
    unfold values, m1, focusCmd. simpl. by rewrite !values_refocus.
Qed.

Lemma mnemonic_untouched (m : wordGridModel) :
  length (inputs m) = Z.to_nat gridTotal →
  length (generated m) = Z.to_nat gridTotal →
  Forall word_ok (generated m) →
  Forall (λ t, Value t = ""%string) (inputs m) →
  mnemonic m = Some (Join (generated m) " ") ∧ anyUserEdited m = false.
Proof.
  intros Hin Hgen Hwords Hempty. rewrite Forall_lookup in Hempty. split.
  - apply mnemonic_generated; try done.
    intros i t Ht. apply word_at_blank. unfold blank.
    by rewrite (Hempty i t Ht).
  - unfold anyUserEdited. destruct (existsb _ _) eqn:E; [|done].
    apply existsb_exists in E as (t & Hin' & Ht).
    apply list_elem_of_In, list_elem_of_lookup in Hin' as [i Hi].
    rewrite (Hempty i t Hi), TrimSpace_empty in Ht. done.
Qed.

(** X22. A grid nobody typed in gives the phrase it was made for: the
    generated words, joined by single spaces. *)
Theorem new_grid_phrase (words : list string) :
  length words = 24%nat → Forall word_ok words →
  mnemonic (newWordGridModel words) = Some (Join words " ") ∧
  anyUserEdited (newWordGridModel words) = false.
Proof.
  intros Hlen Hwords.
  apply (mnemonic_untouched (newWordGridModel words)); try done.
  apply Forall_lookup. intros i t. unfold newWordGridModel, inputs.
  rewrite list_lookup_imap. destruct (replicate _ _ !! i); [|done].
  simpl. by intros [= <-].
Qed.

(** X23. Enter on Regenerate takes one result of [bip39.NewEntropy]; with 32
    bytes that [bip39.NewMnemonic] accepts, everything typed is dropped and
    the phrase of the grid is the new mnemonic's words; the program goes
    on, with the focus on the first cell. *)
Theorem Regenerate_replaces_phrase
  (m : wordGridModel) (r : Rand) (e : bytes) (rest : list (Result bytes)) (s : string) :
  grid_ok m → phase m = phaseInput → focused m = gridTotal →
  entropies r = Ok e :: rest → length e = 32%nat → NewMnemonic e = Ok s →
  ∃ m' c,
    Update m (KeyMsg KeyEnter) r =
      Next (m', c) {| ints := ints r; entropies := rest |} ∧
    c ≠ CmdQuit ∧
    generated m' = Split s " " ∧
    mnemonic m' = Some (Join (Split s " ") " ") ∧
    anyUserEdited m' = false ∧
    focused m' = 0%Z.
Proof.
  intros Hok Hph Hfoc Hent Hlen Hs.
  set (words := Split s " ").
  set (m1 := set_err ""
               (set_focused 0
                  (set_inputs
                     (imap (λ i t, set_Placeholder (default ""%string (words !! i))
                                     (SetValue "" t)) (inputs m))
                     (set_generated words m)))).
  exists (focusCmd m1).1, (focusCmd m1).2.
  split.
  { unfold Update, handleEnter, onRegenerateButton. rewrite Hph, Hfoc. simpl.
    unfold regenerate, mbind, UI_bind, NewEntropy. rewrite Hent, Hs. done. }
  split; [done|]. split; [done|].
  destruct Hok as [Hin Hgen _ _].
  destruct (mnemonic_untouched (focusCmd m1).1) as [Hmn Hedit].
  - unfold focusCmd. simpl. by rewrite !length_imap.
  - simpl. by apply (NewMnemonic_words e).
  - simpl. by apply (NewMnemonic_word_list e).
  - unfold focusCmd. simpl. apply Forall_lookup. intros i t.
    rewrite !list_lookup_imap. destruct (inputs m !! i); [|done].
    simpl. by intros [= <-].
  - done.
Qed.

End GridLaws.

(** A list of messages played without a stop is a run. *)
Lemma play_runs (msgs : list Msg) :
  ∀ (m0 m1 m : wordGridModel) (r0 r1 r : Rand),
    runs m0 r0 m1 r1 → play msgs m1 r1 = Some (m, r) → runs m0 r0 m r.
Proof.
  induction msgs as [|msg rest IH]; intros m0 m1 m r0 r1 r Hruns; simpl.
  - by intros [= <- <-].
  - destruct (Update m1 msg r1) as [[m' c] r'| |] eqn:Hstep; [|done..].
    intros Hplay. apply (IH m0 m' m r0 r' r); [|by destruct c].
    apply (runs_step m0 r0 m1 r1 msg m' c r'); [done|done|].
    intros ->. done.
Qed.

End GridProperties.

(** ** The reference library of the word grid keeps the laws *)

Section RefUILaws.

Lemma split_char_free (c : ascii) (w : string) :
  RefUI.free c w = true → RefUI.split_char c w = [w].
Proof.
  induction w as [|a w IH]; simpl; [done|].
  intros [Ha Hw]%andb_true_iff. apply negb_true_iff in Ha. rewrite Ha.
  by rewrite IH.
Qed.

Lemma split_char_app (c : ascii) (w rest : string) :
  RefUI.free c w = true →
  RefUI.split_char c (w +:+ String c rest) = w :: RefUI.split_char c rest.
Proof.
  induction w as [|a w IH]; simpl.
  - intros _. by rewrite Ascii.eqb_refl.
  - intros [Ha Hw]%andb_true_iff. apply negb_true_iff in Ha. rewrite Ha.
    by rewrite IH.
Qed.

Lemma split_char_concat (c : ascii) (ws : list string) :
  ws ≠ [] → Forall (λ w, RefUI.free c w = true) ws →
  RefUI.split_char c (String.concat (String c EmptyString) ws) = ws.
Proof.
  induction ws as [|w ws IH]; [done|]. intros _ [Hw Hws]%Forall_cons.
  destruct ws as [|w' ws].
  - by apply split_char_free.
  - change (String.concat (String c EmptyString) (w :: w' :: ws))
      with (w +:+ String c (String.concat (String c EmptyString) (w' :: ws))).
    rewrite split_char_app by done. f_equal. by apply IH.
Qed.

Lemma byte_word_facts (b : Z) :
  is_byte b →
  RefUI.free " " (RefUI.byte_word b) = true ∧
  RefUI.GetWordIndex (RefUI.byte_word b) = Some b ∧
  RefUI.byte_word b ≠ ""%string.
Proof.
  intros Hb.
  assert (Hall : forallb (λ b, RefUI.free " " (RefUI.byte_word b) &&
                               bool_decide (RefUI.GetWordIndex (RefUI.byte_word b) = Some b) &&
                               negb (RefUI.byte_word b =? "")%string)
                         (seqZ 0 256) = true) by (vm_compute; reflexivity).
  rewrite forallb_forall in Hall. specialize (Hall b).
  rewrite <- list_elem_of_In, elem_of_seqZ in Hall.
  specialize (Hall Hb).
  apply andb_true_iff in Hall as [Hall H3]. apply andb_true_iff in Hall as [H1 H2].
  split; [done|]. split; [by apply bool_decide_eq_true in H2|].
  intros E. rewrite E in H3. done.
Qed.

Lemma ref_NewMnemonic_split (e : bytes) (s : string) :
  RefUI.NewMnemonic e = Ok s →
  RefUI.Split s " " = RefUI.byte_word <$> Ref.digest (length e * 3 / 4) e ∧
  (length e ∈ [16; 20; 24; 28; 32])%nat.
Proof.
  unfold RefUI.NewMnemonic.
  destruct (bool_decide _) eqn:Hn; [|done]. apply bool_decide_eq_true in Hn.
  intros [= <-]. split; [|done].
  unfold RefUI.Split, Join. apply split_char_concat.
  - intros Hnil. apply (f_equal length) in Hnil.
    rewrite length_fmap in Hnil. unfold Ref.digest in Hnil.
    rewrite le_encode_length in Hnil. simpl in Hnil.
    rewrite !elem_of_cons, elem_of_nil in Hn.
    destruct Hn as [E|[E|[E|[E|[E|[]]]]]]; rewrite E in Hnil; done.
  - apply Forall_fmap. eapply Forall_impl; [apply le_encode_bytes|].
    intros b Hb. simpl. by apply byte_word_facts.
Qed.

Lemma ref_NewMnemonic_words (e : bytes) (s : string) :
  length e = 32%nat → RefUI.NewMnemonic e = Ok s →
  length (RefUI.Split s " ") = 24%nat.
Proof.
  intros Hlen Hs. destruct (ref_NewMnemonic_split e s Hs) as [-> _].
  rewrite length_fmap. unfold Ref.digest. rewrite le_encode_length. by rewrite Hlen.
Qed.

Lemma ref_NewMnemonic_word_list (e : bytes) (s : string) :
  RefUI.NewMnemonic e = Ok s →
  Forall (word_ok (U := ref_ui)) (RefUI.Split s " ").
Proof.
  intros Hs. destruct (ref_NewMnemonic_split e s Hs) as [-> _].
  apply Forall_fmap. eapply Forall_impl; [apply le_encode_bytes|].
  intros b Hb. simpl. destruct (byte_word_facts b Hb) as (_ & Hidx & Hne).
  split; [done|]. simpl. by rewrite Hidx.
Qed.

End RefUILaws.

(** ** The word grid on the example session *)

Section GridWitnesses.

#[local] Existing Instance ref_library.
#[local] Existing Instance ref_ui.

Lemma example_rand_ok : rand_ok ExampleGrid.rand.
Proof.
  split; unfold ExampleGrid.rand; simpl.
  - rewrite !Forall_cons. unfold gridTotal, gridCols, gridRows.
    split; [intros v [= <-]; lia|]. split; [intros v [= <-]; lia|].
    split; [intros v [= <-]; lia|]. apply Forall_nil_2.
  - rewrite !Forall_cons. split; [by intros b [= <-]|apply Forall_nil_2].
Qed.

Lemma example_words_ok : Forall word_ok ExampleGrid.words.
Proof. exact (ref_NewMnemonic_word_list ExampleGrid.entropy ExampleGrid.generated eq_refl). Qed.

Lemma example_runs (msgs : list Msg) (m : wordGridModel) (r : Rand) :
  play msgs ExampleGrid.start ExampleGrid.rand = Some (m, r) →
  runs ExampleGrid.start ExampleGrid.rand m r ∧ grid_ok m ∧ rand_ok r.
Proof.
  intros Hplay.
  assert (Hruns : runs ExampleGrid.start ExampleGrid.rand m r)
    by (eapply play_runs; [apply runs_start|exact Hplay]).
  split; [done|].
  destruct (runs_inv (L := ref_library) (U := ref_ui) ref_NewMnemonic_words _ _ _ _
              (grid_ok_new ExampleGrid.words eq_refl) example_rand_ok Hruns)
    as (Hok & Hr & _). done.
Qed.

Lemma example_on_verify :
  play ExampleGrid.messages ExampleGrid.start ExampleGrid.rand =
  Some (ExampleGrid.on_verify, ExampleGrid.rand_left).
Proof. vm_compute. reflexivity. Qed.

Lemma example_on_regenerate :
  play [ExampleGrid.type "zz"; KeyMsg KeyTab] ExampleGrid.start ExampleGrid.rand =
  Some (ExampleGrid.on_regenerate, ExampleGrid.rand).
Proof. vm_compute. reflexivity. Qed.

Lemma effectiveWords_typed_or_generated_witness :
  ∃ words, effectiveWords ExampleGrid.on_verify = Some words ∧
           length words = 24%nat ∧
           ∀ i t, inputs ExampleGrid.on_verify !! i = Some t →
                  words !! i = Some (word_at (generated ExampleGrid.on_verify) i t).
Proof.
  exact (effectiveWords_typed_or_generated (L := ref_library) (U := ref_ui)
           ExampleGrid.on_verify eq_refl).
Defined.

Lemma pickTwoRandomPositions_distinct_witness :
  pickTwoRandomPositions 24 ExampleGrid.rand =
    Next (Ok (5, 2)%Z) ExampleGrid.rand_left ∧
  (5 ≠ 2)%Z ∧ Ok 5%Z ∈ ints ExampleGrid.rand ∧ Ok 2%Z ∈ ints ExampleGrid.rand.
Proof.
  assert (H : pickTwoRandomPositions 24 ExampleGrid.rand =
              Next (Ok (5, 2)%Z) ExampleGrid.rand_left) by reflexivity.
  split; [exact H|].
  exact (pickTwoRandomPositions_distinct 24 ExampleGrid.rand ExampleGrid.rand_left 5 2 H).
Defined.

Lemma pickTwoRandomPositions_skips_repeats_witness :
  pickTwoRandomPositions 24 ExampleGrid.rand =
  Next (Ok (5, 2)%Z) {| ints := []; entropies := entropies ExampleGrid.rand |}.
Proof.
  apply (pickTwoRandomPositions_skips_repeats 24 ExampleGrid.rand 5 2 1 []);
    [lia|reflexivity|lia].
Defined.

Lemma Update_keeps_shape_witness :
  match Update ExampleGrid.on_verify (KeyMsg KeyEnter) ExampleGrid.rand_left with
  | Next (m', _) r' => grid_ok m' ∧ rand_ok r'
  | Crash _ => False
  | Waiting => KeyMsg KeyEnter = KeyMsg KeyEnter
  end.
Proof.
  destruct (example_runs _ _ _ example_on_verify) as (_ & Hok & Hr).
  exact (Update_keeps_shape (L := ref_library) (U := ref_ui) ref_NewMnemonic_words ExampleGrid.on_verify
           (KeyMsg KeyEnter) ExampleGrid.rand_left Hok Hr).
Defined.

Lemma runWordGrid_phrase_checked_witness :
  runWordGrid (λ _, Ok ExampleGrid.verified) ExampleGrid.words =
    Some (Err (errors_New "aborted")) ∨
  ∃ ws, runWordGrid (λ _, Ok ExampleGrid.verified) ExampleGrid.words =
          Some (Ok (Join ws " ")) ∧
        length ws = 24%nat ∧ Forall word_ok ws ∧
        (IsMnemonicValid (Join ws " ") = true ∨ ws = ExampleGrid.words ∨
         ∃ e s, length e = 32%nat ∧ NewMnemonic e = Ok s ∧ ws = Split s " ").
Proof.
  destruct (example_runs _ _ _ example_on_verify) as (Hruns & _).
  refine (runWordGrid_phrase_checked (L := ref_library) (U := ref_ui) ref_NewMnemonic_words ExampleGrid.words
            ExampleGrid.rand ExampleGrid.rand_left ExampleGrid.rand_left
            ExampleGrid.on_verify ExampleGrid.verified (KeyMsg KeyEnter)
            eq_refl example_rand_ok Hruns _).
  vm_compute. reflexivity.
Defined.

(** The session ends with the generated phrase. *)
Example grid_session_phrase :
  Update ExampleGrid.on_verify (KeyMsg KeyEnter) ExampleGrid.rand_left =
    Next (ExampleGrid.verified, CmdQuit) ExampleGrid.rand_left ∧
  runWordGrid (λ _, Ok ExampleGrid.verified) ExampleGrid.words =
    Some (Ok ExampleGrid.generated).
Proof. split; vm_compute; reflexivity. Qed.

Lemma ShiftTab_undoes_Tab_witness :
  ∃ m1 c1 m2 c2,
    Update ExampleGrid.on_verify (KeyMsg KeyTab) ExampleGrid.rand_left =
      Next (m1, c1) ExampleGrid.rand_left ∧
    Update m1 (KeyMsg KeyShiftTab) ExampleGrid.rand_left =
      Next (m2, c2) ExampleGrid.rand_left ∧
    focused m2 = focused ExampleGrid.on_verify ∧
    editIdx m2 = editIdx ExampleGrid.on_verify ∧
    phase m2 = phase ExampleGrid.on_verify ∧
    values m2 = values ExampleGrid.on_verify.
Proof.
  destruct (example_runs _ _ _ example_on_verify) as (_ & Hok & _).
  exact (ShiftTab_undoes_Tab (L := ref_library) (U := ref_ui) ExampleGrid.on_verify ExampleGrid.rand_left Hok).
Defined.

Lemma new_grid_phrase_witness :
  mnemonic (newWordGridModel ExampleGrid.words) = Some (Join ExampleGrid.words " ") ∧
  anyUserEdited (newWordGridModel ExampleGrid.words) = false.
Proof.
  exact (new_grid_phrase (L := ref_library) (U := ref_ui) eq_refl ExampleGrid.words eq_refl example_words_ok).
Defined.

Lemma Regenerate_replaces_phrase_witness :
  ∃ m' c,
    Update ExampleGrid.on_regenerate (KeyMsg KeyEnter) ExampleGrid.rand =
      Next (m', c) {| ints := ints ExampleGrid.rand; entropies := [] |} ∧
    c ≠ CmdQuit ∧
    generated m' = Split ExampleGrid.regenerated " " ∧
    mnemonic m' = Some (Join (Split ExampleGrid.regenerated " ") " ") ∧
    anyUserEdited m' = false ∧
    focused m' = 0%Z.
Proof.
  destruct (example_runs _ _ _ example_on_regenerate) as (_ & Hok & _).
  refine (Regenerate_replaces_phrase (L := ref_library) (U := ref_ui) ref_NewMnemonic_words ref_NewMnemonic_word_list
            eq_refl ExampleGrid.on_regenerate ExampleGrid.rand
            ExampleGrid.other_entropy [] ExampleGrid.regenerated
            Hok eq_refl eq_refl eq_refl eq_refl _).
  vm_compute. reflexivity.
Defined.

End GridWitnesses.
